(** * GaleaSerial: a shallow embedding of [galea_serial.cpp]

    The board driver of [src/board_controller/openbci/galea_serial.cpp]:
    the session life cycle ([prepare_session], [config_board],
    [start_stream], [stop_stream], [release_session]), the clock probe
    ([calc_time]) and the acquisition loop ([read_thread]) with its frame
    decoder.

    Conventions of the embedding:
    - an [unsigned char] is a [Byte.byte]; [int] values that the code keeps
      non-negative (sizes, offsets, loop counters) are [nat], return codes
      of the transport are [Z];
    - [float] and [double] are the carriers of an abstract arithmetic
      ([FloatArith]): the driver is written once over the interface, the
      structural facts hold for every arithmetic, the algebraic ones are
      proved for the exact rational instance [QArith_exact];
    - the members of the class are the fields of [Session]; the serial port,
      the clock and the second thread are the [World], a script that answers
      each call; every member function is a state transformer in the monad
      [M];
    - [board_descr] is the record [BoardDescr], the constants of
      [galea_serial.h] are the record [GaleaSerialH]. *)

From Stdlib Require Import ZArith QArith Lia.
From Stdlib.Strings Require Import Byte.
From stdpp Require Import base list strings.


(** ** Arithmetic of [float] and [double] *)

Class FloatArith := {
  f32 : Type;
  f64 : Type;
  (** [memcpy (&x, p, 4)] into a [float]: the four bytes in memory order *)
  f32_of_bytes : byte -> byte -> byte -> byte -> f32;
  f32_of_int : Z -> f32;
  f32_div : f32 -> f32 -> f32;
  f64_of_f32 : f32 -> f64;
  f64_of_int : Z -> f64;
  f64_add : f64 -> f64 -> f64;
  f64_sub : f64 -> f64 -> f64;
  f64_mul : f64 -> f64 -> f64;
  f64_div : f64 -> f64 -> f64
}.

Definition byte_val (x : byte) : Z := Z.of_N (Byte.to_N x).

(** [memcpy] into a [uint16_t] and an [int32_t] on a little-endian host. *)
Definition le_uint16 (b0 b1 : byte) : Z := byte_val b0 + 256 * byte_val b1.

Definition le_uint32 (b0 b1 b2 b3 : byte) : Z :=
  byte_val b0 + 256 * byte_val b1 + 65536 * byte_val b2 + 16777216 * byte_val b3.

Definition le_int32 (b0 b1 b2 b3 : byte) : Z :=
  let u := le_uint32 b0 b1 b2 b3 in
  if (u >=? 2147483648)%Z then u - 4294967296 else u.

(** The value of an IEEE-754 binary32 bit pattern as a rational; the
    patterns with exponent 255 (infinities, NaN) have no rational value and
    read as 0 in this instance. *)
Definition binary32_value (bits : Z) : Q :=
  let m := Z.land bits 8388607 in
  let e := Z.land (Z.shiftr bits 23) 255 in
  let s := Z.testbit bits 31 in
  let mag :=
    if (e =? 0)%Z then Qmult (inject_Z m) (Qpower (2 # 1) (-149))
    else if (e =? 255)%Z then 0%Q
    else Qmult (inject_Z (8388608 + m)) (Qpower (2 # 1) (e - 150)) in
  Qred (if s then Qopp mag else mag).

(** Exact rational arithmetic: the operations of [float] and [double]
    without rounding. *)
#[export] Instance QArith_exact : FloatArith := {|
  f32 := Q;
  f64 := Q;
  f32_of_bytes b0 b1 b2 b3 := binary32_value (le_uint32 b0 b1 b2 b3);
  f32_of_int := inject_Z;
  f32_div := Qdiv;
  f64_of_f32 x := x;
  f64_of_int := inject_Z;
  f64_add := Qplus;
  f64_sub := Qminus;
  f64_mul := Qmult;
  f64_div := Qdiv
|}.

(** ** Constants of [galea_serial.h] and the channel map *)

Record GaleaSerialH `{FloatArith} := {
  base_package_size : nat;
  exg_package_size : nat;
  num_base_packages : nat;
  bytes_in_single_entry : nat;
  num_exg_packages_per_base : nat;
  transaction_size : nat;
  start_byte : byte;
  stop_byte : byte;
  emg_scale : f64;
  eeg_scale_main_board : f64;
  eeg_scale_sister_board : f64
}.

(** The entries of [board_descr] that the driver reads;
    [ppg_channels], [other_channels] give their elements 0 and 1,
    [eda_channels], [temperature_channels] their element 0. *)
Record BoardDescr := {
  num_rows : nat;
  package_num_channel : nat;
  ppg_channels : nat * nat;
  eda_channels : nat;
  temperature_channels : nat;
  battery_channel : nat;
  timestamp_channel : nat;
  other_channels : nat * nat
}.

(** [enum class BrainFlowExitCodes]: the members the driver returns. *)
Inductive BrainFlowExitCodes :=
| STATUS_OK
| UNABLE_TO_OPEN_PORT_ERROR
| SET_PORT_ERROR
| BOARD_WRITE_ERROR
| BOARD_NOT_READY_ERROR
| STREAM_ALREADY_RUN_ERROR
| STREAM_THREAD_IS_NOT_RUNNING
| INVALID_ARGUMENTS_ERROR
| BOARD_NOT_CREATED_ERROR
| SYNC_TIMEOUT_ERROR
| OTHER_ERROR (code : Z).

#[export] Instance BrainFlowExitCodes_eq_dec : EqDecision BrainFlowExitCodes.
Proof. solve_decision. Defined.

(** ** Frame decoder *)

(** Modelled from the spec: [cast_24bit_to_int32] of [custom_cast.h] is not
    part of the sources; the spec has a 24-bit big-endian signed triplet
    sign-extended to a signed 32-bit integer. *)
Definition cast_24bit_to_int32 (b0 b1 b2 : byte) : Z :=
  let u := (65536 * byte_val b0 + 256 * byte_val b1 + byte_val b2)%Z in
  if (byte_val b0 >? 127)%Z then (u - 16777216)%Z else u.

(** Which of the three scale constants multiplies a sample. *)
Inductive scale := Emg | EegSister | EegMain.

Section Decoder.
Context `{FA : FloatArith} (H : GaleaSerialH) (board_descr : BoardDescr).

Definition scale_value (s : scale) : f64 :=
  match s with
  | Emg => emg_scale H
  | EegSister => eeg_scale_sister_board H
  | EegMain => eeg_scale_main_board H
  end.

(** [b[i]]; the buffer has [transaction_size] bytes and every offset of
    the decoder lies inside it when the header constants are consistent. *)
Definition peek (b : list byte) (i : nat) : byte := default "000"%byte (b !! i).

Definition cast24_at (b : list byte) (p : nat) : Z :=
  cast_24bit_to_int32 (peek b p) (peek b (p + 1)) (peek b (p + 2)).

Definition float_at (b : list byte) (p : nat) : f32 :=
  f32_of_bytes (peek b p) (peek b (p + 1)) (peek b (p + 2)) (peek b (p + 3)).

Definition int32_at (b : list byte) (p : nat) : Z :=
  le_int32 (peek b p) (peek b (p + 1)) (peek b (p + 2)) (peek b (p + 3)).

Definition uint16_at (b : list byte) (p : nat) : Z :=
  le_uint16 (peek b p) (peek b (p + 1)).

(** The branch taken by the sample loop of a base package, lines 368-376. *)
Definition base_scale (tmp_counter : nat) : scale :=
  if tmp_counter <? 6 then Emg
  else if (tmp_counter =? 6) || (tmp_counter =? 7) then EegSister
  else EegMain.

(** The branch taken by the sample loop of an exg package, lines 410-418. *)
Definition exg_scale (tmp_counter : nat) : scale :=
  if tmp_counter <? 6 then Emg
  else if (tmp_counter =? 6) || (tmp_counter =? 11) then EegSister
  else EegMain.

(** [for (int i = 4, tmp_counter = 0; i < 20; i++, tmp_counter++)] of a
    base package: one assignment to [package[i - 3]]. *)
Definition base_sample_step (b : list byte) (offset : nat)
    (package : list f64) (tmp_counter : nat) : list f64 :=
  let i := tmp_counter + 4 in
  let src := if tmp_counter <? 6 then offset + 5 + 3 * (i - 4)
             else offset + 5 + 3 * tmp_counter in
  <[i - 3 := f64_mul (scale_value (base_scale tmp_counter))
                     (f64_of_int (cast24_at b src))]> package.

Definition exg_sample_step (b : list byte) (exg_offset : nat)
    (package : list f64) (tmp_counter : nat) : list f64 :=
  let i := tmp_counter + 4 in
  <[i - 3 := f64_mul (scale_value (exg_scale tmp_counter))
                     (f64_of_int (cast24_at b (exg_offset + 3 * tmp_counter)))]> package.

(** [timestamp_device] after [memcpy] and [/= 1000]. *)
Definition timestamp_device_at (b : list byte) (p : nat) : f32 :=
  f32_div (float_at b p) (f32_of_int 1000).

(** The three assignments that stamp a row, lines 396-399 and 423-426. *)
Definition stamp (timestamp_device : f32) (pc_timestamp time_delta half_rtt : f64)
    (package : list f64) : list f64 :=
  let package :=
    <[timestamp_channel board_descr :=
        f64_sub (f64_add (f64_of_f32 timestamp_device) time_delta) half_rtt]> package in
  let package := <[fst (other_channels board_descr) := pc_timestamp]> package in
  <[snd (other_channels board_descr) := f64_of_f32 timestamp_device]> package.

(** Lines 364-399: the row of base package [cur_base_package]. *)
Definition parse_base_package (b : list byte) (pc_timestamp time_delta half_rtt : f64)
    (cur_base_package : nat) (package : list f64) : list f64 :=
  let offset := cur_base_package * bytes_in_single_entry H in
  let package :=
    <[package_num_channel board_descr := f64_of_int (byte_val (peek b (0 + offset)))]> package in
  let package := foldl (base_sample_step b offset) package (seq 0 16) in
  let temperature := uint16_at b (54 + offset) in
  let eda := float_at b (1 + offset) in
  let ppg_red := int32_at b (56 + offset) in
  let ppg_ir := int32_at b (60 + offset) in
  let package := <[fst (ppg_channels board_descr) := f64_of_int ppg_red]> package in
  let package := <[snd (ppg_channels board_descr) := f64_of_int ppg_ir]> package in
  let package := <[eda_channels board_descr := f64_of_f32 eda]> package in
  let package :=
    <[temperature_channels board_descr :=
        f64_div (f64_of_int temperature) (f64_of_int 100)]> package in
  let package :=
    <[battery_channel board_descr := f64_of_int (byte_val (peek b (53 + offset)))]> package in
  stamp (timestamp_device_at b (64 + offset)) pc_timestamp time_delta half_rtt package.

(** [package[...]++] on a [double]. *)
Definition increment (i : nat) (package : list f64) : list f64 :=
  match package !! i with
  | Some v => <[i := f64_add v (f64_of_int 1)]> package
  | None => package
  end.

(** Lines 407-427: the row of exg package [exg_package_num] of the base
    package at [offset]. *)
Definition parse_exg_package (b : list byte) (pc_timestamp time_delta half_rtt : f64)
    (offset exg_package_num : nat) (package : list f64) : list f64 :=
  let exg_offset := offset + exg_package_size H * exg_package_num in
  let package := foldl (exg_sample_step b exg_offset) package (seq 0 16) in
  let package :=
    stamp (timestamp_device_at b (48 + exg_offset)) pc_timestamp time_delta half_rtt package in
  increment (package_num_channel board_descr) package.

(** The decoder threads the row under construction and the rows pushed so
    far ([push_package] copies the row into the output buffer). *)
Definition decoder_state : Type := list f64 * list (list f64).

Definition push_package (package : list f64) (sink : list (list f64)) : list (list f64) :=
  sink ++ [package].

Definition exg_step (b : list byte) (pc_timestamp time_delta half_rtt : f64) (offset : nat)
    (st : decoder_state) (exg_package_num : nat) : decoder_state :=
  let package :=
    parse_exg_package b pc_timestamp time_delta half_rtt offset exg_package_num st.1 in
  (package, push_package package st.2).

Definition base_step (b : list byte) (pc_timestamp time_delta half_rtt : f64)
    (st : decoder_state) (cur_base_package : nat) : decoder_state :=
  let offset := cur_base_package * bytes_in_single_entry H in
  let package :=
    parse_base_package b pc_timestamp time_delta half_rtt cur_base_package st.1 in
  foldl (exg_step b pc_timestamp time_delta half_rtt offset)
        (package, push_package package st.2)
        (seq 0 (num_exg_packages_per_base H)).

(** Lines 360-430: both loops over one validated frame. *)
Definition decode_frame (b : list byte) (pc_timestamp time_delta half_rtt : f64)
    (st : decoder_state) : decoder_state :=
  foldl (base_step b pc_timestamp time_delta half_rtt) st (seq 0 (num_base_packages H)).

End Decoder.

(** ** The offset history *)

(** Modelled from the spec: the class [DataBuffer] is not part of the
    sources. The spec has a bounded history of the most recent entries, the
    oldest evicted first; [get_current_data] hands out the most recent
    entries, at most [max_count] of them, oldest first. *)
Record DataBuffer `{FloatArith} := {
  buffer_size : nat;
  history : list f64
}.

Section OffsetHistory.
Context `{FA : FloatArith}.

Definition DataBuffer_new (num_samples size : nat) : DataBuffer :=
  {| buffer_size := size; history := [] |}.

Definition add_data (value : f64) (db : DataBuffer) : DataBuffer :=
  let h := history db ++ [value] in
  {| buffer_size := buffer_size db; history := drop (length h - buffer_size db) h |}.

Definition get_current_data (max_count : nat) (db : DataBuffer) : list f64 :=
  drop (length (history db) - max_count) (history db).

(** Lines 352-357: the sum of [latest_times] from [0.0], divided by their
    number. *)
Definition mean (latest_times : list f64) : f64 :=
  f64_div (foldl f64_add (f64_of_int 0) latest_times)
          (f64_of_int (Z.of_nat (length latest_times))).

(** Lines 349-357 for one frame: the new history and the smoothed offset. *)
Definition observe (pc_timestamp : f64) (timestamp_last_package : f32)
    (time_buffer : DataBuffer) : DataBuffer * f64 :=
  let time_delta := f64_sub pc_timestamp (f64_of_f32 timestamp_last_package) in
  let time_buffer := add_data time_delta time_buffer in
  let latest_times := get_current_data 10 time_buffer in
  (time_buffer, mean latest_times).




End OffsetHistory.


(** ** Session, world and the monad of the member functions *)

(** The object behind the [serial] pointer. *)
Record Serial := { port_name : string }.

(** The reply of [calc_time]: the JSON object it dumps into [resp]. *)
Record CalcTimeResult `{FloatArith} := {
  rtt : f64;
  result_timestamp_device : f32;
  result_pc_timestamp : f64
}.

(** What the driver does to its collaborators; the [trace] of the world
    lists these events, the most recent first. *)
Inductive Event :=
| EvCreate (port : string)
| EvOpen
| EvSettings (timeout_ms : Z)
| EvBaud (rate : Z)
| EvSend (data : string)
| EvRead (size : nat) (got : list byte)
| EvDelete
| EvPrepareForAcquisition (buffer_size : Z) (streamer_params : string)
| EvFreePackages
| EvSpawn
| EvJoin
| EvNotify.

(** The members of [GaleaSerial] (with the ones of [Board] it uses). *)
Record Session `{FloatArith} := {
  params_serial_port : string;
  params_timeout : Z;
  serial : option Serial;
  is_streaming : bool;
  keep_alive : bool;
  initialized : bool;
  state : BrainFlowExitCodes;
  half_rtt : f64;
  sink : list (list f64)
}.

(** The collaborators: what the port answers, what arrives on it and when,
    what the clock shows, and what the other thread does.
    - [send_results]: the results of the next calls of
      [send_to_serial_port]; once used up, a write is complete;
    - [incoming]: the bytes that arrive, in the chunks in which they become
      available; an empty chunk is a read that times out;
    - [clock]: the next values of [get_timestamp], 0 once used up;
    - [alive_reads]: how many more times the acquisition thread reads
      [keep_alive] as [true] before the control thread has cleared it;
    - [first_frame_in_time]: whether the acquisition thread validates a
      frame within the 3 seconds [start_stream] waits. *)
Record World `{FloatArith} := {
  open_res : Z;
  settings_res : Z;
  baud_res : Z;
  send_results : list Z;
  incoming : list (list byte);
  clock : list f64;
  acquisition_res : BrainFlowExitCodes;
  first_frame_in_time : bool;
  alive_reads : nat;
  trace : list Event
}.

Section Driver.
Context `{FA : FloatArith} (H : GaleaSerialH) (board_descr : BoardDescr).

Definition Machine : Type := Session * World.

(** A call returns a value and the new machine, dereferences a null
    [serial] ([Undefined]), or exhausts the fuel of a loop. *)
Inductive result (A : Type) :=
| Ok (a : A) (m : Machine)
| Undefined
| OutOfFuel.
Arguments Ok {A} a m.
Arguments Undefined {A}.
Arguments OutOfFuel {A}.

Definition M (A : Type) : Type := Machine -> result A.

Definition ret {A} (a : A) : M A := fun m => Ok a m.

Definition bind {A B} (c : M A) (f : A -> M B) : M B := fun m =>
  match c m with
  | Ok a m' => f a m'
  | Undefined => Undefined
  | OutOfFuel => OutOfFuel
  end.

Declare Scope M_scope.
#[local] Notation "x ← y ; z" := (bind y (fun x => z))
  (at level 20, y at level 100, z at level 200, only parsing) : M_scope.
#[local] Notation "x ;; z" := (bind x (fun _ => z))
  (at level 100, z at level 200, only parsing, right associativity) : M_scope.
#[local] Open Scope M_scope.

Definition out_of_fuel {A} : M A := fun _ => OutOfFuel.
Definition gets {A} (f : Session -> A) : M A := fun m => Ok (f m.1) m.
Definition asks {A} (f : World -> A) : M A := fun m => Ok (f m.2) m.
Definition modify (f : Session -> Session) : M unit := fun m => Ok tt (f m.1, m.2).
Definition act (f : World -> World) : M unit := fun m => Ok tt (m.1, f m.2).

(** *** Field updates *)

Definition set_params_timeout (v : Z) (s : Session) : Session :=
  {| params_serial_port := params_serial_port s; params_timeout := v;
     serial := serial s; is_streaming := is_streaming s; keep_alive := keep_alive s;
     initialized := initialized s; state := state s; half_rtt := half_rtt s;
     sink := sink s |}.
Definition set_serial (v : option Serial) (s : Session) : Session :=
  {| params_serial_port := params_serial_port s; params_timeout := params_timeout s;
     serial := v; is_streaming := is_streaming s; keep_alive := keep_alive s;
     initialized := initialized s; state := state s; half_rtt := half_rtt s;
     sink := sink s |}.
Definition set_is_streaming (v : bool) (s : Session) : Session :=
  {| params_serial_port := params_serial_port s; params_timeout := params_timeout s;
     serial := serial s; is_streaming := v; keep_alive := keep_alive s;
     initialized := initialized s; state := state s; half_rtt := half_rtt s;
     sink := sink s |}.
Definition set_keep_alive (v : bool) (s : Session) : Session :=
  {| params_serial_port := params_serial_port s; params_timeout := params_timeout s;
     serial := serial s; is_streaming := is_streaming s; keep_alive := v;
     initialized := initialized s; state := state s; half_rtt := half_rtt s;
     sink := sink s |}.
Definition set_initialized (v : bool) (s : Session) : Session :=
  {| params_serial_port := params_serial_port s; params_timeout := params_timeout s;
     serial := serial s; is_streaming := is_streaming s; keep_alive := keep_alive s;
     initialized := v; state := state s; half_rtt := half_rtt s;
     sink := sink s |}.
Definition set_state (v : BrainFlowExitCodes) (s : Session) : Session :=
  {| params_serial_port := params_serial_port s; params_timeout := params_timeout s;
     serial := serial s; is_streaming := is_streaming s; keep_alive := keep_alive s;
     initialized := initialized s; state := v; half_rtt := half_rtt s;
     sink := sink s |}.
Definition set_half_rtt (v : f64) (s : Session) : Session :=
  {| params_serial_port := params_serial_port s; params_timeout := params_timeout s;
     serial := serial s; is_streaming := is_streaming s; keep_alive := keep_alive s;
     initialized := initialized s; state := state s; half_rtt := v;
     sink := sink s |}.
Definition set_sink (v : list (list f64)) (s : Session) : Session :=
  {| params_serial_port := params_serial_port s; params_timeout := params_timeout s;
     serial := serial s; is_streaming := is_streaming s; keep_alive := keep_alive s;
     initialized := initialized s; state := state s; half_rtt := half_rtt s;
     sink := v |}.

Definition set_send_results (v : list Z) (w : World) : World :=
  {| open_res := open_res w; settings_res := settings_res w; baud_res := baud_res w;
     send_results := v; incoming := incoming w; clock := clock w;
     acquisition_res := acquisition_res w; first_frame_in_time := first_frame_in_time w;
     alive_reads := alive_reads w; trace := trace w |}.
Definition set_incoming (v : list (list byte)) (w : World) : World :=
  {| open_res := open_res w; settings_res := settings_res w; baud_res := baud_res w;
     send_results := send_results w; incoming := v; clock := clock w;
     acquisition_res := acquisition_res w; first_frame_in_time := first_frame_in_time w;
     alive_reads := alive_reads w; trace := trace w |}.
Definition set_clock (v : list f64) (w : World) : World :=
  {| open_res := open_res w; settings_res := settings_res w; baud_res := baud_res w;
     send_results := send_results w; incoming := incoming w; clock := v;
     acquisition_res := acquisition_res w; first_frame_in_time := first_frame_in_time w;
     alive_reads := alive_reads w; trace := trace w |}.
Definition set_alive_reads (v : nat) (w : World) : World :=
  {| open_res := open_res w; settings_res := settings_res w; baud_res := baud_res w;
     send_results := send_results w; incoming := incoming w; clock := clock w;
     acquisition_res := acquisition_res w; first_frame_in_time := first_frame_in_time w;
     alive_reads := v; trace := trace w |}.
Definition log (e : Event) (w : World) : World :=
  {| open_res := open_res w; settings_res := settings_res w; baud_res := baud_res w;
     send_results := send_results w; incoming := incoming w; clock := clock w;
     acquisition_res := acquisition_res w; first_frame_in_time := first_frame_in_time w;
     alive_reads := alive_reads w; trace := e :: trace w |}.

(** *** The collaborators *)

(** [serial->...]: undefined on a null pointer. *)
Definition deref_serial : M Serial := fun m =>
  match serial m.1 with
  | Some p => Ok p m
  | None => Undefined
  end.

Definition open_serial_port : M Z :=
  deref_serial ;; act (log EvOpen) ;; asks open_res.

Definition set_serial_port_settings (timeout_ms : Z) : M Z :=
  deref_serial ;; act (log (EvSettings timeout_ms)) ;; asks settings_res.

Definition set_custom_baudrate (rate : Z) : M Z :=
  deref_serial ;; act (log (EvBaud rate)) ;; asks baud_res.

Definition send_to_serial_port (data : string) (len : nat) : M Z :=
  deref_serial ;; act (log (EvSend data)) ;;
  rs ← asks send_results;
  act (set_send_results (tail rs)) ;;
  ret (default (Z.of_nat len) (head rs)).

(** What a read of at most [size] bytes takes from the incoming chunks. *)
Definition take_chunk (size : nat) (chunks : list (list byte))
    : list byte * list (list byte) :=
  match chunks with
  | [] => ([], [])
  | c :: rest =>
      if length c <=? size then (c, rest) else (take size c, drop size c :: rest)
  end.

(** [read_from_serial_port]: the bytes stored at the destination; the
    return value of the call is their number. *)
Definition read_from_serial_port (size : nat) : M (list byte) :=
  deref_serial ;;
  chunks ← asks incoming;
  let r := take_chunk size chunks in
  act (set_incoming r.2) ;; act (log (EvRead size r.1)) ;; ret r.1.

Definition get_timestamp : M f64 :=
  c ← asks clock;
  act (set_clock (tail c)) ;;
  ret (default (f64_of_int 0) (head c)).

(** A read of [keep_alive] by the acquisition thread. *)
Definition read_keep_alive : M bool :=
  n ← asks alive_reads;
  act (set_alive_reads (pred n)) ;;
  ret (0 <? n).

Definition delete_serial : M unit :=
  act (log EvDelete) ;; modify (set_serial None).

Definition LF : string := String (Ascii.ascii_of_nat 10) EmptyString.

(** *** [calc_time] *)

Definition calc_time (resp : option CalcTimeResult)
    : M (BrainFlowExitCodes * option CalcTimeResult) :=
  start ← get_timestamp;
  res ← send_to_serial_port ("F444" +:+ LF) 5;
  if negb (res =? 5)%Z then ret (BOARD_WRITE_ERROR, resp)
  else
    b ← read_from_serial_port 4;
    done ← get_timestamp;
    if negb (length b =? 4) then ret (BOARD_WRITE_ERROR, resp)
    else
      let duration := f64_sub done start in
      let timestamp_device := f32_div (float_at b 0) (f32_of_int 1000) in
      modify (set_half_rtt (f64_div duration (f64_of_int 2))) ;;
      half ← gets half_rtt;
      ret (STATUS_OK,
            Some {| rtt := duration;
                    result_timestamp_device := timestamp_device;
                    result_pc_timestamp := f64_add start half |}).

(** [for (int i = 0; i < 3; i++)] around [calc_time]: the code of the first
    probe that fails, or [STATUS_OK]. *)
Fixpoint calc_time_loop (n : nat) (resp : option CalcTimeResult)
    : M (BrainFlowExitCodes * option CalcTimeResult) :=
  match n with
  | O => ret (STATUS_OK, resp)
  | S n' =>
      r ← calc_time resp;
      if decide (r.1 = STATUS_OK) then calc_time_loop n' r.2 else ret r
  end.

(** *** [config_board] *)

Definition config_board (conf : string) (response : option CalcTimeResult)
    : M (BrainFlowExitCodes * option CalcTimeResult) :=
  p ← gets serial;
  match p with
  | None => ret (BOARD_NOT_CREATED_ERROR, response)
  | Some _ =>
      if decide (conf = "calc_time") then
        streaming ← gets is_streaming;
        if streaming then ret (BOARD_NOT_CREATED_ERROR, response)
        else calc_time response
      else
        let new_conf := conf +:+ LF in
        let len := String.length new_conf in
        res ← send_to_serial_port new_conf len;
        if negb (Z.of_nat len =? res)%Z then ret (BOARD_WRITE_ERROR, response)
        else ret (STATUS_OK, response)
  end.

(** *** [prepare_session] *)

Definition prepare_session : M BrainFlowExitCodes :=
  ini ← gets initialized;
  if ini then ret STATUS_OK
  else
    port ← gets params_serial_port;
    if decide (port = EmptyString) then ret INVALID_ARGUMENTS_ERROR
    else
      timeout ← gets params_timeout;
      (if (timeout >? 600)%Z || (timeout <? 1)%Z
       then modify (set_params_timeout 3) else ret tt) ;;
      act (log (EvCreate port)) ;;
      modify (set_serial (Some {| port_name := port |})) ;;
      res ← open_serial_port;
      if (res <? 0)%Z then ret UNABLE_TO_OPEN_PORT_ERROR
      else
        timeout ← gets params_timeout;
        res ← set_serial_port_settings (timeout * 1000);
        if (res <? 0)%Z then delete_serial ;; ret SET_PORT_ERROR
        else
          res ← set_custom_baudrate 921600;
          if (res <? 0)%Z then delete_serial ;; ret SET_PORT_ERROR
          else
            r ← config_board "o" None;
            if negb (bool_decide (r.1 = STATUS_OK))
            then delete_serial ;; ret BOARD_NOT_READY_ERROR
            else
              r ← config_board "~6" r.2;
              if negb (bool_decide (r.1 = STATUS_OK))
              then delete_serial ;; ret BOARD_NOT_READY_ERROR
              else modify (set_initialized true) ;; ret STATUS_OK.

(** *** [stop_stream] *)

Definition max_attempt : nat := Z.to_nat 40000.

(** The loop that frees the kernel buffer, lines 226-236: [Some code] is the
    [return] inside the loop, [None] is the exit of the loop. *)
Fixpoint drain_loop (cap fuel current_attempt : nat) : M (option BrainFlowExitCodes) :=
  match fuel with
  | O => out_of_fuel
  | S fuel' =>
      b ← read_from_serial_port 1;
      let res := length b in
      let current_attempt := S current_attempt in
      if current_attempt =? cap then ret (Some BOARD_WRITE_ERROR)
      else if res =? 1 then drain_loop cap fuel' current_attempt
      else ret None
  end.

Definition stop_stream : M BrainFlowExitCodes :=
  streaming ← gets is_streaming;
  if streaming then
    modify (set_keep_alive false) ;;
    modify (set_is_streaming false) ;;
    act (log EvJoin) ;;
    modify (set_state SYNC_TIMEOUT_ERROR) ;;
    res ← send_to_serial_port ("s" +:+ LF) 2;
    if negb (res =? 2)%Z then ret BOARD_WRITE_ERROR
    else
      r ← drain_loop max_attempt max_attempt 0;
      match r with
      | Some code => ret code
      | None => calc_time_loop 3 None ;; ret STATUS_OK
      end
  else ret STREAM_THREAD_IS_NOT_RUNNING.

(** *** [start_stream] *)

(** [prepare_for_acquisition] of the base class [Board]. *)
Definition prepare_for_acquisition (size : Z) (streamer_params : string)
    : M BrainFlowExitCodes :=
  act (log (EvPrepareForAcquisition size streamer_params)) ;; asks acquisition_res.

Definition start_stream (size : Z) (streamer_params : string) : M BrainFlowExitCodes :=
  ini ← gets initialized;
  if negb ini then ret BOARD_NOT_CREATED_ERROR
  else
    streaming ← gets is_streaming;
    if streaming then ret STREAM_ALREADY_RUN_ERROR
    else
      r ← calc_time_loop 3 None;
      if negb (bool_decide (r.1 = STATUS_OK)) then ret r.1
      else
        res ← prepare_for_acquisition size streamer_params;
        if negb (bool_decide (res = STATUS_OK)) then ret res
        else
          res ← send_to_serial_port ("b" +:+ LF) 2;
          if negb (res =? 2)%Z then ret BOARD_WRITE_ERROR
          else
            modify (set_keep_alive true) ;;
            act (log EvSpawn) ;;
            (* [cv.wait_for]: the acquisition thread sets [state] once it
               has validated a frame *)
            seen ← asks first_frame_in_time;
            (if seen then modify (set_state STATUS_OK) else ret tt) ;;
            st ← gets state;
            if negb (bool_decide (st = SYNC_TIMEOUT_ERROR))
            then modify (set_is_streaming true) ;; gets state
            else modify (set_is_streaming true) ;; stop_stream ;; ret SYNC_TIMEOUT_ERROR.

(** *** [release_session] *)

Definition release_session : M BrainFlowExitCodes :=
  ini ← gets initialized;
  (if ini then
     streaming ← gets is_streaming;
     (if streaming then stop_stream ;; ret tt else ret tt) ;;
     act (log EvFreePackages) ;;
     modify (set_initialized false) ;;
     p ← gets serial;
     match p with
     | Some _ => delete_serial
     | None => ret tt
     end
   else ret tt) ;;
  ret STATUS_OK.

(** The session after the constructor. *)
Definition GaleaSerial_new (serial_port : string) (timeout : Z) : Session :=
  {| params_serial_port := serial_port; params_timeout := timeout;
     serial := None; is_streaming := false; keep_alive := false;
     initialized := false; state := SYNC_TIMEOUT_ERROR;
     half_rtt := f64_of_int 0; sink := [] |}.

(** *** [read_thread] *)

(** The locals of [read_thread] that live across iterations. *)
Record ThreadLocals := {
  b : list byte;
  time_buffer : DataBuffer;
  package : list f64
}.

(** How an iteration of [while (keep_alive)] ends. *)
Inductive LoopExit := Continue | Break.

(** A read of [data] into [b + pos]. *)
Definition store (buf : list byte) (pos : nat) (data : list byte) : list byte :=
  take pos buf ++ data ++ drop (pos + length data) buf.

(** Lines 310-315: the loop that accumulates the body of the frame; it
    returns the buffer and [remaining_bytes]. Every turn reads [keep_alive],
    so [fuel] above [alive_reads] is never used up. *)
Fixpoint read_remaining (fuel : nat) (buf : list byte) (remaining_bytes pos : nat)
    : M (list byte * nat) :=
  match fuel with
  | O => out_of_fuel
  | S fuel' =>
      if negb (0 <? remaining_bytes) then ret (buf, remaining_bytes)
      else
        alive ← read_keep_alive;
        if negb alive then ret (buf, remaining_bytes)
        else
          data ← read_from_serial_port remaining_bytes;
          let res := length data in
          read_remaining fuel' (store buf pos data) (remaining_bytes - res) (pos + res)
  end.

(** Lines 346-430 on a validated frame: the offset observation and the
    decoder. *)
Definition process_frame (l : ThreadLocals) (pc_timestamp : f64) : M ThreadLocals :=
  let offset_last_base_package := bytes_in_single_entry H * (num_base_packages H - 1) in
  let timestamp_last_package := timestamp_device_at (b l) (64 + offset_last_base_package) in
  let o := observe pc_timestamp timestamp_last_package (time_buffer l) in
  half ← gets half_rtt;
  rows ← gets sink;
  let d := decode_frame H board_descr (b l) pc_timestamp o.2 half (package l, rows) in
  modify (set_sink d.2) ;;
  ret {| b := b l; time_buffer := o.1; package := d.1 |}.

(** Lines 295-430: the body of [while (keep_alive)]. *)
Definition read_iteration (l : ThreadLocals) : M (ThreadLocals * LoopExit) :=
  first ← read_from_serial_port 1;
  let l := {| b := store (b l) 0 first; time_buffer := time_buffer l; package := package l |} in
  if negb (length first =? 1) then ret (l, Continue)
  else
    pc_timestamp ← get_timestamp;
    if negb (Byte.eqb (peek (b l) 0) (start_byte H)) then ret (l, Continue)
    else
      budget ← asks alive_reads;
      r ← read_remaining (S budget) (b l) (transaction_size H) 0;
      let l := {| b := r.1; time_buffer := time_buffer l; package := package l |} in
      alive ← read_keep_alive;
      if negb alive then ret (l, Break)
      else
        last ← read_from_serial_port 1;
        let last_byte := default "000"%byte (last !! 0) in
        if negb (length last =? 1) then ret (l, Continue)
        else if negb (Byte.eqb last_byte (stop_byte H)) then ret (l, Continue)
        else
          st ← gets state;
          (if negb (bool_decide (st = STATUS_OK))
           then modify (set_state STATUS_OK) ;; act (log EvNotify)
           else ret tt) ;;
          l ← process_frame l pc_timestamp;
          ret (l, Continue).

(** [while (keep_alive)]. Every iteration reads [keep_alive], so [fuel]
    above [alive_reads] is never used up. *)
Fixpoint read_loop (fuel : nat) (l : ThreadLocals) : M ThreadLocals :=
  match fuel with
  | O => out_of_fuel
  | S fuel' =>
      alive ← read_keep_alive;
      if negb alive then ret l
      else
        r ← read_iteration l;
        match r.2 with
        | Break => ret r.1
        | Continue => read_loop fuel' r.1
        end
  end.

(** The locals before the loop, lines 276-291. *)
Definition read_thread_locals : ThreadLocals :=
  {| b := replicate (transaction_size H) "000"%byte;
     time_buffer := DataBuffer_new 1 11;
     package := replicate (num_rows board_descr) (f64_of_int 0) |}.

Definition read_thread (fuel : nat) : M ThreadLocals :=
  read_loop fuel read_thread_locals.

End Driver.

Arguments Ok {FA A} a m.
Arguments Undefined {FA A}.
Arguments OutOfFuel {FA A}.

(** ** Views used by the proofs *)

(** The intermediate accumulators of a left fold. *)
Fixpoint scan {A B} (f : A -> B -> A) (a : A) (l : list B) : list A :=
  match l with
  | [] => []
  | x :: l' => f a x :: scan f (f a x) l'
  end.

(** [x++] applied [n] times to a [double]. *)
Definition incremented `{FloatArith} (n : nat) (x : f64) : f64 :=
  Nat.iter n (fun v => f64_add v (f64_of_int 1)) x.

(** The row indices that the sample loops assign: [package[i - 3]] for
    [i] from 4 to 19. *)
Definition sample_channels : list nat := seq 1 16.

(** The row indices of the auxiliary sensors. *)
Definition aux_channels (bd : BoardDescr) : list nat :=
  [fst (ppg_channels bd); snd (ppg_channels bd); eda_channels bd;
   temperature_channels bd; battery_channel bd].

(** The row indices of the time stamps. *)
Definition stamp_channels (bd : BoardDescr) : list nat :=
  [timestamp_channel bd; fst (other_channels bd); snd (other_channels bd)].

(** The row indices that the decoder assigns. *)
Definition role_channels (bd : BoardDescr) : list nat :=
  package_num_channel bd :: stamp_channels bd ++ aux_channels bd ++ sample_channels.


(** A channel map is consistent when the roles have pairwise distinct row
    indices, all inside the row. *)
Definition channel_map_ok (bd : BoardDescr) : Prop :=
  let all := package_num_channel bd :: stamp_channels bd ++ aux_channels bd ++ sample_channels in
  NoDup all /\ Forall (fun c => c < num_rows bd) all.

#[export] Instance channel_map_ok_dec bd : Decision (channel_map_ok bd).
Proof. unfold channel_map_ok. apply _. Defined.

(** What the time stamps need of a channel map: their three row indices and
    the one of the counter are pairwise distinct, and the three lie inside
    the row. *)
Definition stamp_map_ok (bd : BoardDescr) : Prop :=
  NoDup (package_num_channel bd :: stamp_channels bd) /\
  Forall (fun c => c < num_rows bd) (stamp_channels bd).

#[export] Instance stamp_map_ok_dec bd : Decision (stamp_map_ok bd).
Proof. unfold stamp_map_ok. apply _. Defined.

Section Views.
Context `{FA : FloatArith} (H : GaleaSerialH) (board_descr : BoardDescr).

(** The package array after the exg packages of one base package. *)
Definition base_final (buf : list byte) (pc_timestamp time_delta half : f64)
    (j : nat) (p : list f64) : list f64 :=
  foldl (fun p k => parse_exg_package H board_descr buf pc_timestamp time_delta half
                      (j * bytes_in_single_entry H) k p)
        (parse_base_package H board_descr buf pc_timestamp time_delta half j p)
        (seq 0 (num_exg_packages_per_base H)).

(** The rows pushed for one base package. *)
Definition base_rows (buf : list byte) (pc_timestamp time_delta half : f64)
    (j : nat) (p : list f64) : list (list f64) :=
  let p' := parse_base_package H board_descr buf pc_timestamp time_delta half j p in
  p' :: scan (fun p k => parse_exg_package H board_descr buf pc_timestamp time_delta half
                           (j * bytes_in_single_entry H) k p)
             p' (seq 0 (num_exg_packages_per_base H)).

(** The rows pushed for the base packages [js]. *)
Fixpoint frame_rows (buf : list byte) (pc_timestamp time_delta half : f64)
    (p : list f64) (js : list nat) : list (list f64) :=
  match js with
  | [] => []
  | j :: js' =>
      base_rows buf pc_timestamp time_delta half j p ++
      frame_rows buf pc_timestamp time_delta half
                 (base_final buf pc_timestamp time_delta half j p) js'
  end.

(** The value assigned to [package[t + 1]] by the sample loop of a base
    package at [offset], and of an exg package at [exg_offset]. *)
Definition base_sample (buf : list byte) (offset t : nat) : f64 :=
  f64_mul (scale_value H (base_scale t)) (f64_of_int (cast24_at buf (offset + 5 + 3 * t))).

Definition exg_sample (buf : list byte) (exg_offset t : nat) : f64 :=
  f64_mul (scale_value H (exg_scale t)) (f64_of_int (cast24_at buf (exg_offset + 3 * t))).

(** The package array after the first [k] exg packages. *)
Definition after_exg (buf : list byte) (pc_timestamp time_delta half : f64)
    (offset k : nat) (p : list f64) : list f64 :=
  foldl (fun p k => parse_exg_package H board_descr buf pc_timestamp time_delta half offset k p)
        p (seq 0 k).


(** The smoothed offset that [process_frame] hands to the decoder. *)
Definition smoothed_offset (l : ThreadLocals) (pc_timestamp : f64) : f64 :=
  (observe pc_timestamp
     (timestamp_device_at (b l)
        (64 + bytes_in_single_entry H * (num_base_packages H - 1)))
     (time_buffer l)).2.

End Views.

Section WorldViews.
Context `{FA : FloatArith}.

(** The result of the next [send_to_serial_port] of [len] bytes. *)
Definition next_send_result (w : World) (len : nat) : Z :=
  default (Z.of_nat len) (head (send_results w)).

(** The bytes stored by the next [read_from_serial_port] of [size] bytes. *)
Definition next_read (w : World) (size : nat) : list byte :=
  (take_chunk size (incoming w)).1.

(** The [n]-th next value of [get_timestamp]. *)
Definition clock_at (w : World) (n : nat) : f64 :=
  default (f64_of_int 0) (clock w !! n).

(** How many bytes single-byte reads deliver before one of them times out. *)
Fixpoint steady_bytes (chunks : list (list byte)) : nat :=
  match chunks with
  | [] => 0
  | c :: rest => if length c =? 0 then 0 else length c + steady_bytes rest
  end.

(** The read timeout of the port: the argument of the latest
    [set_serial_port_settings] in a trace. *)
Fixpoint configured_timeout_ms (tr : list Event) : option Z :=
  match tr with
  | [] => None
  | EvSettings ms :: _ => Some ms
  | _ :: tr' => configured_timeout_ms tr'
  end.

(** The reads of a stretch of the trace, the earliest first: the size asked
    for and the bytes stored. *)
Fixpoint reads_of (tr : list Event) : list (nat * list byte) :=
  match tr with
  | [] => []
  | EvRead size got :: tr' => reads_of tr' ++ [(size, got)]
  | _ :: tr' => reads_of tr'
  end.

(** A read of one byte. *)
Definition single_byte_read (e : Event) : Prop := exists got, e = EvRead 1 got.

(** The machine a call leaves behind, and the value it returns. *)
Definition machine_of {A} (r : result A) : option Machine :=
  match r with
  | Ok _ m => Some m
  | _ => None
  end.


(** The result of the [n]-th next [send_to_serial_port], of [len] bytes. *)
Definition nth_send_result (w : World) (n len : nat) : Z :=
  default (Z.of_nat len) (send_results w !! n).

(** The world after [get_timestamp], after a [send_to_serial_port] of [data]
    and after a [read_from_serial_port] of [size] bytes. *)
Definition after_clock (w : World) : World := set_clock (tail (clock w)) w.

Definition after_send (data : string) (w : World) : World :=
  set_send_results (tail (send_results w)) (log (EvSend data) w).

Definition after_read (size : nat) (w : World) : World :=
  log (EvRead size (next_read w size)) (set_incoming (take_chunk size (incoming w)).2 w).

(** The bytes that the port still has to deliver, whatever the reads they
    arrive in; and a port none of whose reads times out while bytes are
    left. *)
Definition pending (w : World) : list byte := concat (incoming w).

Definition no_timeouts (w : World) : Prop := Forall (fun c => c <> []) (incoming w).

(** The events of reads. *)
Definition is_read (e : Event) : Prop := exists size got, e = EvRead size got.

(** The bytes of the frames with the bodies [bodies], one after the other. *)
Definition frames_bytes `{FloatArith} (H : GaleaSerialH) (bodies : list (list byte))
    : list byte :=
  concat (map (fun body => start_byte H :: body ++ [stop_byte H]) bodies).

(** The command of the clock probe. *)
Definition probe_command : string := "F444" +:+ LF.

(** A clock probe that is written and answered in full, and the world it
    leaves behind. *)
Definition probe_ok (w : World) : Prop :=
  next_send_result w 5 = 5%Z /\ length (next_read w 4) = 4.

Definition after_probe (w : World) : World :=
  after_clock (after_read 4 (after_send probe_command (after_clock w))).

(** The value of [half_rtt] and the reply after such a probe. *)
Definition probe_half_rtt (w : World) : f64 :=
  f64_div (f64_sub (clock_at w 1) (clock_at w 0)) (f64_of_int 2).

Definition probe_result (w : World) : CalcTimeResult :=
  {| rtt := f64_sub (clock_at w 1) (clock_at w 0);
     result_timestamp_device := f32_div (float_at (next_read w 4) 0) (f32_of_int 1000);
     result_pc_timestamp := f64_add (clock_at w 0) (probe_half_rtt w) |}.

(** The command that stops the device, the one that starts it and the two
    that [prepare_session] sends. *)
Definition stop_command : string := "s" +:+ LF.
Definition start_command : string := "b" +:+ LF.
Definition default_settings_command : string := "o" +:+ LF.
Definition sampl_rate_command : string := "~6" +:+ LF.

(** The session that [stop_stream] leaves behind. *)
Definition stopped (s : Session) : Session :=
  set_state SYNC_TIMEOUT_ERROR (set_is_streaming false (set_keep_alive false s)).

(** Lines 58-64 of [prepare_session]: the timeout put right and the [Serial]
    object created. *)
Definition effective_timeout (s : Session) : Z :=
  if (params_timeout s >? 600)%Z || (params_timeout s <? 1)%Z then 3%Z else params_timeout s.

Definition created (s : Session) : Session :=
  set_serial (Some {| port_name := params_serial_port s |})
    (set_params_timeout (effective_timeout s) s).

(** The events of [prepare_session] up to [set_custom_baudrate], the latest
    first. *)
Definition port_setup (s : Session) : list Event :=
  [EvBaud 921600; EvSettings (effective_timeout s * 1000); EvOpen;
   EvCreate (params_serial_port s)].

(** What [prepare_session] leaves of a session [s] in [s'], whatever the
    outcome: every field but [serial] and [initialized], the timeout put
    right. *)
Definition prepare_keeps (s s' : Session) : Prop :=
  params_serial_port s' = params_serial_port s /\
  params_timeout s' = effective_timeout s /\
  is_streaming s' = is_streaming s /\
  keep_alive s' = keep_alive s /\
  state s' = state s /\
  half_rtt s' = half_rtt s /\
  sink s' = sink s.

(** Every field of a session but [half_rtt]. *)
Definition same_but_half_rtt (s s' : Session) : Prop :=
  params_serial_port s' = params_serial_port s /\
  params_timeout s' = params_timeout s /\
  serial s' = serial s /\
  is_streaming s' = is_streaming s /\
  keep_alive s' = keep_alive s /\
  initialized s' = initialized s /\
  state s' = state s /\
  sink s' = sink s.





End WorldViews.

(** The spec's words for the timeout: a value clamped to [1,600]. *)
Definition clamp_timeout (t : Z) : Z := Z.max 1 (Z.min 600 t).

(** ** A concrete board *)

(** A header with two base packages of 68 bytes, each followed by one exg
    package of 52 bytes, and unit scales told apart by their value. *)
Definition demo_header : @GaleaSerialH QArith_exact :=
  {| base_package_size := 68; exg_package_size := 52; num_base_packages := 2;
     bytes_in_single_entry := 120; num_exg_packages_per_base := 1;
     transaction_size := 240; start_byte := "160"%byte; stop_byte := "192"%byte;
     emg_scale := 4%Q; eeg_scale_main_board := 2%Q; eeg_scale_sister_board := 12%Q |}.

Definition demo_board : BoardDescr :=
  {| num_rows := 26; package_num_channel := 0; ppg_channels := (17, 18);
     eda_channels := 19; temperature_channels := 20; battery_channel := 21;
     timestamp_channel := 22; other_channels := (23, 24) |}.

(** A frame body whose bytes count up from 0. *)
Definition demo_body : list byte :=
  omap (fun n => Byte.of_nat (n `mod` 256)) (seq 0 240).

(** A port that accepts every command, on which [chunks] arrive. *)
Definition demo_world (chunks : list (list byte)) (clk : list Q) (alive : nat)
    : @World QArith_exact :=
  {| open_res := 0; settings_res := 0; baud_res := 0; send_results := [];
     incoming := chunks; clock := clk; acquisition_res := STATUS_OK;
     first_frame_in_time := true; alive_reads := alive; trace := [] |}.

(** The session after a successful [prepare_session], and while streaming. *)
Definition prepared_session : @Session QArith_exact :=
  {| params_serial_port := "/dev/ttyUSB0"; params_timeout := 3;
     serial := Some {| port_name := "/dev/ttyUSB0" |};
     is_streaming := false; keep_alive := false; initialized := true;
     state := SYNC_TIMEOUT_ERROR; half_rtt := (1 # 100)%Q; sink := [] |}.

Definition streaming_session : @Session QArith_exact :=
  {| params_serial_port := "/dev/ttyUSB0"; params_timeout := 3;
     serial := Some {| port_name := "/dev/ttyUSB0" |};
     is_streaming := true; keep_alive := true; initialized := true;
     state := STATUS_OK; half_rtt := (1 # 100)%Q; sink := [] |}.

(** The locals of the acquisition thread with [demo_body] in the buffer. *)
Definition demo_locals : @ThreadLocals QArith_exact :=
  {| b := demo_body; time_buffer := DataBuffer_new 1 11;
     package := replicate 26 0%Q |}.

(** The read timeout that [prepare_session] configures on a fresh session
    whose [params.timeout] is [timeout]. *)
Definition prepare_timeout_ms (timeout : Z) : option Z :=
  m ← machine_of (prepare_session (GaleaSerial_new "/dev/ttyUSB0" timeout, demo_world [] [] 0));
  configured_timeout_ms (trace m.2).



(** A port that cannot be opened. *)
Definition closed_port_world : @World QArith_exact :=
  {| open_res := -1; settings_res := 0; baud_res := 0; send_results := [];
     incoming := []; clock := []; acquisition_res := STATUS_OK;
     first_frame_in_time := true; alive_reads := 0; trace := [] |}.

(** A port that answers the clock probe with the four bytes of 1000.0f, the
    clock showing 10 before the probe and 10.5 after it. *)
Definition probe_world : @World QArith_exact :=
  demo_world [["000"; "000"; "122"; "068"]%byte] [10%Q; (21 # 2)%Q] 0.

(** Two stray bytes, then one frame around [demo_body]: the start sentinel
    and the first 100 bytes of the body arrive together, the rest of the
    body arrives with the stop sentinel. *)
Definition resync_world : @World QArith_exact :=
  demo_world [ ["007"; "009"]%byte;
               "160"%byte :: take 100 demo_body;
               drop 100 demo_body ++ ["192"%byte] ]
             [100%Q; 101%Q; 102%Q] 8.

(** A frame around [demo_body] whose last byte is not the stop sentinel. *)
Definition bad_stop_world : @World QArith_exact :=
  demo_world [ ["160"%byte]; demo_body; ["193"%byte] ] [100%Q] 8.

(** A port that answers three clock probes in full, then stays silent; the
    clock advances by a quarter of a second at every reading. *)
Definition start_world (seen : bool) : @World QArith_exact :=
  {| open_res := 0; settings_res := 0; baud_res := 0; send_results := [];
     incoming := replicate 3 ["000"; "000"; "122"; "068"]%byte;
     clock := [(40 # 4); (41 # 4); (42 # 4); (43 # 4); (44 # 4); (46 # 4)]%Q;
     acquisition_res := STATUS_OK; first_frame_in_time := seen;
     alive_reads := 0; trace := [] |}.

(** A port that writes one byte less than asked. *)
Definition short_write_world : @World QArith_exact :=
  {| open_res := 0; settings_res := 0; baud_res := 0; send_results := [1; 1; 1]%Z;
     incoming := []; clock := []; acquisition_res := STATUS_OK;
     first_frame_in_time := true; alive_reads := 0; trace := [] |}.

(** One frame around [demo_body] that arrives in two reads, after the
    reads [junk]. *)
Definition frame_world (junk : list (list byte)) (alive : nat) : @World QArith_exact :=
  demo_world (junk ++ [ "160"%byte :: take 100 demo_body;
                        drop 100 demo_body ++ ["192"%byte] ])
             [100%Q; 101%Q; 102%Q] alive.

(** The body of a frame in two short reads with a timeout between them. *)
Definition slow_body_world : @World QArith_exact :=
  demo_world [ take 100 demo_body; []; drop 100 demo_body; ["192"%byte] ] [] 8.

(** A port that answers three clock probes in full and then writes one
    byte less than asked. *)
Definition late_failure_world : @World QArith_exact :=
  {| open_res := 0; settings_res := 0; baud_res := 0; send_results := [5; 5; 5; 1]%Z;
     incoming := replicate 3 ["000"; "000"; "122"; "068"]%byte;
     clock := [(40 # 4); (41 # 4); (42 # 4); (43 # 4); (44 # 4); (46 # 4)]%Q;
     acquisition_res := STATUS_OK; first_frame_in_time := true;
     alive_reads := 0; trace := [] |}.

(** * Properties *)

(** ** Channel maps and folds *)

Lemma in_samples c : c ∈ sample_channels <-> 1 <= c <= 16.
Proof. unfold sample_channels. rewrite elem_of_seq. lia. Qed.

Lemma stamp_map_facts bd : stamp_map_ok bd ->
  let pn := package_num_channel bd in
  let ts := timestamp_channel bd in
  let o0 := fst (other_channels bd) in
  let o1 := snd (other_channels bd) in
  (pn <> ts /\ pn <> o0 /\ pn <> o1 /\ ts <> o0 /\ ts <> o1 /\ o0 <> o1) /\
  (ts < num_rows bd /\ o0 < num_rows bd /\ o1 < num_rows bd).
Proof.
  intros [Hnd Hall]. cbn zeta. unfold stamp_channels in *.
  apply NoDup_cons in Hnd as [Hpn Hnd].
  apply NoDup_cons in Hnd as [Hts Hnd].
  apply NoDup_cons in Hnd as [Ho0 _].
  repeat rewrite not_elem_of_cons in Hpn.
  repeat rewrite not_elem_of_cons in Hts.
  repeat rewrite not_elem_of_cons in Ho0.
  apply Forall_cons in Hall as [? Hall].
  apply Forall_cons in Hall as [? Hall].
  apply Forall_cons in Hall as [? _].
  intuition congruence.
Qed.

Lemma channel_map_facts bd : channel_map_ok bd ->
  let pn := package_num_channel bd in
  let ts := timestamp_channel bd in
  let o0 := fst (other_channels bd) in
  let o1 := snd (other_channels bd) in
  (pn <> ts /\ pn <> o0 /\ pn <> o1 /\ ts <> o0 /\ ts <> o1 /\ o0 <> o1) /\
  (pn < num_rows bd /\ ts < num_rows bd /\ o0 < num_rows bd /\ o1 < num_rows bd) /\
  (forall c, c ∈ aux_channels bd -> c <> pn /\ c <> ts /\ c <> o0 /\ c <> o1 /\ c < num_rows bd) /\
  (forall c t, c ∈ pn :: stamp_channels bd ++ aux_channels bd -> t < 16 -> c <> t + 1) /\
  (forall t, t < 16 -> t + 1 < num_rows bd).
Proof.
  intros [Hnd Hall]. cbn zeta.
  apply NoDup_cons in Hnd as [Hpn Hnd].
  apply NoDup_app in Hnd as (Hst & Hst' & Hnd).
  apply NoDup_app in Hnd as (Hax & Hax' & _).
  apply Forall_cons in Hall as [Hpn_lt Hall].
  apply Forall_app in Hall as [Hst_lt Hall].
  apply Forall_app in Hall as [Hax_lt Hsm_lt].
  rewrite Forall_forall in Hst_lt, Hax_lt, Hsm_lt.
  rewrite !not_elem_of_app in Hpn.
  destruct Hpn as (Hpn1 & Hpn2 & Hpn3).
  unfold stamp_channels in *.
  apply NoDup_cons in Hst as [Hts Hst].
  apply NoDup_cons in Hst as [Ho0 _].
  repeat rewrite not_elem_of_cons in Hpn1.
  repeat rewrite not_elem_of_cons in Hts.
  repeat rewrite not_elem_of_cons in Ho0.
  set (stamps := [timestamp_channel bd; (other_channels bd).1; (other_channels bd).2]) in *.
  assert (Hin0 : timestamp_channel bd ∈ stamps) by (unfold stamps; rewrite !elem_of_cons; auto).
  assert (Hin1 : (other_channels bd).1 ∈ stamps) by (unfold stamps; rewrite !elem_of_cons; auto).
  assert (Hin2 : (other_channels bd).2 ∈ stamps) by (unfold stamps; rewrite !elem_of_cons; auto).
  split; [|split; [|split; [|split]]].
  - intuition congruence.
  - auto.
  - intros c Hc. repeat split; auto.
    + intros ->. auto.
    + intros ->. apply (Hst' _ Hin0). rewrite elem_of_app; auto.
    + intros ->. apply (Hst' _ Hin1). rewrite elem_of_app; auto.
    + intros ->. apply (Hst' _ Hin2). rewrite elem_of_app; auto.
  - intros c t Hc Ht ->.
    assert (Hs : t + 1 ∈ sample_channels) by (apply in_samples; lia).
    rewrite elem_of_cons, elem_of_app in Hc. destruct Hc as [Hc|[Hc|Hc]].
    + rewrite Hc in Hs. auto.
    + apply (Hst' _ Hc). rewrite elem_of_app; auto.
    + apply (Hax' _ Hc Hs).
  - intros t Ht. apply Hsm_lt, in_samples. lia.
Qed.

(** Generic facts on folds *)

Lemma scan_length {A B} (f : A -> B -> A) a l : length (scan f a l) = length l.
Proof. revert a. induction l as [|x l IH]; intros a; simpl; [done|]. by rewrite IH. Qed.

Lemma scan_lookup {A B} (f : A -> B -> A) a l i :
  i < length l -> scan f a l !! i = Some (foldl f a (take (S i) l)).
Proof.
  revert a i. induction l as [|x l IH]; intros a i Hi; simpl in *; [lia|].
  destruct i as [|i]; simpl.
  - done.
  - apply IH. lia.
Qed.

Lemma foldl_scan {A B} (f : A -> B -> A) a (s : list A) l :
  foldl (fun st x => (f st.1 x, st.2 ++ [f st.1 x])) (a, s) l = (foldl f a l, s ++ scan f a l).
Proof.
  revert a s. induction l as [|x l IH]; intros a s; simpl.
  - by rewrite app_nil_r.
  - rewrite IH. by rewrite <- app_assoc.
Qed.

Lemma take_seq_S j n k : k < n -> take (S k) (seq j n) = seq j k ++ [j + k].
Proof.
  intros Hk. rewrite take_seq, Nat.min_l by lia. by rewrite seq_S.
Qed.

Lemma foldl_insert_length {A} (g : nat -> nat) (v : nat -> A) (p : list A) ts :
  length (foldl (fun p t => <[g t := v t]> p) p ts) = length p.
Proof.
  revert p. induction ts as [|t ts IH]; intros p; simpl; [done|].
  by rewrite IH, length_insert.
Qed.

Lemma foldl_insert_other {A} (g : nat -> nat) (v : nat -> A) (p : list A) ts c :
  (forall t, t ∈ ts -> g t <> c) ->
  foldl (fun p t => <[g t := v t]> p) p ts !! c = p !! c.
Proof.
  revert p. induction ts as [|t ts IH]; intros p Hc; simpl; [done|].
  rewrite IH by (intros t' Ht'; apply Hc; by right).
  apply list_lookup_insert_ne, Hc. by left.
Qed.

Lemma foldl_insert_at {A} (g : nat -> nat) (v : nat -> A) (p : list A) ts t :
  NoDup ts -> (forall t', t' ∈ ts -> g t' = g t -> t' = t) ->
  t ∈ ts -> g t < length p ->
  foldl (fun p t => <[g t := v t]> p) p ts !! g t = Some (v t).
Proof.
  revert p. induction ts as [|t0 ts IH]; intros p Hnd Hinj Hin Hlt; simpl.
  - by apply elem_of_nil in Hin.
  - apply NoDup_cons in Hnd as [Hnot Hnd].
    apply elem_of_cons in Hin as [->|Hin].
    + rewrite foldl_insert_other.
      * by apply list_lookup_insert_eq.
      * intros t' Ht' Heq. apply Hnot.
        rewrite <- (Hinj t'); [done|by right|done].
    + apply IH; [done| |done|by rewrite length_insert].
      intros t' Ht'. apply Hinj. by right.
Qed.

Section DecoderFacts.
Context `{FA : FloatArith} (H : GaleaSerialH) (bd : BoardDescr).
Context (buf : list byte) (pc_timestamp time_delta half : f64).

#[local] Abbreviation parse_base := (parse_base_package H bd buf pc_timestamp time_delta half).
#[local] Abbreviation parse_exg := (parse_exg_package H bd buf pc_timestamp time_delta half).
#[local] Abbreviation after_x := (after_exg H bd buf pc_timestamp time_delta half).

Lemma exg_fold_eq offset p s l :
  foldl (exg_step H bd buf pc_timestamp time_delta half offset) (p, s) l =
  (foldl (fun p k => parse_exg offset k p) p l,
   s ++ scan (fun p k => parse_exg offset k p) p l).
Proof.
  unfold exg_step, push_package.
  apply (foldl_scan (fun p k => parse_exg offset k p)).
Qed.

Lemma base_step_eq st j :
  base_step H bd buf pc_timestamp time_delta half st j =
  (base_final H bd buf pc_timestamp time_delta half j st.1,
   st.2 ++ base_rows H bd buf pc_timestamp time_delta half j st.1).
Proof.
  unfold base_step, base_final, base_rows.
  rewrite exg_fold_eq. unfold push_package. by rewrite <- app_assoc.
Qed.

Lemma decode_fold_eq p s js :
  foldl (base_step H bd buf pc_timestamp time_delta half) (p, s) js =
  (foldl (fun p j => base_final H bd buf pc_timestamp time_delta half j p) p js,
   s ++ frame_rows H bd buf pc_timestamp time_delta half p js).
Proof.
  revert p s. induction js as [|j js IH]; intros p s; simpl.
  - by rewrite app_nil_r.
  - rewrite base_step_eq. simpl. rewrite IH. by rewrite <- app_assoc.
Qed.

(** Lookups in a stamped row *)

Hypothesis Hst : stamp_map_ok bd.
Hypothesis Hok : channel_map_ok bd.

Lemma stamp_length t p : length (stamp bd t pc_timestamp time_delta half p) = length p.
Proof. unfold stamp. by rewrite !length_insert. Qed.

Lemma stamp_lookup t p :
  length p = num_rows bd ->
  let r := stamp bd t pc_timestamp time_delta half p in
  r !! timestamp_channel bd = Some (f64_sub (f64_add (f64_of_f32 t) time_delta) half) /\
  r !! (other_channels bd).1 = Some pc_timestamp /\
  r !! (other_channels bd).2 = Some (f64_of_f32 t).
Proof.
  intros Hlen. destruct (stamp_map_facts bd Hst) as (Hne & Hlt).
  cbn zeta in *. unfold stamp.
  repeat split.
  - rewrite !list_lookup_insert_ne by intuition congruence.
    apply list_lookup_insert_eq. lia.
  - rewrite list_lookup_insert_ne by intuition congruence.
    apply list_lookup_insert_eq. rewrite length_insert. lia.
  - apply list_lookup_insert_eq. rewrite !length_insert. lia.
Qed.

Lemma stamp_lookup_other t p c :
  c ∉ stamp_channels bd -> stamp bd t pc_timestamp time_delta half p !! c = p !! c.
Proof.
  unfold stamp_channels. repeat rewrite not_elem_of_cons. intros (? & ? & ? & _).
  unfold stamp. by rewrite !list_lookup_insert_ne by congruence.
Qed.

Lemma increment_length i p : length (increment i p) = length p.
Proof. unfold increment. destruct (p !! i); [apply length_insert|done]. Qed.

Lemma increment_lookup_eq i p v :
  p !! i = Some v -> increment i p !! i = Some (f64_add v (f64_of_int 1)).
Proof.
  intros Hv. unfold increment. rewrite Hv.
  apply list_lookup_insert_eq. by apply lookup_lt_Some in Hv.
Qed.

Lemma increment_lookup_ne i p c : c <> i -> increment i p !! c = p !! c.
Proof.
  intros Hc. unfold increment. destruct (p !! i); [|done].
  by apply list_lookup_insert_ne.
Qed.

(** The sample loops *)

Lemma base_sample_step_eq offset p t :
  base_sample_step H buf offset p t = <[t + 1 := base_sample H buf offset t]> p.
Proof.
  unfold base_sample_step, base_sample. cbn zeta.
  replace (t + 4 - 3) with (t + 1) by lia.
  replace (t + 4 - 4) with t by lia.
  by destruct (t <? 6).
Qed.

Lemma exg_sample_step_eq exg_offset p t :
  exg_sample_step H buf exg_offset p t = <[t + 1 := exg_sample H buf exg_offset t]> p.
Proof.
  unfold exg_sample_step, exg_sample. cbn zeta.
  by replace (t + 4 - 3) with (t + 1) by lia.
Qed.

Lemma base_samples_fold offset p ts :
  foldl (base_sample_step H buf offset) p ts =
  foldl (fun p t => <[t + 1 := base_sample H buf offset t]> p) p ts.
Proof.
  revert p. induction ts as [|t ts IH]; intros p; simpl; [done|].
  by rewrite base_sample_step_eq, IH.
Qed.

Lemma exg_samples_fold exg_offset p ts :
  foldl (exg_sample_step H buf exg_offset) p ts =
  foldl (fun p t => <[t + 1 := exg_sample H buf exg_offset t]> p) p ts.
Proof.
  revert p. induction ts as [|t ts IH]; intros p; simpl; [done|].
  by rewrite exg_sample_step_eq, IH.
Qed.

Lemma samples_other (v : nat -> f64) (p : list f64) c :
  c ∈ package_num_channel bd :: stamp_channels bd ++ aux_channels bd ->
  foldl (fun p t => <[t + 1 := v t]> p) p (seq 0 16) !! c = p !! c.
Proof.
  intros Hc. destruct (channel_map_facts bd Hok) as (_ & _ & _ & Hs & _).
  apply (foldl_insert_other (fun t => t + 1)).
  intros t Ht%elem_of_seq Heq. apply (Hs c t Hc); lia.
Qed.

Lemma samples_at (v : nat -> f64) (p : list f64) t :
  length p = num_rows bd -> t < 16 ->
  foldl (fun p t => <[t + 1 := v t]> p) p (seq 0 16) !! (t + 1) = Some (v t).
Proof.
  intros Hlen Ht. destruct (channel_map_facts bd Hok) as (_ & _ & _ & _ & Hs).
  apply (foldl_insert_at (fun t => t + 1)).
  - apply NoDup_seq.
  - intros; lia.
  - apply elem_of_seq. lia.
  - rewrite Hlen. by apply Hs.
Qed.

Lemma samples_length (v : nat -> f64) (p : list f64) ts :
  length (foldl (fun p t => <[t + 1 := v t]> p) p ts) = length p.
Proof. apply (foldl_insert_length (fun t => t + 1)). Qed.

(** Membership of the roles in the lists of [channel_map_ok] *)

Lemma in_roles_pn :
  package_num_channel bd ∈ package_num_channel bd :: stamp_channels bd ++ aux_channels bd.
Proof. by left. Qed.

Lemma in_roles_stamp c :
  c ∈ stamp_channels bd -> c ∈ package_num_channel bd :: stamp_channels bd ++ aux_channels bd.
Proof. intros. right. apply elem_of_app. by left. Qed.

Lemma in_roles_aux c :
  c ∈ aux_channels bd -> c ∈ package_num_channel bd :: stamp_channels bd ++ aux_channels bd.
Proof. intros. right. apply elem_of_app. by right. Qed.

Lemma aux_not_stamp c : c ∈ aux_channels bd -> c ∉ stamp_channels bd.
Proof.
  intros Hc. destruct (channel_map_facts bd Hok) as (_ & _ & Ha & _).
  destruct (Ha c Hc) as (? & ? & ? & ? & _).
  unfold stamp_channels. repeat rewrite not_elem_of_cons.
  repeat split; try done. apply not_elem_of_nil.
Qed.

Lemma pn_not_stamp : package_num_channel bd ∉ stamp_channels bd.
Proof.
  destruct (channel_map_facts bd Hok) as ((? & ? & ? & _) & _).
  unfold stamp_channels. repeat rewrite not_elem_of_cons.
  repeat split; try done. apply not_elem_of_nil.
Qed.

Lemma sample_not_stamp t : t < 16 -> t + 1 ∉ stamp_channels bd.
Proof.
  intros Ht Hin. destruct (channel_map_facts bd Hok) as (_ & _ & _ & Hs & _).
  by apply (Hs (t + 1) t (in_roles_stamp _ Hin) Ht).
Qed.

(** The row of a base package *)

Lemma parse_base_package_length j p :
  length (parse_base j p) = length p.
Proof.
  unfold parse_base_package. rewrite stamp_length, !length_insert.
  rewrite base_samples_fold, samples_length. apply length_insert.
Qed.

Lemma parse_base_package_stamp j p :
  length p = num_rows bd ->
  let t := timestamp_device_at buf (64 + j * bytes_in_single_entry H) in
  let r := parse_base j p in
  r !! timestamp_channel bd = Some (f64_sub (f64_add (f64_of_f32 t) time_delta) half) /\
  r !! (other_channels bd).1 = Some pc_timestamp /\
  r !! (other_channels bd).2 = Some (f64_of_f32 t).
Proof.
  intros Hlen. unfold parse_base_package. apply stamp_lookup.
  rewrite !length_insert, base_samples_fold, samples_length.
  by rewrite length_insert.
Qed.

Lemma parse_base_package_counter j p :
  length p = num_rows bd ->
  parse_base j p !! package_num_channel bd =
  Some (f64_of_int (byte_val (peek buf (j * bytes_in_single_entry H)))).
Proof.
  intros Hlen. destruct (channel_map_facts bd Hok) as (_ & Hlt & Ha & _).
  unfold parse_base_package.
  rewrite stamp_lookup_other by apply pn_not_stamp.
  assert (Hin : forall c, c ∈ aux_channels bd -> c <> package_num_channel bd).
  { intros c Hc. by destruct (Ha c Hc). }
  rewrite !list_lookup_insert_ne
    by (apply Hin; unfold aux_channels; repeat rewrite elem_of_cons; auto 10).
  rewrite base_samples_fold, samples_other by apply in_roles_pn.
  apply list_lookup_insert_eq. lia.
Qed.

Lemma parse_base_package_sample j p t :
  length p = num_rows bd -> t < 16 ->
  parse_base j p !! (t + 1) = Some (base_sample H buf (j * bytes_in_single_entry H) t).
Proof.
  intros Hlen Ht. destruct (channel_map_facts bd Hok) as (_ & _ & _ & Hs & _).
  unfold parse_base_package.
  rewrite stamp_lookup_other by by apply sample_not_stamp.
  assert (Hin : forall c, c ∈ aux_channels bd -> c <> t + 1).
  { intros c Hc. apply Hs; [by apply in_roles_aux|done]. }
  rewrite !list_lookup_insert_ne
    by (apply Hin; unfold aux_channels; repeat rewrite elem_of_cons; auto 10).
  rewrite base_samples_fold. apply samples_at; [|done].
  by rewrite length_insert.
Qed.

(** The row of an exg package *)

Lemma parse_exg_package_length offset k p :
  length (parse_exg offset k p) = length p.
Proof.
  unfold parse_exg_package.
  by rewrite increment_length, stamp_length, exg_samples_fold, samples_length.
Qed.

Lemma parse_exg_package_stamp offset k p :
  length p = num_rows bd ->
  let t := timestamp_device_at buf (48 + (offset + exg_package_size H * k)) in
  let r := parse_exg offset k p in
  r !! timestamp_channel bd = Some (f64_sub (f64_add (f64_of_f32 t) time_delta) half) /\
  r !! (other_channels bd).1 = Some pc_timestamp /\
  r !! (other_channels bd).2 = Some (f64_of_f32 t).
Proof.
  intros Hlen. destruct (stamp_map_facts bd Hst) as ((? & ? & ? & _) & _).
  unfold parse_exg_package. cbn zeta.
  rewrite !increment_lookup_ne by congruence.
  apply stamp_lookup. by rewrite exg_samples_fold, samples_length.
Qed.

Lemma parse_exg_package_counter offset k p v :
  p !! package_num_channel bd = Some v ->
  parse_exg offset k p !! package_num_channel bd = Some (f64_add v (f64_of_int 1)).
Proof.
  intros Hv. unfold parse_exg_package. apply increment_lookup_eq.
  rewrite stamp_lookup_other by apply pn_not_stamp.
  by rewrite exg_samples_fold, samples_other by apply in_roles_pn.
Qed.

Lemma parse_exg_package_aux offset k p c :
  c ∈ aux_channels bd -> parse_exg offset k p !! c = p !! c.
Proof.
  intros Hc. destruct (channel_map_facts bd Hok) as (_ & _ & Ha & _).
  destruct (Ha c Hc) as (? & _).
  unfold parse_exg_package.
  rewrite increment_lookup_ne by done.
  rewrite stamp_lookup_other by by apply aux_not_stamp.
  by rewrite exg_samples_fold, samples_other by by apply in_roles_aux.
Qed.

Lemma parse_exg_package_sample offset k p t :
  length p = num_rows bd -> t < 16 ->
  parse_exg offset k p !! (t + 1) = Some (exg_sample H buf (offset + exg_package_size H * k) t).
Proof.
  intros Hlen Ht. destruct (channel_map_facts bd Hok) as (_ & _ & _ & Hs & _).
  unfold parse_exg_package.
  rewrite increment_lookup_ne by (apply not_eq_sym, Hs; [apply in_roles_pn|done]).
  rewrite stamp_lookup_other by by apply sample_not_stamp.
  rewrite exg_samples_fold. by apply samples_at.
Qed.

(** The rows of one base package *)

Lemma after_exg_S offset k p :
  after_x offset (S k) p = parse_exg offset k (after_x offset k p).
Proof. unfold after_exg. by rewrite seq_S, foldl_snoc. Qed.

Lemma after_exg_length offset k p : length (after_x offset k p) = length p.
Proof.
  induction k as [|k IH]; [done|].
  by rewrite after_exg_S, parse_exg_package_length.
Qed.

Lemma after_exg_counter offset k p v :
  p !! package_num_channel bd = Some v ->
  after_x offset k p !! package_num_channel bd = Some (incremented k v).
Proof.
  intros Hv. induction k as [|k IH]; [done|].
  rewrite after_exg_S. by apply parse_exg_package_counter.
Qed.

Lemma after_exg_aux offset k p c :
  c ∈ aux_channels bd -> after_x offset k p !! c = p !! c.
Proof.
  intros Hc. induction k as [|k IH]; [done|].
  by rewrite after_exg_S, parse_exg_package_aux.
Qed.

#[local] Abbreviation rows_of := (base_rows H bd buf pc_timestamp time_delta half).
#[local] Abbreviation final_of := (base_final H bd buf pc_timestamp time_delta half).
#[local] Abbreviation frame_of := (frame_rows H bd buf pc_timestamp time_delta half).

Lemma base_rows_length j p : length (rows_of j p) = S (num_exg_packages_per_base H).
Proof. unfold base_rows. simpl. by rewrite scan_length, length_seq. Qed.

Lemma base_rows_dense j p : rows_of j p !! 0 = Some (parse_base j p).
Proof. done. Qed.

Lemma base_rows_exg j p k :
  k < num_exg_packages_per_base H ->
  rows_of j p !! S k =
  Some (parse_exg (j * bytes_in_single_entry H) k
          (after_x (j * bytes_in_single_entry H) k (parse_base j p))).
Proof.
  intros Hk. unfold base_rows. simpl.
  rewrite scan_lookup by by rewrite length_seq.
  rewrite take_seq_S by done. simpl. by rewrite foldl_snoc.
Qed.

Lemma base_final_length j p : length (final_of j p) = length p.
Proof.
  unfold base_final.
  change (length (after_x (j * bytes_in_single_entry H)
                    (num_exg_packages_per_base H) (parse_base j p)) = length p).
  by rewrite after_exg_length, parse_base_package_length.
Qed.

Lemma base_final_fold_length p js :
  length (foldl (fun p j => final_of j p) p js) = length p.
Proof.
  revert p. induction js as [|j js IH]; intros p; simpl; [done|].
  by rewrite IH, base_final_length.
Qed.

Lemma frame_rows_length p js :
  length (frame_of p js) = length js * S (num_exg_packages_per_base H).
Proof.
  revert p. induction js as [|j js IH]; intros p; simpl; [done|].
  rewrite length_app, IH. unfold base_rows. simpl.
  by rewrite scan_length, length_seq.
Qed.

Lemma frame_rows_lookup p j0 n j i :
  j < n -> i < S (num_exg_packages_per_base H) ->
  frame_of p (seq j0 n) !! (j * S (num_exg_packages_per_base H) + i) =
  rows_of (j0 + j) (foldl (fun p j => final_of j p) p (seq j0 j)) !! i.
Proof.
  revert p j0 j. induction n as [|n IH]; intros p j0 j Hj Hi; [lia|].
  cbn [seq frame_rows]. destruct j as [|j].
  - rewrite Nat.add_0_r. cbn [Nat.mul Nat.add seq foldl].
    by rewrite lookup_app_l by by rewrite base_rows_length.
  - rewrite lookup_app_r by (rewrite base_rows_length; lia).
    rewrite base_rows_length.
    replace (S j * S (num_exg_packages_per_base H) + i - S (num_exg_packages_per_base H))
      with (j * S (num_exg_packages_per_base H) + i) by lia.
    rewrite IH by lia. cbn [seq foldl]. by rewrite Nat.add_succ_r.
Qed.

(** The rows of a frame, package by package. *)
Lemma decode_frame_rows p s :
  length p = num_rows bd ->
  exists rows,
    (decode_frame H bd buf pc_timestamp time_delta half (p, s)).2 = s ++ rows /\
    length rows = num_base_packages H * S (num_exg_packages_per_base H) /\
    forall j, j < num_base_packages H ->
      exists pj, length pj = num_rows bd /\
        rows !! (j * S (num_exg_packages_per_base H)) = Some (parse_base j pj) /\
        forall k, k < num_exg_packages_per_base H ->
          rows !! (j * S (num_exg_packages_per_base H) + S k) =
          Some (parse_exg (j * bytes_in_single_entry H) k
                  (after_x (j * bytes_in_single_entry H) k (parse_base j pj))).
Proof.
  intros Hlen. unfold decode_frame. rewrite decode_fold_eq. simpl.
  eexists; split; [done|]. split.
  - by rewrite frame_rows_length, length_seq.
  - intros j Hj.
    exists (foldl (fun p j => final_of j p) p (seq 0 j)). split; [|split].
    + by rewrite base_final_fold_length.
    + rewrite <- (Nat.add_0_r (j * _)).
      rewrite frame_rows_lookup by (done || lia). done.
    + intros k Hk. rewrite frame_rows_lookup by (done || lia).
      simpl. by apply base_rows_exg.
Qed.

End DecoderFacts.

(** ** The rows of a frame *)

Section AcquisitionFacts.
Context `{FA : FloatArith} (H : GaleaSerialH) (bd : BoardDescr).

Lemma process_frame_eq (l : ThreadLocals) (pc_timestamp : f64) (m : Machine) :
  let d := decode_frame H bd (b l) pc_timestamp (smoothed_offset H l pc_timestamp)
             (half_rtt m.1) (package l, sink m.1) in
  exists l', process_frame H bd l pc_timestamp m = Ok l' (set_sink d.2 m.1, m.2)
          /\ package l' = d.1 /\ b l' = b l.
Proof.
  destruct m as [s w]. cbv [process_frame bind gets modify ret]. cbn [fst snd].
  eexists. split; [reflexivity|]. done.
Qed.


(** C3. Decoding one validated frame appends exactly
    [num_base_packages * (1 + num_exg_packages_per_base)] rows to the sink:
    the row of base package [j] is immediately followed by the rows of its
    exg packages in order. The row of exg package [k] carries the counter of
    its base package incremented [k + 1] times and the auxiliary values of
    the base row; its samples are read from the exg package. *)
Theorem rows_follow_the_frame (l : ThreadLocals) (pc_timestamp : f64) (m : Machine) :
  channel_map_ok bd ->
  length (package l) = num_rows bd ->
  exists l' rows,
    process_frame H bd l pc_timestamp m = Ok l' (set_sink (sink m.1 ++ rows) m.1, m.2) /\
    length rows = num_base_packages H * (1 + num_exg_packages_per_base H) /\
    forall j, j < num_base_packages H ->
      let offset := j * bytes_in_single_entry H in
      let counter := f64_of_int (byte_val (peek (b l) offset)) in
      exists dense,
        rows !! (j * (1 + num_exg_packages_per_base H)) = Some dense /\
        dense !! package_num_channel bd = Some counter /\
        (forall t, t < 16 -> dense !! (t + 1) = Some (base_sample H (b l) offset t)) /\
        forall k, k < num_exg_packages_per_base H ->
          exists row,
            rows !! (j * (1 + num_exg_packages_per_base H) + 1 + k) = Some row /\
            row !! package_num_channel bd = Some (incremented (S k) counter) /\
            (forall c, c ∈ aux_channels bd -> row !! c = dense !! c) /\
            (forall t, t < 16 ->
               row !! (t + 1) = Some (exg_sample H (b l) (offset + exg_package_size H * k) t)).
Proof.
  intros Hok Hlen.
  destruct (process_frame_eq l pc_timestamp m) as (l' & Heq & _).
  destruct (decode_frame_rows H bd (b l) pc_timestamp (smoothed_offset H l pc_timestamp)
              (half_rtt m.1) (package l) (sink m.1) Hlen) as (rows & Hrows & Hn & Hj).
  exists l', rows. cbn zeta in Heq. rewrite Hrows in Heq.
  split; [done|]. split; [done|].
  intros j Hlt. destruct (Hj j Hlt) as (pj & Hpj & Hdense & Hexg).
  cbn zeta. change (1 + num_exg_packages_per_base H) with (S (num_exg_packages_per_base H)).
  eexists. split; [exact Hdense|].
  assert (Hc := parse_base_package_counter H bd (b l) pc_timestamp
                  (smoothed_offset H l pc_timestamp) (half_rtt m.1) Hok j pj Hpj).
  split; [done|]. split.
  { intros t Ht. by apply parse_base_package_sample. }
  intros k Hk. eexists. split.
  { rewrite <- Nat.add_assoc. exact (Hexg k Hk). }
  split; [|split].
  - apply parse_exg_package_counter; [done|].
    by apply after_exg_counter.
  - intros c Hin. rewrite parse_exg_package_aux by done.
    by apply after_exg_aux.
  - intros t Ht. apply parse_exg_package_sample; [done| |done].
    by rewrite after_exg_length, parse_base_package_length.
Qed.

End AcquisitionFacts.


(** ** Running the monad *)

Ltac wsimpl :=
  cbn [fst snd
       params_serial_port params_timeout serial is_streaming keep_alive initialized
       state half_rtt sink
       set_params_timeout set_serial set_is_streaming set_keep_alive set_initialized
       set_state set_half_rtt set_sink
       open_res settings_res baud_res send_results incoming clock acquisition_res
       first_frame_in_time alive_reads trace
       set_send_results set_incoming set_clock set_alive_reads log] in *.

Ltac views := unfold next_send_result, next_read, clock_at in *.

Section Run.
Context `{FA : FloatArith}.

Lemma run_ret {A B} (a : A) (k : A -> M B) m : bind (ret a) k m = k a m.
Proof. done. Qed.

Lemma run_bind {A B C} (c : M A) (f : A -> M B) (k : B -> M C) m :
  bind (bind c f) k m = bind c (fun a => bind (f a) k) m.
Proof. unfold bind. by destruct (c m). Qed.

Lemma run_gets {A B} (f : Session -> A) (k : A -> M B) s w :
  bind (gets f) k (s, w) = k (f s) (s, w).
Proof. done. Qed.

Lemma run_asks {A B} (f : World -> A) (k : A -> M B) s w :
  bind (asks f) k (s, w) = k (f w) (s, w).
Proof. done. Qed.

Lemma run_modify {B} (f : Session -> Session) (k : unit -> M B) s w :
  bind (modify f) k (s, w) = k tt (f s, w).
Proof. done. Qed.

Lemma run_act {B} (f : World -> World) (k : unit -> M B) s w :
  bind (act f) k (s, w) = k tt (s, f w).
Proof. done. Qed.

Lemma run_get_timestamp {B} (k : f64 -> M B) s w :
  bind get_timestamp k (s, w) = k (clock_at w 0) (s, set_clock (tail (clock w)) w).
Proof. unfold clock_at, get_timestamp, bind, asks, act, ret. simpl. by destruct (clock w). Qed.

Lemma run_send {B} data len (k : Z -> M B) s w p :
  serial s = Some p ->
  bind (send_to_serial_port data len) k (s, w) =
  k (next_send_result w len)
    (s, set_send_results (tail (send_results w)) (log (EvSend data) w)).
Proof.
  intros Hp. unfold send_to_serial_port, deref_serial, bind at 1 2 3 4. simpl.
  by rewrite Hp.
Qed.

Lemma run_read {B} size (k : list byte -> M B) s w p :
  serial s = Some p ->
  bind (read_from_serial_port size) k (s, w) =
  k (next_read w size)
    (s, log (EvRead size (next_read w size))
          (set_incoming (take_chunk size (incoming w)).2 w)).
Proof.
  intros Hp. unfold read_from_serial_port, deref_serial, bind at 1 2 3 4. simpl.
  by rewrite Hp.
Qed.

Lemma run_read_keep_alive {B} (k : bool -> M B) s w :
  bind read_keep_alive k (s, w) =
  k (0 <? alive_reads w) (s, set_alive_reads (pred (alive_reads w)) w).
Proof. done. Qed.

Lemma clock_at_tail w n v : clock_at (set_clock (tail (clock w)) v) n = clock_at w (S n).
Proof. unfold clock_at. simpl. by destruct (clock w). Qed.

(** C10. [calc_time] returns. When the probe command is not written in
    full (the write does not return 5) or the reply is not read in full (the
    read does not return 4 bytes), it returns [BOARD_WRITE_ERROR] and leaves
    [half_rtt] and the response alone; when both succeed it returns
    [STATUS_OK] and [half_rtt] is the elapsed time divided by 2. So
    [half_rtt] changes only on success. *)
Theorem calc_time_updates_half_rtt_on_success
    (resp : option CalcTimeResult) (s : Session) (w : World) (p : Serial) :
  serial s = Some p ->
  exists code resp' s' w',
    calc_time resp (s, w) = Ok (code, resp') (s', w') /\
    ((next_send_result w 5 <> 5%Z \/ length (next_read w 4) <> 4) ->
       code = BOARD_WRITE_ERROR /\ half_rtt s' = half_rtt s /\ resp' = resp) /\
    ((next_send_result w 5 = 5%Z /\ length (next_read w 4) = 4) ->
       code = STATUS_OK /\
       half_rtt s' = f64_div (f64_sub (clock_at w 1) (clock_at w 0)) (f64_of_int 2)) /\
    (half_rtt s' <> half_rtt s -> code = STATUS_OK).
Proof.
  intros Hp. unfold calc_time.
  rewrite run_get_timestamp, (run_send _ _ _ _ _ p Hp). views. wsimpl.
  destruct (default (Z.of_nat 5) (head (send_results w)) =? 5)%Z eqn:Hsend; cbn [negb].
  - apply Z.eqb_eq in Hsend.
    rewrite (run_read _ _ _ _ p Hp), run_get_timestamp. views. wsimpl.
    destruct (length (take_chunk 4 (incoming w)).1 =? 4) eqn:Hread; cbn [negb].
    + apply Nat.eqb_eq in Hread.
      rewrite run_modify, run_gets. wsimpl.
      do 4 eexists. split; [reflexivity|].
      split; [|split].
      * intros [?|?]; congruence.
      * intros _. split; [done|]. wsimpl. by destruct (clock w).
      * done.
    + apply Nat.eqb_neq in Hread.
      do 4 eexists. split; [reflexivity|].
      split; [|split]; [done|intros [_ ?]; done|done].
  - apply Z.eqb_neq in Hsend.
    do 4 eexists. split; [reflexivity|].
    split; [|split]; [done|intros [? _]; done|done].
Qed.
End Run.

(** ** The session life cycle *)

Section SessionFacts.
Context `{FA : FloatArith}.

Lemma run_ok {A B} (c : M A) (k : A -> M B) m a m' :
  c m = Ok a m' -> bind c k m = k a m'.
Proof. intros Hc. unfold bind. by rewrite Hc. Qed.

Lemma run_open {B} (k : Z -> M B) s w p :
  serial s = Some p ->
  bind open_serial_port k (s, w) = k (open_res w) (s, log EvOpen w).
Proof.
  intros Hp. unfold open_serial_port, deref_serial, bind at 1 2 3. simpl.
  by rewrite Hp.
Qed.

Lemma run_settings {B} ms (k : Z -> M B) s w p :
  serial s = Some p ->
  bind (set_serial_port_settings ms) k (s, w) =
  k (settings_res w) (s, log (EvSettings ms) w).
Proof.
  intros Hp. unfold set_serial_port_settings, deref_serial, bind at 1 2 3. simpl.
  by rewrite Hp.
Qed.

Lemma run_baud {B} rate (k : Z -> M B) s w p :
  serial s = Some p ->
  bind (set_custom_baudrate rate) k (s, w) = k (baud_res w) (s, log (EvBaud rate) w).
Proof.
  intros Hp. unfold set_custom_baudrate, deref_serial, bind at 1 2 3. simpl.
  by rewrite Hp.
Qed.

Lemma run_delete {B} (k : unit -> M B) s w :
  bind delete_serial k (s, w) = k tt (set_serial None s, log EvDelete w).
Proof. done. Qed.

(** A command other than the clock probe is written to the port. *)
Lemma config_board_send conf resp (s : Session) (w : World) p :
  serial s = Some p -> conf <> "calc_time" ->
  exists code,
    config_board conf resp (s, w) =
      Ok (code, resp)
         (s, set_send_results (tail (send_results w)) (log (EvSend (conf +:+ LF)) w)) /\
    (code = STATUS_OK \/ code = BOARD_WRITE_ERROR).
Proof.
  intros Hp Hconf. unfold config_board. rewrite run_gets, Hp.
  destruct (decide (conf = "calc_time")) as [|_]; [done|].
  rewrite (run_send _ _ _ _ _ p Hp).
  match goal with |- context [negb ?c] => destruct c end; cbn [negb];
    eexists; (split; [reflexivity|]); auto.
Qed.


(** C5, the code at the failing input. When the port cannot be opened,
    [prepare_session] returns [UNABLE_TO_OPEN_PORT_ERROR] with the session
    not initialized, but [serial] still points to the object it created and
    nothing deleted it; the next branch, a failure to set the port settings,
    deletes the object and clears the pointer. *)
Theorem prepare_failure_branches (s : Session) (w : World) :
  initialized s = false ->
  params_serial_port s <> EmptyString ->
  let port := params_serial_port s in
  ((open_res w < 0)%Z ->
   exists s' w',
     prepare_session (s, w) = Ok UNABLE_TO_OPEN_PORT_ERROR (s', w') /\
     serial s' = Some {| port_name := port |} /\ initialized s' = false /\
     trace w' = EvOpen :: EvCreate port :: trace w) /\
  ((0 <= open_res w)%Z -> (settings_res w < 0)%Z ->
   exists s' w' ms,
     prepare_session (s, w) = Ok SET_PORT_ERROR (s', w') /\
     serial s' = None /\ initialized s' = false /\
     trace w' = EvDelete :: EvSettings ms :: EvOpen :: EvCreate port :: trace w).
Proof.
  intros Hini Hport port. unfold prepare_session.
  rewrite run_gets, Hini, run_gets.
  destruct (decide (params_serial_port s = EmptyString)) as [|_]; [done|].
  rewrite run_gets.
  set (fix_timeout := if (params_timeout s >? 600)%Z || (params_timeout s <? 1)%Z
                      then set_params_timeout 3 s else s).
  assert (Hfix : forall B (k : unit -> M B),
            bind (if (params_timeout s >? 600)%Z || (params_timeout s <? 1)%Z
                  then modify (set_params_timeout 3) else ret ()) k (s, w)
            = k tt (fix_timeout, w)).
  { intros B k. unfold fix_timeout.
    by destruct ((params_timeout s >? 600)%Z || (params_timeout s <? 1)%Z). }
  assert (Hfini : initialized fix_timeout = false).
  { unfold fix_timeout.
    by destruct ((params_timeout s >? 600)%Z || (params_timeout s <? 1)%Z). }
  rewrite Hfix, run_act, run_modify.
  rewrite (run_open _ _ _ {| port_name := port |}) by done.
  wsimpl. split.
  - intros Hopen. apply Z.ltb_lt in Hopen. rewrite Hopen.
    do 2 eexists. split; [reflexivity|]. done.
  - intros Hopen Hset. apply Z.ltb_ge in Hopen. apply Z.ltb_lt in Hset.
    rewrite Hopen, run_gets.
    rewrite (run_settings _ _ _ _ {| port_name := port |}) by done.
    wsimpl. rewrite Hset, run_delete.
    do 3 eexists. split; [reflexivity|]. done.
Qed.

(** C9, as amended. When [prepare_session] gets as far as configuring the
    port, the read timeout it configures is [params.timeout] seconds when
    that value lies in [1,600] and 3 seconds otherwise (in milliseconds);
    [params.timeout] holds that value afterwards, and it lies in [1,600]. *)
Theorem prepare_read_timeout (s : Session) (w : World) :
  initialized s = false ->
  params_serial_port s <> EmptyString ->
  (0 <= open_res w)%Z ->
  let t := params_timeout s in
  let effective := if decide (1 <= t <= 600)%Z then t else 3%Z in
  exists code s' w',
    prepare_session (s, w) = Ok code (s', w') /\
    configured_timeout_ms (trace w') = Some (effective * 1000)%Z /\
    params_timeout s' = effective /\
    (1 <= effective <= 600)%Z.
Proof.
  intros Hini Hport Hopen t effective. unfold prepare_session.
  rewrite run_gets, Hini, run_gets.
  destruct (decide (params_serial_port s = EmptyString)) as [|_]; [done|].
  rewrite run_gets.
  set (s0 := if (params_timeout s >? 600)%Z || (params_timeout s <? 1)%Z
             then set_params_timeout 3 s else s).
  assert (Hfix : forall B (k : unit -> M B),
            bind (if (params_timeout s >? 600)%Z || (params_timeout s <? 1)%Z
                  then modify (set_params_timeout 3) else ret ()) k (s, w)
            = k tt (s0, w)).
  { intros B k. unfold s0.
    by destruct ((params_timeout s >? 600)%Z || (params_timeout s <? 1)%Z). }
  assert (Heff : params_timeout s0 = effective).
  { unfold s0, effective, t.
    destruct (decide (1 <= params_timeout s <= 600)%Z) as [Hr|Hr].
    - replace ((params_timeout s >? 600)%Z || (params_timeout s <? 1)%Z) with false; [done|].
      symmetry. rewrite Z.gtb_ltb. apply orb_false_intro; apply Z.ltb_ge; lia.
    - replace ((params_timeout s >? 600)%Z || (params_timeout s <? 1)%Z) with true; [done|].
      symmetry. apply orb_true_iff. rewrite Z.gtb_ltb, !Z.ltb_lt. lia. }
  assert (Hrange : (1 <= effective <= 600)%Z).
  { unfold effective. destruct (decide (1 <= t <= 600)%Z); lia. }
  rewrite Hfix, run_act, run_modify.
  set (p := {| port_name := params_serial_port s |}).
  rewrite (run_open _ _ _ p) by done.
  wsimpl. apply Z.ltb_ge in Hopen. rewrite Hopen, run_gets.
  rewrite (run_settings _ _ _ _ p) by done.
  wsimpl. rewrite Heff.
  destruct (settings_res w <? 0)%Z.
  { rewrite run_delete. do 3 eexists. split; [reflexivity|]. done. }
  rewrite (run_baud _ _ _ _ p) by done. wsimpl.
  destruct (baud_res w <? 0)%Z.
  { rewrite run_delete. do 3 eexists. split; [reflexivity|]. done. }
  match goal with |- context [bind (config_board "o" None) _ (?s1, ?w1)] =>
    destruct (config_board_send "o" None s1 w1 p eq_refl) as (c1 & Hc1 & Hcode1);
      [done|rewrite (run_ok _ _ _ _ _ Hc1)]
  end.
  wsimpl. destruct Hcode1 as [-> | ->];
    [rewrite bool_decide_eq_true_2 by done|rewrite bool_decide_eq_false_2 by done];
    cbn [negb].
  2:{ rewrite run_delete. do 3 eexists. split; [reflexivity|]. done. }
  match goal with |- context [bind (config_board "~6" None) _ (?s1, ?w1)] =>
    destruct (config_board_send "~6" None s1 w1 p eq_refl) as (c2 & Hc2 & Hcode2);
      [done|rewrite (run_ok _ _ _ _ _ Hc2)]
  end.
  wsimpl. destruct Hcode2 as [-> | ->];
    [rewrite bool_decide_eq_true_2 by done|rewrite bool_decide_eq_false_2 by done];
    cbn [negb].
  2:{ rewrite run_delete. do 3 eexists. split; [reflexivity|]. done. }
  rewrite run_modify. do 3 eexists. split; [reflexivity|]. done.
Qed.



(** Single-byte reads while bytes keep arriving. *)
Lemma take_chunk_steady chunks n :
  S n <= steady_bytes chunks ->
  length (take_chunk 1 chunks).1 = 1 /\ n <= steady_bytes (take_chunk 1 chunks).2.
Proof.
  destruct chunks as [|c rest]; cbn [steady_bytes take_chunk]; [lia|].
  destruct (length c =? 0) eqn:Hz; [lia|]. apply Nat.eqb_neq in Hz.
  destruct (length c <=? 1) eqn:Hle; cbn [fst snd].
  - apply Nat.leb_le in Hle. lia.
  - apply Nat.leb_gt in Hle. intros Hn.
    rewrite length_take. cbn [steady_bytes]. rewrite length_drop.
    destruct (length c - 1 =? 0) eqn:Hz'; [apply Nat.eqb_eq in Hz'; lia|]. lia.
Qed.

(** The loop that frees the kernel buffer always ends, after at most
    [cap] reads; it ends on the cap when bytes keep arriving. *)
Lemma drain_loop_spec cap fuel a (s : Session) (w : World) p :
  serial s = Some p -> a < cap -> cap - a <= fuel ->
  exists r w' reads,
    drain_loop cap fuel a (s, w) = Ok r (s, w') /\
    trace w' = reads ++ trace w /\ Forall single_byte_read reads /\
    length reads <= cap - a /\
    (r = None /\ length reads < cap - a \/
     r = Some BOARD_WRITE_ERROR /\ length reads = cap - a) /\
    (cap - a - 1 <= steady_bytes (incoming w) ->
       r = Some BOARD_WRITE_ERROR /\ length reads = cap - a).
Proof.
  intros Hp. revert a w. induction fuel as [|fuel IH]; intros a w Ha Hfuel; [lia|].
  cbn [drain_loop]. rewrite (run_read _ _ _ _ p Hp). cbv beta zeta.
  destruct (S a =? cap) eqn:Hcap.
  - apply Nat.eqb_eq in Hcap.
    exists (Some BOARD_WRITE_ERROR). eexists. exists [EvRead 1 (next_read w 1)].
    split; [reflexivity|]. cbn [length].
    split; [done|]. split; [repeat constructor; by eexists|].
    split; [lia|]. split; [right; split; [done|lia]|].
    intros _. split; [done|lia].
  - apply Nat.eqb_neq in Hcap.
    destruct (length (next_read w 1) =? 1) eqn:Hone.
    + match goal with |- context [drain_loop cap fuel (S a) (s, ?w1)] =>
        destruct (IH (S a) w1) as (r & w' & reads & Heq & Htr & Hall & Hlen & Hr & Hcapped);
          [lia|lia|]
      end.
      exists r, w', (reads ++ [EvRead 1 (next_read w 1)]).
      split; [done|]. wsimpl. rewrite Htr, <- app_assoc. split; [done|].
      split; [apply Forall_app; split; [done|repeat constructor; by eexists]|].
      rewrite length_app. cbn [length]. split; [lia|]. split.
      * destruct Hr as [[? ?]|[? ?]]; [left|right]; (split; [done|lia]).
      * intros Hsteady. destruct (take_chunk_steady (incoming w) (cap - S a - 1)) as [_ Hrest].
        { lia. }
        destruct (Hcapped Hrest) as [-> Hl]. split; [done|lia].
    + apply Nat.eqb_neq in Hone.
      exists None. eexists. exists [EvRead 1 (next_read w 1)].
      split; [reflexivity|]. cbn [length].
      split; [done|]. split; [repeat constructor; by eexists|].
      split; [lia|]. split; [left; split; [done|lia]|].
      intros Hsteady.
      destruct (take_chunk_steady (incoming w) (cap - a - 2)) as [Hl _]; [lia|].
      by unfold next_read in Hone.
Qed.


End SessionFacts.

(** ** The offset history *)

Section HistoryFacts.
Context `{FA : FloatArith}.





End HistoryFacts.

(** Exact arithmetic *)






(** ** The acquisition loop *)

Section LoopFacts.
Context `{FA : FloatArith} (H : GaleaSerialH) (bd : BoardDescr).

Lemma reads_of_app (evs1 evs2 : list Event) :
  reads_of (evs1 ++ evs2) = reads_of evs2 ++ reads_of evs1.
Proof.
  induction evs1 as [|e evs1 IH]; simpl; [by rewrite app_nil_r|].
  destruct e; try done. by rewrite IH, app_assoc.
Qed.

Lemma take_chunk_length size chunks : length (take_chunk size chunks).1 <= size.
Proof.
  destruct chunks as [|c rest]; simpl; [lia|].
  destruct (length c <=? size) eqn:Hle; simpl.
  - by apply Nat.leb_le.
  - rewrite length_take. lia.
Qed.

Lemma store_append (acc buf0 data : list byte) :
  store (acc ++ drop (length acc) buf0) (length acc) data =
  (acc ++ data) ++ drop (length (acc ++ data)) buf0.
Proof.
  unfold store. rewrite take_app_length, drop_app_add, drop_drop.
  by rewrite length_app, <- app_assoc.
Qed.

(** The loop that accumulates the body: it ends, with the body complete or
    with [keep_alive] cleared. *)
Lemma read_remaining_spec fuel (acc buf0 : list byte) rem (s : Session) (w : World) p :
  serial s = Some p -> alive_reads w < fuel ->
  exists got rem' w' evs,
    read_remaining fuel (acc ++ drop (length acc) buf0) rem (length acc) (s, w) =
      Ok (acc ++ got ++ drop (length acc + length got) buf0, rem') (s, w') /\
    trace w' = evs ++ trace w /\
    concat (map snd (reads_of evs)) = got /\
    length got + rem' = rem /\
    (rem' = 0 \/ alive_reads w' = 0) /\
    alive_reads w' <= alive_reads w.
Proof.
  intros Hp. revert acc rem w.
  induction fuel as [|fuel IH]; intros acc rem w Hfuel; [lia|].
  cbn [read_remaining].
  destruct (0 <? rem) eqn:Hrem; cbn [negb].
  2:{ apply Nat.ltb_ge in Hrem. exists [], rem, w, [].
      rewrite Nat.add_0_r.
      split; [done|]. split; [done|]. split; [done|]. split; [done|].
      split; [left; lia|done]. }
  rewrite run_read_keep_alive.
  destruct (0 <? alive_reads w) eqn:Halive; cbn [negb].
  2:{ apply Nat.ltb_ge in Halive. exists [], rem. eexists. exists [].
      rewrite Nat.add_0_r. split; [reflexivity|]. wsimpl.
      split; [done|]. split; [done|]. split; [done|]. split; [right; lia|lia]. }
  apply Nat.ltb_lt in Halive.
  rewrite (run_read _ _ _ _ p Hp). cbv beta zeta.
  set (w1 := set_alive_reads _ w).
  set (data := next_read w1 rem).
  assert (Hdata : length data <= rem) by apply take_chunk_length.
  rewrite store_append.
  replace (length acc + length data) with (length (acc ++ data)) by by rewrite length_app.
  match goal with |- context [read_remaining fuel _ _ _ (s, ?w2)] =>
    destruct (IH (acc ++ data) (rem - length data) w2)
      as (got & rem' & w' & evs & Heq & Htr & Hgot & Hlen & Hend & Hal)
  end.
  { unfold w1. wsimpl. lia. }
  exists (data ++ got), rem', w', (evs ++ [EvRead rem data]).
  split.
  { rewrite Heq. rewrite <- !app_assoc, !length_app, Nat.add_assoc. done. }
  split; [rewrite Htr; cbn [app]; by rewrite <- ?app_assoc|].
  split.
  { rewrite reads_of_app. cbn [reads_of app map concat snd]. by rewrite Hgot. }
  split; [rewrite length_app; lia|]. split; [done|].
  unfold w1 in Hal. wsimpl. lia.
Qed.

Lemma single_read (data : list byte) :
  length data = 1 -> data = [default "000"%byte (data !! 0)].
Proof. by destruct data as [|x [|y data]]. Qed.

Lemma peek_store_first (buf data : list byte) :
  length data = 1 -> peek (store buf 0 data) 0 = default "000"%byte (data !! 0).
Proof. by destruct data as [|x [|y data]]. Qed.

Lemma store_first_length (buf data : list byte) :
  length (store buf 0 data) = length data + (length buf - length data).
Proof.
  unfold store. rewrite take_0. cbn [app Nat.add].
  by rewrite length_app, length_drop.
Qed.

Lemma byte_eqb_eq (x y : byte) : Byte.eqb x y = true <-> x = y.
Proof. split; [apply Byte.byte_dec_bl|apply Byte.byte_dec_lb]. Qed.

(** The decoder only appends to the sink. *)
Lemma decode_frame_sink buf pc_timestamp time_delta half (pkg : list f64) rows0 :
  exists rows,
    (decode_frame H bd buf pc_timestamp time_delta half (pkg, rows0)).2 = rows0 ++ rows.
Proof. unfold decode_frame. rewrite decode_fold_eq. by eexists. Qed.

(** The four ways an iteration of the loop can go. *)
Lemma read_iteration_cases
    (l : ThreadLocals) (s : Session) (w : World) (p : Serial) :
  serial s = Some p ->
  0 < transaction_size H ->
  length (b l) = transaction_size H ->
  exists l' exit s' w' evs,
    read_iteration H bd l (s, w) = Ok (l', exit) (s', w') /\
    trace w' = evs ++ trace w /\
    serial s' = serial s /\
    alive_reads w' <= alive_reads w /\
    (exit = Continue -> length (b l') = transaction_size H) /\
    (exists rows, sink s' = sink s ++ rows) /\
    ((exists first,
        reads_of evs = [(1, first)] /\ first <> [start_byte H] /\
        exit = Continue /\ s' = s /\
        package l' = package l /\ time_buffer l' = time_buffer l) \/
     (exists body_reads,
        reads_of evs = (1, [start_byte H]) :: body_reads /\
        exit = Break /\ s' = s /\
        package l' = package l /\ time_buffer l' = time_buffer l) \/
     (exists body_reads last,
        reads_of evs = (1, [start_byte H]) :: body_reads ++ [(1, last)] /\
        length (concat (map snd body_reads)) = transaction_size H /\
        last <> [stop_byte H] /\
        exit = Continue /\ s' = s /\
        package l' = package l /\ time_buffer l' = time_buffer l) \/
     (exists body_reads s1,
        reads_of evs = (1, [start_byte H]) :: body_reads ++ [(1, [stop_byte H])] /\
        length (concat (map snd body_reads)) = transaction_size H /\
        exit = Continue /\
        (s1 = s \/ s1 = set_state STATUS_OK s) /\ state s1 = STATUS_OK /\
        process_frame H bd
          {| b := concat (map snd body_reads); time_buffer := time_buffer l;
             package := package l |}
          (clock_at w 0) (s1, w') = Ok l' (s', w'))).
Proof.
  intros Hp Hpos Hlen. unfold read_iteration.
  rewrite (run_read _ _ _ _ p Hp). cbv beta zeta.
  set (first := next_read w 1).
  assert (Hfirst_le : length first <= 1) by apply take_chunk_length.
  assert (Hb1 : length (store (b l) 0 first) = transaction_size H).
  { rewrite store_first_length. lia. }
  destruct (length first =? 1) eqn:Hfirst; cbn [negb].
  2:{ apply Nat.eqb_neq in Hfirst.
      do 4 eexists. exists [EvRead 1 first]. split; [reflexivity|]. wsimpl.
      split; [done|]. split; [done|]. split; [lia|]. split; [done|].
      split; [exists []; by rewrite app_nil_r|].
      left. exists first. repeat split; try done. by intros ->. }
  apply Nat.eqb_eq in Hfirst.
  rewrite run_get_timestamp. cbn [b]. rewrite peek_store_first by done.
  destruct (Byte.eqb (default "000"%byte (first !! 0)) (start_byte H)) eqn:Hstart; cbn [negb].
  2:{ do 4 eexists. exists [EvRead 1 first]. split; [reflexivity|]. wsimpl.
      split; [done|]. split; [done|]. split; [lia|]. split; [done|].
      split; [exists []; by rewrite app_nil_r|].
      left. exists first. repeat split; try done.
      intros Heq. rewrite Heq in Hstart. cbn in Hstart.
      by rewrite (proj2 (byte_eqb_eq _ _) eq_refl) in Hstart. }
  apply byte_eqb_eq in Hstart.
  assert (Hfirst' : first = [start_byte H]) by (by rewrite (single_read first Hfirst), Hstart).
  rewrite run_asks.
  match goal with |- context [bind (read_remaining ?fuel ?buf _ 0) _ (s, ?w1)] =>
    destruct (read_remaining_spec fuel [] buf (transaction_size H) s w1 p Hp)
      as (body & rem' & w2 & evs & Heq & Htr & Hbody & Hsum & Hend & Hal); [wsimpl; lia|];
    change buf with ([] ++ drop (length (@nil byte)) buf);
    change 0 with (length (@nil byte)) at 1;
    rewrite (run_ok _ _ _ _ _ Heq)
  end.
  cbn [fst snd app length Nat.add time_buffer package].
  rewrite run_read_keep_alive.
  destruct (0 <? alive_reads w2) eqn:Halive; cbn [negb].
  2:{ do 4 eexists. exists (evs ++ [EvRead 1 first]).
      split; [reflexivity|]. wsimpl.
      split; [rewrite Htr; cbn [app]; by rewrite <- ?app_assoc|].
      split; [done|]. split; [lia|]. split; [done|].
      split; [exists []; by rewrite app_nil_r|].
      right; left. exists (reads_of evs).
      rewrite reads_of_app, Hfirst'. done. }
  apply Nat.ltb_lt in Halive.
  destruct Hend as [-> | Hzero]; [|lia].
  rewrite Nat.add_0_r in Hsum.
  assert (Hbuf : body ++ drop (length body) (store (b l) 0 first) = body).
  { rewrite drop_ge, app_nil_r; [done|]. lia. }
  rewrite Hbuf.
  rewrite (run_read _ _ _ _ p Hp). cbv beta zeta.
  match goal with |- context [length (next_read ?w3 1) =? 1] => set (last := next_read w3 1) end.
  destruct (length last =? 1) eqn:Hlast; cbn [negb].
  2:{ apply Nat.eqb_neq in Hlast.
      do 4 eexists. exists (EvRead 1 last :: evs ++ [EvRead 1 first]).
      split; [reflexivity|]. wsimpl.
      split; [rewrite Htr; cbn [app]; by rewrite <- ?app_assoc|].
      split; [done|]. split; [lia|]. split; [done|].
      split; [exists []; by rewrite app_nil_r|].
      right; right; left. exists (reads_of evs), last.
      cbn [reads_of]. rewrite reads_of_app, Hfirst', Hbody.
      repeat split; try done. by intros ->. }
  apply Nat.eqb_eq in Hlast.
  destruct (Byte.eqb (default "000"%byte (last !! 0)) (stop_byte H)) eqn:Hstop; cbn [negb].
  2:{ do 4 eexists. exists (EvRead 1 last :: evs ++ [EvRead 1 first]).
      split; [reflexivity|]. wsimpl.
      split; [rewrite Htr; cbn [app]; by rewrite <- ?app_assoc|].
      split; [done|]. split; [lia|]. split; [done|].
      split; [exists []; by rewrite app_nil_r|].
      right; right; left. exists (reads_of evs), last.
      cbn [reads_of]. rewrite reads_of_app, Hfirst', Hbody.
      repeat split; try done.
      intros Heq'. rewrite Heq' in Hstop. cbn in Hstop.
      by rewrite (proj2 (byte_eqb_eq _ _) eq_refl) in Hstop. }
  apply byte_eqb_eq in Hstop.
  assert (Hlast' : last = [stop_byte H]) by (by rewrite (single_read last Hlast), Hstop).
  rewrite run_gets.
  destruct (bool_decide (state s = STATUS_OK)) eqn:Hstate; cbn [negb].
  - apply bool_decide_eq_true in Hstate.
    rewrite run_ret.
    match goal with |- context [bind (process_frame H bd ?l1 ?pc) _ ?m] =>
      destruct (process_frame_eq H bd l1 pc m) as (l' & Hpf & _ & Hbl);
      destruct (decode_frame_sink (b l1) pc (smoothed_offset H l1 pc)
                  (half_rtt m.1) (package l1) (sink m.1)) as (rows & Hrows)
    end.
    wsimpl. cbn [b package time_buffer] in Hpf, Hrows, Hbl.
    rewrite (run_ok _ _ _ _ _ Hpf).
    do 4 eexists. exists (EvRead 1 last :: evs ++ [EvRead 1 first]).
    split; [reflexivity|]. wsimpl.
    split; [rewrite Htr; cbn [app]; by rewrite <- ?app_assoc|].
    split; [done|]. split; [lia|]. split; [by rewrite Hbl|].
    split; [exists rows; exact Hrows|].
    right; right; right. exists (reads_of evs), s.
    cbn [reads_of]. rewrite reads_of_app, Hfirst', Hlast', Hbody.
    split; [done|]. split; [done|]. split; [done|]. split; [by left|].
    split; [done|]. rewrite ?Hfirst', ?Hlast' in Hpf. exact Hpf.
  - rewrite run_bind, run_modify, run_act.
    match goal with |- context [bind (process_frame H bd ?l1 ?pc) _ ?m] =>
      destruct (process_frame_eq H bd l1 pc m) as (l' & Hpf & _ & Hbl);
      destruct (decode_frame_sink (b l1) pc (smoothed_offset H l1 pc)
                  (half_rtt m.1) (package l1) (sink m.1)) as (rows & Hrows)
    end.
    wsimpl. cbn [b package time_buffer] in Hpf, Hrows, Hbl.
    rewrite (run_ok _ _ _ _ _ Hpf).
    do 4 eexists. exists (EvNotify :: EvRead 1 last :: evs ++ [EvRead 1 first]).
    split; [reflexivity|]. wsimpl.
    split; [rewrite Htr; cbn [app]; by rewrite <- ?app_assoc|].
    split; [done|]. split; [lia|]. split; [by rewrite Hbl|].
    split; [exists rows; exact Hrows|].
    right; right; right. exists (reads_of evs), (set_state STATUS_OK s).
    cbn [reads_of]. rewrite reads_of_app, Hfirst', Hlast', Hbody.
    split; [done|]. split; [done|]. split; [done|]. split; [by right|].
    split; [done|]. rewrite ?Hfirst', ?Hlast' in Hpf. exact Hpf.
Qed.

(** The loop ends once [keep_alive] is cleared, and only appends to the sink. *)
Lemma read_loop_total fuel (l : ThreadLocals) (s : Session) (w : World) (p : Serial) :
  serial s = Some p ->
  0 < transaction_size H ->
  length (b l) = transaction_size H ->
  alive_reads w < fuel ->
  exists l' s' w' rows,
    read_loop H bd fuel l (s, w) = Ok l' (s', w') /\ sink s' = sink s ++ rows.
Proof.
  intros Hp Hpos. revert l s w Hp.
  induction fuel as [|fuel IH]; intros l s w Hp Hlen Hfuel; [lia|].
  cbn [read_loop]. rewrite run_read_keep_alive.
  destruct (0 <? alive_reads w) eqn:Halive; cbn [negb].
  2:{ do 3 eexists. exists []. split; [reflexivity|]. by rewrite app_nil_r. }
  apply Nat.ltb_lt in Halive.
  match goal with |- context [bind (read_iteration H bd l) _ (s, ?w1)] =>
    destruct (read_iteration_cases l s w1 p Hp Hpos Hlen)
      as (l1 & exit & s1 & w2 & evs & Heq & _ & Hser & Hal & Hbl & (rows & Hrows) & _)
  end.
  rewrite (run_ok _ _ _ _ _ Heq). cbn [fst snd]. wsimpl.
  destruct exit.
  - destruct (IH l1 s1 w2) as (l' & s' & w' & rows' & Heq' & Hrows').
    { by rewrite Hser. }
    { by apply Hbl. }
    { lia. }
    exists l', s', w', (rows ++ rows'). split; [done|].
    by rewrite Hrows', Hrows, <- app_assoc.
  - exists l1, s1, w2, rows. done.
Qed.

(** C6. An iteration of the acquisition loop returns, in one of four ways,
    told apart by what its reads returned: the first byte is missing or is
    not the start sentinel, and nothing else is read; the control thread
    stops the loop during the frame; the body is complete but the last byte
    is missing or is not the stop sentinel; or start sentinel, complete body
    and stop sentinel were all read. Only in the last case does the session
    change: the rows of that body are decoded and pushed. In the first and
    the third case the loop continues. The loop itself returns once
    [keep_alive] is cleared and has only appended rows to the sink. *)
Theorem rows_only_from_validated_frames
    (l : ThreadLocals) (s : Session) (w : World) (p : Serial) :
  serial s = Some p ->
  0 < transaction_size H ->
  length (b l) = transaction_size H ->
  (exists l' exit s' w' evs,
     read_iteration H bd l (s, w) = Ok (l', exit) (s', w') /\
     trace w' = evs ++ trace w /\
     ((exists first,
         reads_of evs = [(1, first)] /\ first <> [start_byte H] /\
         exit = Continue /\ s' = s /\
         package l' = package l /\ time_buffer l' = time_buffer l) \/
      (exists body_reads,
         reads_of evs = (1, [start_byte H]) :: body_reads /\
         exit = Break /\ s' = s /\
         package l' = package l /\ time_buffer l' = time_buffer l) \/
      (exists body_reads last,
         reads_of evs = (1, [start_byte H]) :: body_reads ++ [(1, last)] /\
         length (concat (map snd body_reads)) = transaction_size H /\
         last <> [stop_byte H] /\
         exit = Continue /\ s' = s /\
         package l' = package l /\ time_buffer l' = time_buffer l) \/
      (exists body_reads s1,
         reads_of evs = (1, [start_byte H]) :: body_reads ++ [(1, [stop_byte H])] /\
         length (concat (map snd body_reads)) = transaction_size H /\
         exit = Continue /\
         (s1 = s \/ s1 = set_state STATUS_OK s) /\ state s1 = STATUS_OK /\
         process_frame H bd
           {| b := concat (map snd body_reads); time_buffer := time_buffer l;
              package := package l |}
           (clock_at w 0) (s1, w') = Ok l' (s', w')))) /\
  (forall fuel, alive_reads w < fuel ->
     exists l' s' w' rows,
       read_loop H bd fuel l (s, w) = Ok l' (s', w') /\ sink s' = sink s ++ rows).
Proof.
  intros Hp Hpos Hlen. split.
  - destruct (read_iteration_cases l s w p Hp Hpos Hlen)
      as (l' & exit & s' & w' & evs & Heq & Htr & _ & _ & _ & _ & Hcases).
    exists l', exit, s', w', evs. done.
  - intros fuel Hfuel. by apply (read_loop_total fuel l s w p).
Qed.

End LoopFacts.

(** ** The scale tables *)

(** The two tables agree on every position but 7 and 11. *)
Lemma scale_tables_agree_elsewhere t :
  t <> 7 -> t <> 11 -> base_scale t = exg_scale t.
Proof.
  intros H7 H11. unfold base_scale, exg_scale.
  destruct (t <? 6); [done|].
  destruct (t =? 6) eqn:H6; [done|]. cbn [orb].
  destruct (t =? 7) eqn:E7; [apply Nat.eqb_eq in E7; lia|].
  destruct (t =? 11) eqn:E11; [apply Nat.eqb_eq in E11; lia|]. done.
Qed.

(** C2, the code at the failing input. The sample at position 7 is scaled by
    the sister-board factor in a base package and by the main-board factor
    in an exg package; the sample at position 11 the other way round. *)
Theorem scale_tables_differ :
  base_scale 7 = EegSister /\ exg_scale 7 = EegMain /\
  base_scale 11 = EegMain /\ exg_scale 11 = EegSister.
Proof. done. Qed.

(** ** Concrete runs *)

(** A probe answered in full: half of the 0.5 s between the two clock readings. *)
Lemma calc_time_witness :
  exists resp' s' w',
    calc_time None (prepared_session, probe_world) = Ok (STATUS_OK, resp') (s', w') /\
    half_rtt s' = Qdiv (Qminus (21 # 2) 10) 2.
Proof.
  destruct (calc_time_updates_half_rtt_on_success None prepared_session probe_world
              {| port_name := "/dev/ttyUSB0" |} eq_refl)
    as (code & resp' & s' & w' & Heq & _ & Hok & _).
  destruct (Hok (conj eq_refl eq_refl)) as [-> Hhalf].
  exists resp', s', w'. split; [exact Heq|exact Hhalf].
Defined.



(** A port that cannot be opened leaves the [Serial] object behind. *)
Lemma prepare_failure_branches_witness :
  exists s' w',
    prepare_session (GaleaSerial_new "/dev/ttyUSB0" 3, closed_port_world)
      = Ok UNABLE_TO_OPEN_PORT_ERROR (s', w') /\
    serial s' = Some {| port_name := "/dev/ttyUSB0" |}.
Proof.
  destruct (prepare_failure_branches (GaleaSerial_new "/dev/ttyUSB0" 3) closed_port_world
              eq_refl ltac:(discriminate)) as [Hopen _].
  destruct (Hopen ltac:(reflexivity)) as (s' & w' & Heq & Hser & _).
  exists s', w'. split; [exact Heq|exact Hser].
Defined.

(** A timeout of 700 s configures a read timeout of 3000 ms. *)
Lemma prepare_read_timeout_witness :
  exists code s' w',
    prepare_session (GaleaSerial_new "/dev/ttyUSB0" 700, demo_world [] [] 0) = Ok code (s', w') /\
    configured_timeout_ms (trace w') = Some 3000%Z.
Proof.
  destruct (prepare_read_timeout (GaleaSerial_new "/dev/ttyUSB0" 700) (demo_world [] [] 0)
              eq_refl ltac:(discriminate) ltac:(discriminate))
    as (code & s' & w' & Heq & Hms & _).
  exists code, s', w'. split; [exact Heq|exact Hms].
Defined.


(** A timeout of 700 is replaced by 3, not clamped to 600. *)
Lemma timeout_is_not_clamped :
  prepare_timeout_ms 700 <> Some (clamp_timeout 700 * 1000)%Z.
Proof. vm_compute. discriminate. Qed.

(** The demo frame: two base packages with one exg package each give four rows. *)
Lemma rows_follow_the_frame_witness :
  exists l' rows,
    process_frame demo_header demo_board demo_locals 5%Q (streaming_session, demo_world [] [] 0)
      = Ok l' (set_sink rows streaming_session, demo_world [] [] 0) /\
    length rows = 4.
Proof.
  assert (Hok : channel_map_ok demo_board).
  { apply (bool_decide_unpack _). vm_compute. exact I. }
  destruct (rows_follow_the_frame demo_header demo_board demo_locals 5%Q
              (streaming_session, demo_world [] [] 0) Hok eq_refl)
    as (l' & rows & Heq & Hn & _).
  exists l', rows. split; [exact Heq|exact Hn].
Defined.

(** The loop on two stray bytes and one frame returns. *)
Lemma rows_only_from_validated_frames_witness :
  exists l' s' w' rows,
    read_loop demo_header demo_board 9 (read_thread_locals demo_header demo_board)
      (streaming_session, resync_world) = Ok l' (s', w') /\
    sink s' = rows.
Proof.
  destruct (rows_only_from_validated_frames demo_header demo_board
              (read_thread_locals demo_header demo_board) streaming_session resync_world
              {| port_name := "/dev/ttyUSB0" |} eq_refl ltac:(cbn; lia) eq_refl)
    as [_ Hloop].
  destruct (Hloop 9 ltac:(cbn; lia)) as (l' & s' & w' & rows & Heq & Hrows).
  exists l', s', w', rows. split; [exact Heq|exact Hrows].
Defined.

(** Two stray bytes and one frame: the loop ends and has pushed the rows of
    that frame and nothing else. *)
Example read_thread_resynchronizes :
  (fun m : Machine => sink m.1) <$>
    machine_of (read_thread demo_header demo_board 9 (streaming_session, resync_world))
  = Some (decode_frame demo_header demo_board demo_body 102%Q
            (smoothed_offset demo_header demo_locals 102%Q) (1 # 100)%Q
            (replicate 26 0%Q, [])).2.
Proof. vm_compute. reflexivity. Qed.

(** A frame without its stop sentinel: the loop ends and has pushed
    nothing. *)
Example read_thread_drops_bad_stop :
  (fun m : Machine => sink m.1) <$>
    machine_of (read_thread demo_header demo_board 9 (streaming_session, bad_stop_world))
  = Some [].
Proof. vm_compute. reflexivity. Qed.

(** * Further properties of the decoder *)

(** ** What the decoder writes beside samples and stamps *)

Section RowFacts.
Context `{FA : FloatArith} (H : GaleaSerialH) (bd : BoardDescr).
Context (buf : list byte) (pc_timestamp time_delta half : f64).

#[local] Abbreviation parse_base := (parse_base_package H bd buf pc_timestamp time_delta half).
#[local] Abbreviation parse_exg := (parse_exg_package H bd buf pc_timestamp time_delta half).
#[local] Abbreviation after_x := (after_exg H bd buf pc_timestamp time_delta half).

Lemma not_role c :
  c ∉ role_channels bd ->
  c <> package_num_channel bd /\ (c ∉ stamp_channels bd) /\ (c ∉ aux_channels bd) /\
  forall t, t ∈ seq 0 16 -> t + 1 <> c.
Proof.
  unfold role_channels. rewrite not_elem_of_cons, !not_elem_of_app.
  intros (? & ? & ? & Hs). repeat split; try done.
  intros t Ht%elem_of_seq <-. apply Hs, in_samples. lia.
Qed.

Lemma parse_base_package_other j p c :
  c ∉ role_channels bd -> parse_base j p !! c = p !! c.
Proof.
  intros (Hpn & Hst & Hax & Hs)%not_role.
  unfold aux_channels in Hax. repeat rewrite not_elem_of_cons in Hax.
  destruct Hax as (? & ? & ? & ? & ? & _).
  unfold parse_base_package.
  rewrite stamp_lookup_other by done.
  rewrite !list_lookup_insert_ne by congruence.
  rewrite base_samples_fold.
  rewrite (foldl_insert_other (fun t => t + 1)) by done.
  by rewrite list_lookup_insert_ne by congruence.
Qed.








Hypothesis Hok : channel_map_ok bd.

Lemma aux_facts :
  let a0 := (ppg_channels bd).1 in
  let a1 := (ppg_channels bd).2 in
  let a2 := eda_channels bd in
  let a3 := temperature_channels bd in
  let a4 := battery_channel bd in
  (a0 <> a1 /\ a0 <> a2 /\ a0 <> a3 /\ a0 <> a4 /\ a1 <> a2 /\ a1 <> a3 /\ a1 <> a4 /\
   a2 <> a3 /\ a2 <> a4 /\ a3 <> a4) /\
  Forall (fun c => c < num_rows bd) (aux_channels bd).
Proof.
  destruct Hok as [Hnd Hall]. cbn zeta.
  apply NoDup_cons in Hnd as [_ Hnd].
  apply NoDup_app in Hnd as (_ & _ & Hnd).
  apply NoDup_app in Hnd as (Hax & _ & _).
  apply Forall_cons in Hall as [_ Hall].
  apply Forall_app in Hall as [_ Hall].
  apply Forall_app in Hall as [Hax_lt _].
  split; [|done]. unfold aux_channels in Hax.
  apply NoDup_cons in Hax as [H0 Hax].
  apply NoDup_cons in Hax as [H1 Hax].
  apply NoDup_cons in Hax as [H2 Hax].
  apply NoDup_cons in Hax as [H3 _].
  repeat rewrite not_elem_of_cons in H0.
  repeat rewrite not_elem_of_cons in H1.
  repeat rewrite not_elem_of_cons in H2.
  repeat rewrite not_elem_of_cons in H3.
  intuition congruence.
Qed.

(** The auxiliary sensors of a dense row. *)
Lemma parse_base_package_aux j p :
  length p = num_rows bd ->
  let offset := j * bytes_in_single_entry H in
  let row := parse_base j p in
  row !! (ppg_channels bd).1 = Some (f64_of_int (int32_at buf (56 + offset))) /\
  row !! (ppg_channels bd).2 = Some (f64_of_int (int32_at buf (60 + offset))) /\
  row !! eda_channels bd = Some (f64_of_f32 (float_at buf (1 + offset))) /\
  row !! temperature_channels bd =
    Some (f64_div (f64_of_int (uint16_at buf (54 + offset))) (f64_of_int 100)) /\
  row !! battery_channel bd = Some (f64_of_int (byte_val (peek buf (53 + offset)))).
Proof.
  intros Hlen. cbn zeta.
  destruct aux_facts as (Hne & Hlt). cbn zeta in Hne.
  unfold aux_channels in Hlt.
  apply Forall_cons in Hlt as [? Hlt]. apply Forall_cons in Hlt as [? Hlt].
  apply Forall_cons in Hlt as [? Hlt]. apply Forall_cons in Hlt as [? Hlt].
  apply Forall_cons in Hlt as [? _].
  assert (Hin : forall c, c ∈ aux_channels bd -> c ∉ stamp_channels bd)
    by (intros c; by apply aux_not_stamp).
  unfold aux_channels in Hin.
  unfold parse_base_package.
  repeat split.
  - rewrite stamp_lookup_other by (apply Hin; rewrite !elem_of_cons; auto).
    rewrite !list_lookup_insert_ne by intuition congruence.
    apply list_lookup_insert_eq.
    rewrite base_samples_fold, samples_length, length_insert. lia.
  - rewrite stamp_lookup_other by (apply Hin; rewrite !elem_of_cons; auto).
    rewrite !list_lookup_insert_ne by intuition congruence.
    apply list_lookup_insert_eq.
    rewrite length_insert, base_samples_fold, samples_length, length_insert. lia.
  - rewrite stamp_lookup_other by (apply Hin; rewrite !elem_of_cons; auto 10).
    rewrite !list_lookup_insert_ne by intuition congruence.
    apply list_lookup_insert_eq.
    rewrite !length_insert, base_samples_fold, samples_length, length_insert. lia.
  - rewrite stamp_lookup_other by (apply Hin; rewrite !elem_of_cons; auto 10).
    rewrite !list_lookup_insert_ne by intuition congruence.
    apply list_lookup_insert_eq.
    rewrite !length_insert, base_samples_fold, samples_length, length_insert. lia.
  - rewrite stamp_lookup_other by (apply Hin; rewrite !elem_of_cons; auto 10).
    apply list_lookup_insert_eq.
    rewrite !length_insert, base_samples_fold, samples_length, length_insert. lia.
Qed.

(** With a consistent channel map, the dense row of base package [j]
    carries the auxiliary sensors of that package: the two PPG values are
    the signed 32-bit integers at bytes 56 and 60 of the package, EDA the
    float at byte 1, the temperature the 16-bit integer at byte 54 divided
    by 100, the battery level the byte at 53; and each compact row that
    follows repeats them unchanged. *)
Theorem rows_carry_aux (p : list f64) (s : list (list f64)) (j : nat) :
  length p = num_rows bd -> j < num_base_packages H ->
  let offset := j * bytes_in_single_entry H in
  let M := num_exg_packages_per_base H in
  exists rows dense,
    (decode_frame H bd buf pc_timestamp time_delta half (p, s)).2 = s ++ rows /\
    rows !! (j * S M) = Some dense /\
    dense !! (ppg_channels bd).1 = Some (f64_of_int (int32_at buf (56 + offset))) /\
    dense !! (ppg_channels bd).2 = Some (f64_of_int (int32_at buf (60 + offset))) /\
    dense !! eda_channels bd = Some (f64_of_f32 (float_at buf (1 + offset))) /\
    dense !! temperature_channels bd =
      Some (f64_div (f64_of_int (uint16_at buf (54 + offset))) (f64_of_int 100)) /\
    dense !! battery_channel bd = Some (f64_of_int (byte_val (peek buf (53 + offset)))) /\
    forall k, k < M ->
      exists row, rows !! (j * S M + S k) = Some row /\
        forall c, c ∈ aux_channels bd -> row !! c = dense !! c.
Proof.
  intros Hlen Hj. cbn zeta.
  destruct (decode_frame_rows H bd buf pc_timestamp time_delta half p s Hlen)
    as (rows & Hrows & _ & Hat).
  destruct (Hat j Hj) as (pj & Hpj & Hdense & Hexg).
  destruct (parse_base_package_aux j pj Hpj) as (A0 & A1 & A2 & A3 & A4).
  exists rows, (parse_base j pj).
  repeat (split; [done|]).
  intros k Hk. eexists. split; [by apply Hexg|].
  intros c Hc.
  rewrite (parse_exg_package_aux H bd buf pc_timestamp time_delta half Hok) by done.
  by rewrite (after_exg_aux H bd buf pc_timestamp time_delta half Hok) by done.
Qed.

End RowFacts.

(** In exact arithmetic [x++] applied [n] times adds [n]. *)
Lemma incremented_exact (n : nat) (x : Q) :
  (@incremented QArith_exact n x == x + inject_Z (Z.of_nat n))%Q.
Proof.
  induction n as [|n IH].
  - cbn. ring.
  - unfold incremented in *. rewrite Nat.iter_succ.
    cbn [f64_add f64_of_int QArith_exact] in *. rewrite IH.
    rewrite Nat2Z.inj_succ. unfold Z.succ. rewrite inject_Z_plus. ring.
Qed.

(** The counter of a compact row is not reduced modulo 256: in exact
    arithmetic compact row [k] of base package [j] carries the counter
    byte of the package plus [k + 1], also when that exceeds 255, while the
    dense row carries the byte itself. *)
Theorem compact_counter_not_wrapped (H : GaleaSerialH) (bd : BoardDescr) (buf : list byte)
    (pc_timestamp time_delta half : Q) (p : list Q) (s : list (list Q)) (j k : nat) :
  channel_map_ok bd -> length p = num_rows bd ->
  j < num_base_packages H -> k < num_exg_packages_per_base H ->
  let M := num_exg_packages_per_base H in
  let counter := byte_val (peek buf (j * bytes_in_single_entry H)) in
  exists rows dense row v,
    (@decode_frame QArith_exact H bd buf pc_timestamp time_delta half (p, s)).2 = s ++ rows /\
    rows !! (j * S M) = Some dense /\
    dense !! package_num_channel bd = Some (inject_Z counter) /\
    rows !! (j * S M + S k) = Some row /\
    row !! package_num_channel bd = Some v /\
    (v == inject_Z (counter + Z.of_nat k + 1))%Q.
Proof.
  intros Hok Hlen Hj Hk. cbn zeta.
  destruct (@decode_frame_rows QArith_exact H bd buf pc_timestamp time_delta half p s Hlen)
    as (rows & Hrows & _ & Hat).
  destruct (Hat j Hj) as (pj & Hpj & Hdense & Hexg).
  pose proof (@parse_base_package_counter QArith_exact H bd buf pc_timestamp time_delta half
                Hok j pj Hpj) as Hc.
  do 4 eexists.
  split; [exact Hrows|]. split; [exact Hdense|]. split; [exact Hc|].
  split; [by apply Hexg|]. split.
  - apply (@parse_exg_package_counter QArith_exact); [done|].
    apply (@after_exg_counter QArith_exact); [done|]. exact Hc.
  - cbn [f64_add f64_of_int QArith_exact].
    rewrite incremented_exact. cbn [f64_of_int QArith_exact].
    rewrite !inject_Z_plus. ring.
Qed.

(** ** Rows and the previous frame *)

Section FreshRows.
Context `{FA : FloatArith} (H : GaleaSerialH) (bd : BoardDescr).
Context (buf : list byte) (pc_timestamp time_delta half : f64).
Hypothesis Hok : channel_map_ok bd.

#[local] Abbreviation parse_base := (parse_base_package H bd buf pc_timestamp time_delta half).

Lemma channel_map_stamp_ok : stamp_map_ok bd.
Proof.
  destruct (channel_map_facts bd Hok) as ((? & ? & ? & ? & ? & ?) & (? & ? & ? & ?) & _).
  split.
  - unfold stamp_channels. repeat constructor; repeat rewrite not_elem_of_cons;
      repeat split; try done; apply not_elem_of_nil.
  - unfold stamp_channels. by repeat constructor.
Qed.

(** The dense row does not depend on what the package array held in the
    channels of the decoder. *)
Lemma parse_base_package_forgets j (p p' : list f64) :
  length p = num_rows bd -> length p' = num_rows bd ->
  (forall c, c ∉ role_channels bd -> p !! c = p' !! c) ->
  parse_base j p = parse_base j p'.
Proof.
  intros Hlen Hlen' Hout. apply list_eq. intros c.
  destruct (decide (c ∈ role_channels bd)) as [Hin|Hnot].
  2:{ by rewrite !(parse_base_package_other H bd buf pc_timestamp time_delta half), Hout. }
  unfold role_channels in Hin.
  apply elem_of_cons in Hin as [->|Hin].
  { by rewrite !(parse_base_package_counter H bd buf pc_timestamp time_delta half Hok). }
  apply elem_of_app in Hin as [Hin|Hin].
  { pose proof (parse_base_package_stamp H bd buf pc_timestamp time_delta half
                  channel_map_stamp_ok j p Hlen) as (A0 & A1 & A2).
    pose proof (parse_base_package_stamp H bd buf pc_timestamp time_delta half
                  channel_map_stamp_ok j p' Hlen') as (B0 & B1 & B2).
    unfold stamp_channels in Hin. repeat rewrite elem_of_cons in Hin.
    destruct Hin as [->|[->|[->|Hin]]]; [congruence|congruence|congruence|].
    by apply elem_of_nil in Hin. }
  apply elem_of_app in Hin as [Hin|Hin].
  { pose proof (parse_base_package_aux H bd buf pc_timestamp time_delta half Hok j p Hlen)
      as (A0 & A1 & A2 & A3 & A4).
    pose proof (parse_base_package_aux H bd buf pc_timestamp time_delta half Hok j p' Hlen')
      as (B0 & B1 & B2 & B3 & B4).
    unfold aux_channels in Hin. repeat rewrite elem_of_cons in Hin.
    destruct Hin as [->|[->|[->|[->|[->|Hin]]]]];
      [congruence|congruence|congruence|congruence|congruence|].
    by apply elem_of_nil in Hin. }
  apply in_samples in Hin.
  replace c with ((c - 1) + 1) by lia.
  by rewrite !(parse_base_package_sample H bd buf pc_timestamp time_delta half Hok)
    by (done || lia).
Qed.

(** The package array is reused from one frame to the next, but with a
    consistent channel map nothing of the previous frame gets into the
    rows: two package arrays of the right length that agree outside the
    channels of the decoder give the same rows, and the same array after
    the frame. *)
Theorem rows_do_not_depend_on_previous_frame (p p' : list f64) (s : list (list f64)) :
  length p = num_rows bd -> length p' = num_rows bd ->
  0 < num_base_packages H ->
  (forall c, c ∉ role_channels bd -> p !! c = p' !! c) ->
  decode_frame H bd buf pc_timestamp time_delta half (p, s) =
  decode_frame H bd buf pc_timestamp time_delta half (p', s).
Proof.
  intros Hlen Hlen' Hn Hout. unfold decode_frame.
  destruct (num_base_packages H) as [|n]; [lia|].
  cbn [seq foldl]. rewrite !base_step_eq. cbn [fst snd].
  unfold base_final, base_rows.
  by rewrite (parse_base_package_forgets 0 p p').
Qed.

End FreshRows.

(** ** Every row of a frame *)

Section EveryRow.
Context `{FA : FloatArith} (H : GaleaSerialH) (bd : BoardDescr).
Context (buf : list byte) (pc_timestamp time_delta half : f64).

(** What holds of the row of every base package and of the row of every
    exg package, built from an array of [n] entries, holds of every row of
    a frame. *)
Lemma frame_rows_Forall (P : list f64 -> Prop) n :
  (forall j q, length q = n ->
     P (parse_base_package H bd buf pc_timestamp time_delta half j q)) ->
  (forall offset k q, length q = n ->
     P (parse_exg_package H bd buf pc_timestamp time_delta half offset k q)) ->
  forall js p, length p = n ->
    Forall P (frame_rows H bd buf pc_timestamp time_delta half p js).
Proof.
  intros Hbase Hexg.
  assert (Hscan : forall offset ks q, length q = n ->
            Forall P (scan (fun p k => parse_exg_package H bd buf pc_timestamp time_delta half
                                         offset k p) q ks)).
  { intros offset ks. induction ks as [|k ks IH]; intros q Hq; cbn [scan]; [constructor|].
    constructor; [by apply Hexg|]. apply IH. by rewrite parse_exg_package_length. }
  induction js as [|j js IH]; intros p Hp; cbn [frame_rows]; [constructor|].
  apply Forall_app. split.
  - unfold base_rows. constructor; [by apply Hbase|].
    apply Hscan. by rewrite parse_base_package_length.
  - apply IH. by rewrite base_final_length.
Qed.

End EveryRow.

(** In exact arithmetic, under a channel map that keeps the time stamps
    apart, every row of a frame has the same distance between its
    timestamp channel and its device time (the second of the
    [other_channels]): the smoothed offset minus [half_rtt]. So the time
    between two rows of a frame on the timestamp channel is the time
    between them on the device; and every row holds the host arrival time
    of the frame in the first of the [other_channels]. *)
Theorem frame_offset_is_constant (H : GaleaSerialH) (bd : BoardDescr) (buf : list byte)
    (pc_timestamp time_delta half : Q) (p : list Q) (s : list (list Q)) :
  stamp_map_ok bd -> length p = num_rows bd ->
  exists rows,
    (@decode_frame QArith_exact H bd buf pc_timestamp time_delta half (p, s)).2 = s ++ rows /\
    Forall (fun row =>
              exists stamp device,
                row !! timestamp_channel bd = Some stamp /\
                row !! (other_channels bd).2 = Some device /\
                row !! (other_channels bd).1 = Some pc_timestamp /\
                (stamp - device == time_delta - half)%Q) rows.
Proof.
  intros Hst Hlen. unfold decode_frame.
  rewrite (@decode_fold_eq QArith_exact H bd buf pc_timestamp time_delta half p s). cbn [snd].
  eexists. split; [reflexivity|].
  apply (@frame_rows_Forall QArith_exact H bd buf pc_timestamp time_delta half _ (num_rows bd));
    [| |done].
  - intros j q Hq.
    destruct (@parse_base_package_stamp QArith_exact H bd buf pc_timestamp time_delta half
                Hst j q Hq) as (A0 & A1 & A2).
    do 2 eexists. split; [exact A0|]. split; [exact A2|]. split; [exact A1|].
    cbn [f64_sub f64_add f64_of_f32 QArith_exact]. ring.
  - intros offset k q Hq.
    destruct (@parse_exg_package_stamp QArith_exact H bd buf pc_timestamp time_delta half
                Hst offset k q Hq) as (A0 & A1 & A2).
    do 2 eexists. split; [exact A0|]. split; [exact A2|]. split; [exact A1|].
    cbn [f64_sub f64_add f64_of_f32 QArith_exact]. ring.
Qed.

(** ** The acquisition loop on a byte stream *)

Section StreamFacts.
Context `{FA : FloatArith} (H : GaleaSerialH) (bd : BoardDescr).

(** A read from a port that does not time out delivers a non-empty prefix
    of the pending bytes. *)
Lemma take_chunk_stream size (chunks : list (list byte)) x tl :
  Forall (fun c => c <> []) chunks -> 0 < size -> concat chunks = x :: tl ->
  (take_chunk size chunks).1 <> [] /\
  concat chunks = (take_chunk size chunks).1 ++ concat (take_chunk size chunks).2 /\
  Forall (fun c => c <> []) (take_chunk size chunks).2.
Proof.
  intros Hne Hsize Hcat. destruct chunks as [|c rest]; [done|].
  apply Forall_cons in Hne as [Hc Hrest]. cbn [take_chunk].
  destruct (length c <=? size) eqn:Hle; cbn [fst snd].
  - done.
  - apply Nat.leb_gt in Hle. repeat split.
    + intros Heq. apply (f_equal length) in Heq. rewrite length_take in Heq.
      simpl in Heq. lia.
    + cbn [concat]. by rewrite app_assoc, take_drop.
    + constructor; [|done]. intros Heq. apply (f_equal length) in Heq.
      rewrite length_drop in Heq. simpl in Heq. lia.
Qed.

Lemma take_chunk_one (chunks : list (list byte)) x tl :
  Forall (fun c => c <> []) chunks -> concat chunks = x :: tl ->
  (take_chunk 1 chunks).1 = [x] /\
  concat (take_chunk 1 chunks).2 = tl /\
  Forall (fun c => c <> []) (take_chunk 1 chunks).2.
Proof.
  intros Hne Hcat.
  destruct (take_chunk_stream 1 chunks x tl Hne) as (Hd & Heq & Hrest); [lia|done|].
  pose proof (take_chunk_length 1 chunks) as Hlen.
  destruct (take_chunk 1 chunks).1 as [|y [|z data]] eqn:Hdata; [done| |simpl in Hlen; lia].
  rewrite Hcat in Heq. simpl in Heq. by inversion Heq.
Qed.

(** The loop that accumulates the body, on a port that does not time out:
    it returns the next [rem] pending bytes, however many reads they take. *)
Lemma read_remaining_stream fuel (acc buf0 body tl : list byte) rem
    (s : Session) (w : World) p :
  serial s = Some p -> no_timeouts w -> pending w = body ++ tl ->
  length body = rem -> rem <= alive_reads w -> alive_reads w < fuel ->
  exists w' evs,
    read_remaining fuel (acc ++ drop (length acc) buf0) rem (length acc) (s, w) =
      Ok (acc ++ body ++ drop (length acc + length body) buf0, 0) (s, w') /\
    pending w' = tl /\ no_timeouts w' /\
    alive_reads w - rem <= alive_reads w' <= alive_reads w /\
    clock w' = clock w /\
    trace w' = evs ++ trace w /\ Forall is_read evs.
Proof.
  intros Hp. revert acc body rem w.
  induction fuel as [|fuel IH]; intros acc body rem w Hnt Hpend Hlen Hbudget Hfuel; [lia|].
  cbn [read_remaining].
  destruct (0 <? rem) eqn:Hrem; cbn [negb].
  { apply Nat.ltb_lt in Hrem.
    rewrite run_read_keep_alive.
    assert (Halive : (0 <? alive_reads w) = true) by (apply Nat.ltb_lt; lia).
    rewrite Halive. cbn [negb].
    rewrite (run_read _ _ _ _ p Hp). cbv beta zeta.
    set (w1 := set_alive_reads _ w).
    destruct body as [|x body0] eqn:Hbody; [simpl in Hlen; lia|].
    destruct (take_chunk_stream rem (incoming w) x (body0 ++ tl) Hnt Hrem Hpend)
      as (Hd & Heq & Hrest).
    change (take_chunk rem (incoming w)).1 with (next_read w1 rem) in Hd, Heq.
    set (data := next_read w1 rem) in *.
    assert (Hdata : length data <= rem) by apply take_chunk_length.
    assert (Hdata' : 0 < length data) by (destruct data; [done|simpl; lia]).
    unfold pending in Hpend. rewrite Hpend in Heq. rewrite <- Hbody in *.
    assert (Hsplit : body = data ++ drop (length data) body /\
                     concat (take_chunk rem (incoming w)).2 = drop (length data) body ++ tl).
    { rewrite <- (take_drop (length data) body) in Heq at 1.
      rewrite <- app_assoc in Heq.
      apply app_inj_1 in Heq as [Ht Hd']; [|rewrite length_take; lia].
      split; [|done]. by rewrite <- Ht at 1; rewrite take_drop. }
    destruct Hsplit as [Hsplit Hrestcat].
    rewrite store_append.
    replace (length acc + length data) with (length (acc ++ data)) by by rewrite length_app.
    match goal with |- context [read_remaining fuel _ _ _ (s, ?w2)] =>
      destruct (IH (acc ++ data) (drop (length data) body) (rem - length data) w2)
        as (w' & evs & Hrun & Hp' & Hnt' & Hal & Hclk & Htr & Hev)
    end.
    { exact Hrest. }
    { exact Hrestcat. }
    { rewrite length_drop. lia. }
    { unfold w1. wsimpl. lia. }
    { unfold w1. wsimpl. lia. }
    exists w', (evs ++ [EvRead rem data]).
    split.
    { rewrite Hrun. do 2 f_equal.
      rewrite length_app, length_drop, <- app_assoc. f_equal.
      rewrite app_assoc. f_equal; [symmetry; exact Hsplit|f_equal; lia]. }
    split; [done|]. split; [done|].
    unfold w1 in Hal, Hclk, Htr. wsimpl.
    split; [lia|]. split; [done|].
    split; [rewrite Htr; by rewrite <- app_assoc|].
    apply Forall_app. split; [done|]. constructor; [by do 2 eexists|constructor]. }
  apply Nat.ltb_ge in Hrem.
  assert (body = []) as -> by (destruct body; [done|simpl in Hlen; lia]).
  exists w, []. rewrite Nat.add_0_r. replace rem with 0 by lia.
  repeat split; try done; try lia.
Qed.

Lemma set_state_same (s : Session) v : state s = v -> set_state v s = s.
Proof. destruct s. simpl. by intros ->. Qed.

Lemma is_read_not_notify evs : Forall is_read evs -> EvNotify ∉ evs.
Proof.
  intros Hall Hin. rewrite Forall_forall in Hall.
  by destruct (Hall _ Hin) as (? & ? & ?).
Qed.

(** A frame on a port that does not time out. *)
Lemma read_iteration_frame
    (l : ThreadLocals) (s : Session) (w : World) (p : Serial) (body more : list byte) :
  serial s = Some p ->
  0 < transaction_size H ->
  length (b l) = transaction_size H ->
  no_timeouts w ->
  pending w = start_byte H :: body ++ stop_byte H :: more ->
  length body = transaction_size H ->
  transaction_size H < alive_reads w ->
  let pc := clock_at w 0 in
  let o := observe pc
             (timestamp_device_at body
                (64 + bytes_in_single_entry H * (num_base_packages H - 1)))
             (time_buffer l) in
  let d := decode_frame H bd body pc o.2 (half_rtt s) (package l, sink s) in
  exists w' evs,
    read_iteration H bd l (s, w) =
      Ok ({| b := body; time_buffer := o.1; package := d.1 |}, Continue)
         (set_sink d.2 (set_state STATUS_OK s), w') /\
    pending w' = more /\ no_timeouts w' /\
    clock w' = tail (clock w) /\
    alive_reads w - transaction_size H - 1 <= alive_reads w' <= alive_reads w /\
    trace w' = evs ++ trace w /\
    (EvNotify ∈ evs <-> state s <> STATUS_OK).
Proof.
  intros Hp Hpos Hlen Hnt Hpend Hbody Hbudget. cbn zeta. unfold read_iteration.
  rewrite (run_read _ _ _ _ p Hp). cbv beta zeta.
  destruct (take_chunk_one (incoming w) _ _ Hnt Hpend) as (Hfirst & Hrest & Hnt1).
  change (take_chunk 1 (incoming w)).1 with (next_read w 1) in Hfirst.
  rewrite Hfirst. cbn [length Nat.eqb negb].
  rewrite run_get_timestamp. cbn [b]. rewrite peek_store_first by done.
  cbn [lookup list_lookup default].
  rewrite (proj2 (byte_eqb_eq _ _) eq_refl). cbn [negb].
  rewrite run_asks.
  match goal with |- context [bind (read_remaining ?fuel ?buf _ 0) _ (s, ?w1)] =>
    destruct (read_remaining_stream fuel [] buf body (stop_byte H :: more)
                (transaction_size H) s w1 p Hp)
      as (w2 & evs & Heq & Hp2 & Hnt2 & Hal & Hclk & Htr & Hev);
      [exact Hnt1|exact Hrest|exact Hbody|wsimpl; lia|wsimpl; lia|];
    change buf with ([] ++ drop (length (@nil byte)) buf);
    change 0 with (length (@nil byte)) at 1;
    rewrite (run_ok _ _ _ _ _ Heq)
  end.
  wsimpl.
  cbn [fst snd app length Nat.add time_buffer package].
  rewrite drop_ge, app_nil_r by (rewrite store_first_length; simpl; lia).
  rewrite run_read_keep_alive.
  assert (Halive : (0 <? alive_reads w2) = true) by (apply Nat.ltb_lt; lia).
  rewrite Halive. cbn [negb].
  rewrite (run_read _ _ _ _ p Hp). cbv beta zeta.
  set (w3 := set_alive_reads _ w2).
  destruct (take_chunk_one (incoming w2) _ _ Hnt2 Hp2) as (Hlast & Hrest3 & Hnt3).
  change (take_chunk 1 (incoming w2)).1 with (next_read w3 1) in Hlast.
  change (take_chunk 1 (incoming w2)).2 with (take_chunk 1 (incoming w3)).2 in Hrest3, Hnt3.
  rewrite Hlast. cbn [length Nat.eqb negb lookup list_lookup default].
  rewrite (proj2 (byte_eqb_eq _ _) eq_refl). cbn [negb].
  rewrite run_gets.
  destruct (bool_decide (state s = STATUS_OK)) eqn:Hstate; cbn [negb].
  - apply bool_decide_eq_true in Hstate.
    rewrite run_ret.
    cbv [process_frame bind gets modify ret]. wsimpl. cbn [b time_buffer package].
    rewrite (set_state_same s STATUS_OK Hstate).
    do 2 eexists. split; [reflexivity|]. unfold w3. wsimpl.
    split; [done|]. split; [done|]. split; [done|]. split; [lia|].
    split.
    { rewrite Htr. cbn [app].
      instantiate (1 := EvRead 1 [stop_byte H] :: evs ++ [EvRead 1 [start_byte H]]).
      cbn [app]. by rewrite <- app_assoc. }
    split; [|done]. intros Hin.
    apply elem_of_cons in Hin as [Hin|Hin]; [done|].
    apply elem_of_app in Hin as [Hin|Hin]; [by apply is_read_not_notify in Hin|].
    apply elem_of_cons in Hin as [Hin|Hin]; [done|by apply elem_of_nil in Hin].
  - apply bool_decide_eq_false in Hstate.
    rewrite run_bind, run_modify, run_act.
    cbv [process_frame bind gets modify ret]. wsimpl. cbn [b time_buffer package].
    do 2 eexists. split; [reflexivity|]. unfold w3. wsimpl.
    split; [done|]. split; [done|]. split; [done|]. split; [lia|].
    split.
    { rewrite Htr. cbn [app].
      instantiate (1 := EvNotify :: EvRead 1 [stop_byte H] :: evs ++ [EvRead 1 [start_byte H]]).
      cbn [app]. by rewrite <- app_assoc. }
    split; [done|]. intros _. by left.
Qed.

Lemma locals_eta (l : ThreadLocals) :
  {| b := b l; time_buffer := time_buffer l; package := package l |} = l.
Proof. by destruct l. Qed.

Lemma store_nothing (buf : list byte) : store buf 0 [] = buf.
Proof. unfold store. by rewrite take_0, drop_0. Qed.

(** A byte that is not the start sentinel costs one iteration. *)
Lemma read_loop_junk_step fuel (l : ThreadLocals) (s : Session) (w : World) p x tl :
  serial s = Some p -> no_timeouts w -> pending w = x :: tl ->
  x <> start_byte H -> 0 < alive_reads w ->
  exists w',
    read_loop H bd (S fuel) l (s, w) =
      read_loop H bd fuel
        {| b := store (b l) 0 [x]; time_buffer := time_buffer l; package := package l |}
        (s, w') /\
    pending w' = tl /\ no_timeouts w' /\
    alive_reads w' = pred (alive_reads w) /\
    clock w' = tail (clock w) /\
    trace w' = EvRead 1 [x] :: trace w.
Proof.
  intros Hp Hnt Hpend Hx Halive. cbn [read_loop].
  rewrite run_read_keep_alive.
  apply Nat.ltb_lt in Halive. rewrite Halive. cbn [negb].
  unfold read_iteration. rewrite run_bind.
  rewrite (run_read _ _ _ _ p Hp). cbv beta zeta.
  set (w1 := set_alive_reads _ w).
  destruct (take_chunk_one (incoming w) _ _ Hnt Hpend) as (Hfirst & Hrest & Hnt1).
  change (take_chunk 1 (incoming w)).1 with (next_read w1 1) in Hfirst.
  change (take_chunk 1 (incoming w)).2 with (take_chunk 1 (incoming w1)).2 in Hrest, Hnt1.
  rewrite Hfirst. cbn [length Nat.eqb negb].
  rewrite run_bind, run_get_timestamp. cbn [b]. rewrite peek_store_first by done.
  change (default "000"%byte ([x] !! 0)) with x.
  destruct (Byte.eqb x (start_byte H)) eqn:Hstart; [by apply byte_eqb_eq in Hstart|].
  cbn [negb]. rewrite run_ret. cbn [fst snd].
  eexists. split; [reflexivity|]. unfold w1. wsimpl. done.
Qed.

(** On a silent port the loop spins until [keep_alive] is cleared. *)
Lemma read_loop_idle fuel (l : ThreadLocals) (s : Session) (w : World) p :
  serial s = Some p -> incoming w = [] -> alive_reads w < fuel ->
  exists w' evs,
    read_loop H bd fuel l (s, w) = Ok l (s, w') /\
    incoming w' = [] /\ clock w' = clock w /\ alive_reads w' = 0 /\
    trace w' = evs ++ trace w /\
    evs = replicate (alive_reads w) (EvRead 1 []).
Proof.
  intros Hp. revert w. induction fuel as [|fuel IH]; intros w Hin Hfuel; [lia|].
  cbn [read_loop]. rewrite run_read_keep_alive.
  destruct (0 <? alive_reads w) eqn:Halive; cbn [negb].
  2:{ apply Nat.ltb_ge in Halive. eexists. exists []. split; [reflexivity|]. wsimpl.
      assert (Hz : alive_reads w = 0) by lia. rewrite Hz. done. }
  apply Nat.ltb_lt in Halive.
  unfold read_iteration. rewrite run_bind.
  rewrite (run_read _ _ _ _ p Hp). cbv beta zeta.
  unfold next_read. wsimpl. rewrite Hin. cbn [take_chunk fst snd length Nat.eqb negb].
  rewrite run_ret. cbn [fst snd]. rewrite store_nothing, locals_eta.
  match goal with |- context [read_loop H bd fuel l (s, ?w1)] =>
    destruct (IH w1) as (w' & evs & Heq & Hin' & Hclk & Hal & Htr & Hevs)
  end.
  { done. }
  { wsimpl. lia. }
  wsimpl. exists w', (evs ++ [EvRead 1 []]).
  split; [done|]. split; [done|]. split; [done|]. split; [done|].
  split; [rewrite Htr; by rewrite <- app_assoc|].
  rewrite Hevs. destruct (alive_reads w) as [|n]; [lia|].
  cbn [pred]. by rewrite replicate_S_end.
Qed.

Lemma pending_nil (w : World) : no_timeouts w -> pending w = [] -> incoming w = [].
Proof.
  unfold no_timeouts, pending. destruct (incoming w) as [|c rest]; [done|].
  intros [Hc _]%Forall_cons. by destruct c.
Qed.

Lemma decode_frame_sink_length buf pc_timestamp time_delta half (pkg : list f64) rows0 :
  length (decode_frame H bd buf pc_timestamp time_delta half (pkg, rows0)).2 =
  length rows0 + num_base_packages H * S (num_exg_packages_per_base H).
Proof.
  unfold decode_frame. rewrite decode_fold_eq. cbn [snd].
  by rewrite length_app, frame_rows_length, length_seq.
Qed.

(** A stream of well-formed frames. *)
Lemma read_loop_frames fuel (bodies : list (list byte))
    (l : ThreadLocals) (s : Session) (w : World) (p : Serial) :
  serial s = Some p ->
  0 < transaction_size H ->
  length (b l) = transaction_size H ->
  no_timeouts w ->
  pending w = frames_bytes H bodies ->
  Forall (fun body => length body = transaction_size H) bodies ->
  length bodies * (transaction_size H + 2) <= alive_reads w ->
  alive_reads w < fuel ->
  exists l' s' w',
    read_loop H bd fuel l (s, w) = Ok l' (s', w') /\
    length (sink s') =
      length (sink s) +
      length bodies * (num_base_packages H * S (num_exg_packages_per_base H)) /\
    state s' = (if bodies is [] then state s else STATUS_OK) /\
    clock w' = drop (length bodies) (clock w) /\
    incoming w' = [].
Proof.
  intros Hp Hpos. revert fuel l s w Hp.
  induction bodies as [|body bodies IH]; intros fuel l s w Hp Hlen Hnt Hpend Hall Hbudget Hfuel.
  - destruct (read_loop_idle fuel l s w p Hp) as (w' & evs & Heq & Hin & Hclk & _);
      [by apply pending_nil|done|].
    exists l, s, w'. split; [done|]. cbn [length Nat.mul]. rewrite Nat.add_0_r.
    by rewrite drop_0.
  - apply Forall_cons in Hall as [Hbody Hall].
    cbn [length Nat.mul] in Hbudget.
    destruct fuel as [|fuel]; [lia|].
    cbn [read_loop]. rewrite run_read_keep_alive.
    assert (Halive : (0 <? alive_reads w) = true) by (apply Nat.ltb_lt; lia).
    rewrite Halive. cbn [negb].
    match goal with |- context [bind (read_iteration H bd l) _ (s, ?w1)] =>
      destruct (read_iteration_frame l s w1 p body (frames_bytes H bodies) Hp Hpos Hlen)
        as (w2 & evs & Heq & Hp2 & Hnt2 & Hclk & Hal & _)
    end.
    { exact Hnt. }
    { change (pending w = start_byte H :: body ++ stop_byte H :: frames_bytes H bodies).
      rewrite Hpend. unfold frames_bytes. cbn [map concat app].
      by rewrite <- app_assoc. }
    { done. }
    { wsimpl. lia. }
    rewrite (run_ok _ _ _ _ _ Heq). cbn [fst snd].
    wsimpl.
    match goal with |- context [read_loop H bd fuel ?l1 (?s1, w2)] =>
      destruct (IH fuel l1 s1 w2) as (l' & s' & w' & Hrun & Hsink & Hstate & Hclk' & Hin')
    end.
    { done. }
    { done. }
    { done. }
    { done. }
    { done. }
    { lia. }
    { lia. }
    exists l', s', w'. split; [done|].
    wsimpl. rewrite decode_frame_sink_length in Hsink.
    split; [rewrite Hsink; cbn [length]; lia|].
    split; [by destruct bodies|].
    split; [|done]. rewrite Hclk', Hclk. cbn [length].
    destruct (clock w); [cbn [tail]; by rewrite !drop_nil|done].
Qed.

(** Bytes before the first start sentinel cost one iteration each. *)
Lemma read_loop_junk fuel (junk more : list byte)
    (l : ThreadLocals) (s : Session) (w : World) (p : Serial) :
  serial s = Some p ->
  0 < transaction_size H ->
  length (b l) = transaction_size H ->
  no_timeouts w ->
  pending w = junk ++ more ->
  Forall (fun x => x <> start_byte H) junk ->
  length junk <= alive_reads w ->
  exists l' w',
    read_loop H bd (length junk + fuel) l (s, w) = read_loop H bd fuel l' (s, w') /\
    package l' = package l /\ time_buffer l' = time_buffer l /\
    length (b l') = transaction_size H /\
    pending w' = more /\ no_timeouts w' /\
    alive_reads w' = alive_reads w - length junk /\
    clock w' = drop (length junk) (clock w) /\
    trace w' = reverse (map (fun x => EvRead 1 [x]) junk) ++ trace w.
Proof.
  intros Hp Hpos. revert l w.
  induction junk as [|x junk IH]; intros l w Hlen Hnt Hpend Hall Hbudget.
  - exists l, w. cbn [length Nat.add map reverse app]. rewrite Nat.sub_0_r, drop_0. done.
  - apply Forall_cons in Hall as [Hx Hall]. cbn [length] in Hbudget.
    cbn [length Nat.add].
    destruct (read_loop_junk_step (length junk + fuel) l s w p x (junk ++ more))
      as (w1 & Heq & Hp1 & Hnt1 & Hal1 & Hclk1 & Htr1); [done|done|done|done|lia|].
    rewrite Heq.
    match goal with |- context [read_loop H bd _ ?l1 (s, w1)] =>
      destruct (IH l1 w1) as (l' & w' & Heq' & Hpk & Htb & Hbl & Hp' & Hnt' & Hal' & Hclk' & Htr')
    end.
    { cbn [b]. rewrite store_first_length. simpl. lia. }
    { done. }
    { done. }
    { done. }
    { lia. }
    exists l', w'. split; [done|]. cbn [package time_buffer] in Hpk, Htb.
    split; [done|]. split; [done|]. split; [done|]. split; [done|]. split; [done|].
    split; [lia|]. split.
    + rewrite Hclk', Hclk1. destruct (clock w); [cbn [tail]; by rewrite !drop_nil|done].
    + rewrite Htr', Htr1. cbn [map]. rewrite reverse_cons, <- app_assoc. done.
Qed.

(** One frame whose bytes all arrive: whatever reads the bytes arrive in,
    the iteration takes one host time stamp (before the body is read),
    leaves the body in the buffer, sets [state] to [STATUS_OK], appends
    the [num_base_packages * (1 + num_exg_packages_per_base)] rows of the
    decoder to the sink, consumes exactly the frame, and notifies the
    control thread exactly when [state] was not [STATUS_OK] before. *)
Theorem frame_is_decoded
    (l : ThreadLocals) (s : Session) (w : World) (p : Serial) (body more : list byte) :
  serial s = Some p ->
  0 < transaction_size H ->
  length (b l) = transaction_size H ->
  no_timeouts w ->
  pending w = start_byte H :: body ++ stop_byte H :: more ->
  length body = transaction_size H ->
  transaction_size H < alive_reads w ->
  let pc := clock_at w 0 in
  let o := observe pc
             (timestamp_device_at body
                (64 + bytes_in_single_entry H * (num_base_packages H - 1)))
             (time_buffer l) in
  let d := decode_frame H bd body pc o.2 (half_rtt s) (package l, sink s) in
  exists w' evs,
    read_iteration H bd l (s, w) =
      Ok ({| b := body; time_buffer := o.1; package := d.1 |}, Continue)
         (set_sink d.2 (set_state STATUS_OK s), w') /\
    (exists rows,
       d.2 = sink s ++ rows /\
       length rows = num_base_packages H * (1 + num_exg_packages_per_base H)) /\
    pending w' = more /\ no_timeouts w' /\
    clock w' = tail (clock w) /\
    trace w' = evs ++ trace w /\
    (EvNotify ∈ evs <-> state s <> STATUS_OK).
Proof.
  intros Hp Hpos Hlen Hnt Hpend Hbody Hbudget. cbn zeta.
  destruct (read_iteration_frame l s w p body more Hp Hpos Hlen Hnt Hpend Hbody Hbudget)
    as (w' & evs & Heq & Hmore & Hnt' & Hclk & _ & Htr & Hnotify).
  exists w', evs. split; [exact Heq|]. split.
  { unfold decode_frame. rewrite decode_fold_eq. cbn [snd].
    eexists. split; [reflexivity|]. by rewrite frame_rows_length, length_seq. }
  split; [exact Hmore|]. split; [exact Hnt'|]. split; [exact Hclk|].
  split; [exact Htr|exact Hnotify].
Qed.

(** The acquisition thread on a stream of [junk] bytes, none of them the
    start sentinel, followed by well-formed frames, on a port that does
    not time out while bytes are pending: with enough turns before
    [keep_alive] is cleared, the thread returns, has pushed
    [num_base_packages * (1 + num_exg_packages_per_base)] rows per frame,
    has taken one host time stamp per junk byte and one per frame, has
    consumed the stream, and leaves [state] at [STATUS_OK] when there was
    a frame (and untouched when not). *)
Theorem read_thread_decodes_stream fuel (junk : list byte) (bodies : list (list byte))
    (s : Session) (w : World) (p : Serial) :
  serial s = Some p ->
  0 < transaction_size H ->
  no_timeouts w ->
  pending w = junk ++ frames_bytes H bodies ->
  Forall (fun x => x <> start_byte H) junk ->
  Forall (fun body => length body = transaction_size H) bodies ->
  length junk + length bodies * (transaction_size H + 2) <= alive_reads w ->
  alive_reads w < fuel ->
  exists l' s' w',
    read_thread H bd fuel (s, w) = Ok l' (s', w') /\
    length (sink s') =
      length (sink s) +
      length bodies * (num_base_packages H * S (num_exg_packages_per_base H)) /\
    state s' = (if bodies is [] then state s else STATUS_OK) /\
    clock w' = drop (length junk + length bodies) (clock w) /\
    incoming w' = [].
Proof.
  intros Hp Hpos Hnt Hpend Hjunk Hall Hbudget Hfuel. unfold read_thread.
  replace fuel with (length junk + (fuel - length junk)) by lia.
  destruct (read_loop_junk (fuel - length junk) junk (frames_bytes H bodies)
              (read_thread_locals H bd) s w p Hp Hpos)
    as (l1 & w1 & Heq & _ & _ & Hbl & Hp1 & Hnt1 & Hal1 & Hclk1 & _);
    [apply length_replicate|done|done|done|lia|].
  rewrite Heq.
  destruct (read_loop_frames (fuel - length junk) bodies l1 s w1 p Hp Hpos Hbl Hnt1 Hp1 Hall)
    as (l' & s' & w' & Hrun & Hsink & Hstate & Hclk & Hin); [lia|lia|].
  exists l', s', w'. split; [done|]. split; [done|]. split; [done|]. split; [|done].
  by rewrite Hclk, Hclk1, drop_drop.
Qed.

(** On a silent port (no byte ever arrives) the acquisition thread takes
    no time stamp and changes neither the session nor its locals: the
    buffer stays zeroed and nothing is pushed. It makes one single-byte
    read per turn, each timing out, and returns when [keep_alive] is
    cleared. *)
Theorem silent_port_idles fuel (s : Session) (w : World) (p : Serial) :
  serial s = Some p -> incoming w = [] -> alive_reads w < fuel ->
  exists w',
    read_thread H bd fuel (s, w) = Ok (read_thread_locals H bd) (s, w') /\
    incoming w' = [] /\ clock w' = clock w /\ alive_reads w' = 0 /\
    trace w' = replicate (alive_reads w) (EvRead 1 []) ++ trace w.
Proof.
  intros Hp Hin Hfuel. unfold read_thread.
  destruct (read_loop_idle fuel (read_thread_locals H bd) s w p Hp Hin Hfuel)
    as (w' & evs & Heq & Hin' & Hclk & Hal & Htr & Hevs).
  exists w'. split; [exact Heq|]. split; [exact Hin'|]. split; [exact Hclk|].
  split; [exact Hal|]. by rewrite Htr, Hevs.
Qed.

End StreamFacts.

Section BodyFacts.
Context `{FA : FloatArith}.

Lemma last_of_empty_chunks (chunks : list (list byte)) :
  chunks <> [] -> length (concat chunks) = 0 -> last chunks = Some [].
Proof.
  induction chunks as [|c chunks IH]; [done|]. intros _ Hlen.
  cbn [concat] in Hlen. rewrite length_app in Hlen.
  assert (c = []) as -> by (destruct c; [done|simpl in Hlen; lia]).
  destruct chunks as [|c' chunks]; [done|].
  rewrite last_cons. rewrite IH; [done|done|lia].
Qed.

(** The loop that accumulates the body, on reads that may be short or
    time out. *)
Lemma read_remaining_chunks (chunks rest : list (list byte)) :
  forall fuel (acc buf0 : list byte) rem (s : Session) (w : World) p,
  serial s = Some p ->
  incoming w = chunks ++ rest ->
  last chunks <> Some [] ->
  length (concat chunks) = rem ->
  length chunks <= alive_reads w -> alive_reads w < fuel ->
  exists w' evs,
    read_remaining fuel (acc ++ drop (length acc) buf0) rem (length acc) (s, w) =
      Ok (acc ++ concat chunks ++ drop (length acc + rem) buf0, 0) (s, w') /\
    incoming w' = rest /\
    alive_reads w' = alive_reads w - length chunks /\
    clock w' = clock w /\
    trace w' = evs ++ trace w /\
    map snd (reads_of evs) = chunks /\ length evs = length chunks.
Proof.
  induction chunks as [|c chunks IH];
    intros fuel acc buf0 rem s w p Hp Hin Hlast Hlen Hbudget Hfuel.
  - cbn [concat length] in Hlen. subst rem.
    destruct fuel as [|fuel]; [lia|]. cbn [read_remaining Nat.ltb Nat.leb negb].
    exists w, []. cbn [concat app length]. rewrite Nat.add_0_r, Nat.sub_0_r. done.
  - destruct fuel as [|fuel]; [lia|]. cbn [read_remaining].
    destruct (0 <? rem) eqn:Hrem; cbn [negb].
    2:{ apply Nat.ltb_ge in Hrem. exfalso. apply Hlast.
        apply last_of_empty_chunks; [done|lia]. }
    apply Nat.ltb_lt in Hrem.
    cbn [length] in Hbudget.
    rewrite run_read_keep_alive.
    assert (Halive : (0 <? alive_reads w) = true) by (apply Nat.ltb_lt; lia).
    rewrite Halive. cbn [negb].
    rewrite (run_read _ _ _ _ p Hp). cbv beta zeta.
    unfold next_read. wsimpl. rewrite Hin.
    cbn [concat] in Hlen. rewrite length_app in Hlen.
    cbn [app take_chunk].
    assert (Hle : (length c <=? rem) = true) by (apply Nat.leb_le; lia).
    rewrite Hle. cbn [fst snd].
    rewrite store_append.
    replace (length acc + length c) with (length (acc ++ c)) by by rewrite length_app.
    match goal with |- context [read_remaining fuel _ _ _ (s, ?w2)] =>
      destruct (IH fuel (acc ++ c) buf0 (rem - length c) s w2 p Hp)
        as (w' & evs & Hrun & Hin' & Hal & Hclk & Htr & Hreads & Hevs)
    end.
    { done. }
    { destruct chunks as [|c' chunks]; [done|]. by rewrite last_cons_cons in Hlast. }
    { lia. }
    { wsimpl. lia. }
    { wsimpl. lia. }
    wsimpl.
    exists w', (evs ++ [EvRead rem c]).
    split.
    { rewrite Hrun. do 2 f_equal. cbn [concat].
      rewrite length_app, <- !app_assoc.
      replace (length acc + length c + (rem - length c)) with (length acc + rem) by lia.
      done. }
    split; [done|]. split; [cbn [length]; lia|]. split; [done|].
    split; [rewrite Htr; by rewrite <- app_assoc|].
    split.
    + rewrite reads_of_app. cbn [reads_of app map snd]. by rewrite Hreads.
    + rewrite length_app. cbn [length]. lia.
Qed.

(** The body of a frame survives short reads and timeouts: when the next
    reads deliver [chunks] (an empty chunk is a read that timed out), the
    loop that accumulates the body makes one read per chunk, stores the
    chunks one behind the other from the start of the buffer, asks each
    time for the bytes still missing, and ends with nothing left to read;
    no time stamp is taken. *)
Theorem body_survives_short_reads (chunks rest : list (list byte))
    fuel (buf : list byte) rem (s : Session) (w : World) p :
  serial s = Some p ->
  incoming w = chunks ++ rest ->
  last chunks <> Some [] ->
  length (concat chunks) = rem ->
  length chunks <= alive_reads w -> alive_reads w < fuel ->
  exists w' evs,
    read_remaining fuel buf rem 0 (s, w) =
      Ok (concat chunks ++ drop rem buf, 0) (s, w') /\
    incoming w' = rest /\
    alive_reads w' = alive_reads w - length chunks /\
    clock w' = clock w /\
    trace w' = evs ++ trace w /\
    map snd (reads_of evs) = chunks /\ length evs = length chunks.
Proof.
  intros Hp Hin Hlast Hlen Hbudget Hfuel.
  apply (read_remaining_chunks chunks rest fuel [] buf rem s w p); done.
Qed.

End BodyFacts.

(** * Further properties of the session *)

(** ** The clock probe *)

Section ProbeFacts.
Context `{FA : FloatArith}.

(** A probe written and answered in full. *)
Lemma calc_time_ok_run resp (s : Session) (w : World) (p : Serial) :
  serial s = Some p ->
  probe_ok w ->
  calc_time resp (s, w) =
    Ok (STATUS_OK, Some (probe_result w)) (set_half_rtt (probe_half_rtt w) s, after_probe w).
Proof.
  intros Hp [Hsend Hread]. unfold calc_time.
  rewrite run_get_timestamp, (run_send _ _ _ _ _ p Hp).
  change (next_send_result (set_clock (tail (clock w)) w) 5) with (next_send_result w 5).
  rewrite Hsend. cbn [Z.eqb Pos.eqb negb].
  rewrite (run_read _ _ _ _ p Hp), run_get_timestamp.
  change (next_read (set_send_results _ (log _ (set_clock _ w))) 4) with (next_read w 4).
  rewrite Hread. cbn [Nat.eqb negb].
  rewrite run_modify, run_gets.
  unfold ret, probe_result, probe_half_rtt, after_probe, after_clock, after_read, after_send,
    probe_command, clock_at, next_read.
  wsimpl. by destruct (clock w).
Qed.

(** The two ways a probe fails. *)
Lemma calc_time_fail_run resp (s : Session) (w : World) (p : Serial) :
  serial s = Some p ->
  (next_send_result w 5 <> 5%Z ->
   calc_time resp (s, w) =
     Ok (BOARD_WRITE_ERROR, resp) (s, after_send probe_command (after_clock w))) /\
  (next_send_result w 5 = 5%Z -> length (next_read w 4) <> 4 ->
   calc_time resp (s, w) = Ok (BOARD_WRITE_ERROR, resp) (s, after_probe w)).
Proof.
  intros Hp. split.
  - intros Hsend. unfold calc_time.
    rewrite run_get_timestamp, (run_send _ _ _ _ _ p Hp).
    change (next_send_result (set_clock (tail (clock w)) w) 5) with (next_send_result w 5).
    apply Z.eqb_neq in Hsend. rewrite Hsend. done.
  - intros Hsend Hread. unfold calc_time.
    rewrite run_get_timestamp, (run_send _ _ _ _ _ p Hp).
    change (next_send_result (set_clock (tail (clock w)) w) 5) with (next_send_result w 5).
    rewrite Hsend. cbn [Z.eqb Pos.eqb negb].
    rewrite (run_read _ _ _ _ p Hp), run_get_timestamp.
    change (next_read (set_send_results _ (log _ (set_clock _ w))) 4) with (next_read w 4).
    apply Nat.eqb_neq in Hread. rewrite Hread. done.
Qed.

End ProbeFacts.

Section LifeCycleFacts.
Context `{FA : FloatArith}.

Lemma same_but_half_rtt_refl (s : Session) : same_but_half_rtt s s.
Proof. by repeat split. Qed.

Lemma same_but_half_rtt_set v (s : Session) : same_but_half_rtt s (set_half_rtt v s).
Proof. by repeat split. Qed.

Lemma same_but_half_rtt_trans (s1 s2 s3 : Session) :
  same_but_half_rtt s1 s2 -> same_but_half_rtt s2 s3 -> same_but_half_rtt s1 s3.
Proof.
  unfold same_but_half_rtt. intros H1 H2.
  destruct H1 as (?&?&?&?&?&?&?&?), H2 as (?&?&?&?&?&?&?&?).
  repeat split; congruence.
Qed.

(** The probe never touches anything of the session but [half_rtt], and
    only adds to the trace. *)
Lemma calc_time_keeps resp (s : Session) (w : World) p :
  serial s = Some p ->
  exists r s' w' evs,
    calc_time resp (s, w) = Ok r (s', w') /\
    same_but_half_rtt s s' /\ trace w' = evs ++ trace w /\
    acquisition_res w' = acquisition_res w /\
    first_frame_in_time w' = first_frame_in_time w.
Proof.
  intros Hp.
  destruct (decide (next_send_result w 5 = 5%Z)) as [Hsend|Hsend].
  - destruct (decide (length (next_read w 4) = 4)) as [Hread|Hread].
    + rewrite (calc_time_ok_run resp s w p Hp (conj Hsend Hread)).
      do 3 eexists. exists [EvRead 4 (next_read w 4); EvSend probe_command].
      split; [reflexivity|]. split; [apply same_but_half_rtt_set|]. done.
    + rewrite (proj2 (calc_time_fail_run resp s w p Hp) Hsend Hread).
      do 3 eexists. exists [EvRead 4 (next_read w 4); EvSend probe_command].
      split; [reflexivity|]. split; [apply same_but_half_rtt_refl|]. done.
  - rewrite (proj1 (calc_time_fail_run resp s w p Hp) Hsend).
    do 3 eexists. exists [EvSend probe_command].
    split; [reflexivity|]. split; [apply same_but_half_rtt_refl|]. done.
Qed.

Lemma calc_time_loop_keeps n resp (s : Session) (w : World) p :
  serial s = Some p ->
  exists r s' w' evs,
    calc_time_loop n resp (s, w) = Ok r (s', w') /\
    same_but_half_rtt s s' /\ trace w' = evs ++ trace w /\
    acquisition_res w' = acquisition_res w /\
    first_frame_in_time w' = first_frame_in_time w.
Proof.
  revert resp s w. induction n as [|n IH]; intros resp s w Hp.
  - do 3 eexists. exists []. split; [reflexivity|].
    split; [apply same_but_half_rtt_refl|]. done.
  - cbn [calc_time_loop].
    destruct (calc_time_keeps resp s w p Hp)
      as (r & s1 & w1 & evs1 & Heq & Hsame & Htr & Hacq & Hseen).
    rewrite (run_ok _ _ _ _ _ Heq).
    destruct (decide (r.1 = STATUS_OK)).
    + destruct (IH r.2 s1 w1) as (r2 & s2 & w2 & evs2 & Heq2 & Hsame2 & Htr2 & Hacq2 & Hseen2).
      { destruct Hsame as (_ & _ & -> & _). done. }
      exists r2, s2, w2, (evs2 ++ evs1). split; [done|].
      split; [by eapply same_but_half_rtt_trans|].
      rewrite Htr2, Htr, Hacq2, Hseen2. by rewrite <- app_assoc.
    + exists r, s1, w1, evs1. done.
Qed.

End LifeCycleFacts.

(** ** [stop_stream] *)

Section StopFacts.
Context `{FA : FloatArith}.

Lemma take_chunk_steady_exact chunks :
  match steady_bytes chunks with
  | O => (take_chunk 1 chunks).1 = []
  | S n => length (take_chunk 1 chunks).1 = 1 /\ steady_bytes (take_chunk 1 chunks).2 = n
  end.
Proof.
  destruct chunks as [|c rest]; cbn [steady_bytes take_chunk]; [done|].
  destruct (length c =? 0) eqn:Hz.
  - apply Nat.eqb_eq in Hz. apply nil_length_inv in Hz as ->. done.
  - apply Nat.eqb_neq in Hz.
    destruct (length c + steady_bytes rest) as [|n] eqn:Hn; [lia|].
    destruct (length c <=? 1) eqn:Hle; cbn [fst snd].
    + apply Nat.leb_le in Hle. split; lia.
    + apply Nat.leb_gt in Hle. rewrite length_take. cbn [steady_bytes].
      rewrite length_drop.
      destruct (length c - 1 =? 0) eqn:Hz'; [apply Nat.eqb_eq in Hz'; lia|]. lia.
Qed.

(** The loop that frees the kernel buffer ends at the first read that
    times out, when that happens before the cap. *)
Lemma drain_loop_ends cap fuel a (s : Session) (w : World) p :
  serial s = Some p -> cap - a <= fuel ->
  a + steady_bytes (incoming w) + 1 < cap ->
  exists w' reads,
    drain_loop cap fuel a (s, w) = Ok None (s, w') /\
    trace w' = reads ++ trace w /\
    length reads = steady_bytes (incoming w) + 1 /\
    Forall single_byte_read reads.
Proof.
  intros Hp. revert a w. induction fuel as [|fuel IH]; intros a w Hfuel Hsteady; [lia|].
  cbn [drain_loop]. rewrite (run_read _ _ _ _ p Hp). cbv beta zeta.
  destruct (S a =? cap) eqn:Hcap; [apply Nat.eqb_eq in Hcap; lia|].
  pose proof (take_chunk_steady_exact (incoming w)) as Hex.
  unfold next_read.
  destruct (steady_bytes (incoming w)) as [|n] eqn:Hn.
  - rewrite Hex. cbn [length Nat.eqb].
    eexists. exists [EvRead 1 []]. split; [reflexivity|]. wsimpl.
    split; [done|]. split; [done|]. repeat constructor. by eexists.
  - destruct Hex as [Hone Hrest]. rewrite Hone. cbn [Nat.eqb].
    match goal with |- context [drain_loop cap fuel (S a) (s, ?w1)] =>
      destruct (IH (S a) w1) as (w' & reads & Heq & Htr & Hlen & Hall)
    end.
    { lia. }
    { wsimpl. rewrite Hrest. lia. }
    exists w', (reads ++ [EvRead 1 (take_chunk 1 (incoming w)).1]).
    split; [done|]. wsimpl. rewrite Htr, <- app_assoc. split; [done|].
    rewrite length_app, Hlen, Hrest. cbn [length]. split; [lia|].
    apply Forall_app. split; [done|]. repeat constructor. by eexists.
Qed.

(** [stop_stream] on a streaming session returns. *)
Lemma stop_stream_runs (s : Session) (w : World) p :
  is_streaming s = true -> serial s = Some p ->
  exists code s' w' later,
    stop_stream (s, w) = Ok code (s', w') /\
    same_but_half_rtt (stopped s) s' /\
    trace w' = later ++ EvSend stop_command :: EvJoin :: trace w /\
    (code = STATUS_OK \/ code = BOARD_WRITE_ERROR).
Proof.
  intros Hstr Hp. unfold stop_stream.
  rewrite run_gets, Hstr, !run_modify, run_act, run_modify.
  change (set_state SYNC_TIMEOUT_ERROR (set_is_streaming false (set_keep_alive false s)))
    with (stopped s).
  assert (Hp1 : serial (stopped s) = Some p) by done.
  rewrite (run_send _ _ _ _ _ p Hp1).
  match goal with |- context [negb ?c] => destruct c end; cbn [negb].
  2:{ do 3 eexists. exists []. split; [reflexivity|].
      split; [apply same_but_half_rtt_refl|]. split; [done|]. by right. }
  assert (Hcap : 0 < max_attempt) by (unfold max_attempt; lia).
  match goal with |- context [bind (drain_loop _ _ 0) _ (_, ?w1)] =>
    destruct (drain_loop_spec max_attempt max_attempt 0 (stopped s) w1 p Hp1 Hcap)
      as (r & w2 & reads & Heq & Htr & _ & _ & Hr & _); [lia|]
  end.
  rewrite (run_ok _ _ _ _ _ Heq). wsimpl.
  destruct Hr as [[-> _] | [-> _]].
  - destruct (calc_time_loop_keeps 3 None (stopped s) w2 p Hp1)
      as (r3 & s3 & w3 & evs & Heq3 & Hsame & Htr3 & _).
    rewrite (run_ok _ _ _ _ _ Heq3).
    exists STATUS_OK, s3, w3, (evs ++ reads).
    split; [done|]. split; [done|].
    split; [by rewrite Htr3, Htr, <- app_assoc|]. by left.
  - exists BOARD_WRITE_ERROR, (stopped s), w2, reads.
    split; [done|]. split; [apply same_but_half_rtt_refl|]. split; [done|]. by right.
Qed.

(** When the stop command is not written in full, [stop_stream] on a
    streaming session returns [BOARD_WRITE_ERROR] at once: the thread is
    joined and the session is stopped ([keep_alive] and [is_streaming]
    cleared, [state] back at [SYNC_TIMEOUT_ERROR]), but nothing is read
    from the port and no clock probe is made. *)
Theorem stop_stream_write_failure (s : Session) (w : World) (p : Serial) :
  is_streaming s = true -> serial s = Some p ->
  next_send_result w 2 <> 2%Z ->
  stop_stream (s, w) = Ok BOARD_WRITE_ERROR (stopped s, after_send stop_command (log EvJoin w)).
Proof.
  intros Hstr Hp Hsend. unfold stop_stream.
  rewrite run_gets, Hstr, !run_modify, run_act, run_modify.
  change (set_state SYNC_TIMEOUT_ERROR (set_is_streaming false (set_keep_alive false s)))
    with (stopped s).
  assert (Hp1 : serial (stopped s) = Some p) by done.
  rewrite (run_send _ _ _ _ _ p Hp1).
  change (next_send_result (log EvJoin w) 2) with (next_send_result w 2).
  apply Z.eqb_neq in Hsend. by rewrite Hsend.
Qed.

(** When the stop command is written in full and the port goes quiet
    before the cap, [stop_stream] returns [STATUS_OK]: the single-byte
    reads end with the first one that times out, so there is one more of
    them than bytes were still arriving; the clock probes that follow
    change nothing of the session but [half_rtt], and whether they succeed
    does not change the code. *)
Theorem stop_stream_success (s : Session) (w : World) (p : Serial) :
  is_streaming s = true -> serial s = Some p ->
  next_send_result w 2 = 2%Z ->
  steady_bytes (incoming w) + 1 < max_attempt ->
  exists s' w' probes reads,
    stop_stream (s, w) = Ok STATUS_OK (s', w') /\
    same_but_half_rtt (stopped s) s' /\
    trace w' = probes ++ reads ++ EvSend stop_command :: EvJoin :: trace w /\
    length reads = steady_bytes (incoming w) + 1 /\
    Forall single_byte_read reads.
Proof.
  intros Hstr Hp Hsend Hsteady. unfold stop_stream.
  rewrite run_gets, Hstr, !run_modify, run_act, run_modify.
  change (set_state SYNC_TIMEOUT_ERROR (set_is_streaming false (set_keep_alive false s)))
    with (stopped s).
  assert (Hp1 : serial (stopped s) = Some p) by done.
  rewrite (run_send _ _ _ _ _ p Hp1).
  change (next_send_result (log EvJoin w) 2) with (next_send_result w 2).
  rewrite Hsend. cbn [Z.eqb Pos.eqb negb].
  match goal with |- context [bind (drain_loop _ _ 0) _ (_, ?w1)] =>
    destruct (drain_loop_ends max_attempt max_attempt 0 (stopped s) w1 p Hp1)
      as (w2 & reads & Heq & Htr & Hlen & Hall); [lia|wsimpl; lia|]
  end.
  rewrite (run_ok _ _ _ _ _ Heq).
  destruct (calc_time_loop_keeps 3 None (stopped s) w2 p Hp1)
    as (r3 & s3 & w3 & evs & Heq3 & Hsame & Htr3 & _).
  rewrite (run_ok _ _ _ _ _ Heq3).
  exists s3, w3, evs, reads. split; [done|]. split; [done|].
  split; [by rewrite Htr3, Htr|]. done.
Qed.

End StopFacts.

(** ** [start_stream] *)

Section StartFacts.
Context `{FA : FloatArith}.

(** Three probes in a row, all answered. *)
Lemma calc_time_loop_success resp (s : Session) (w : World) p :
  serial s = Some p ->
  probe_ok w -> probe_ok (after_probe w) -> probe_ok (after_probe (after_probe w)) ->
  calc_time_loop 3 resp (s, w) =
    Ok (STATUS_OK, Some (probe_result (after_probe (after_probe w))))
       (set_half_rtt (probe_half_rtt (after_probe (after_probe w)))
          (set_half_rtt (probe_half_rtt (after_probe w))
             (set_half_rtt (probe_half_rtt w) s)),
        after_probe (after_probe (after_probe w))).
Proof.
  intros Hp H1 H2 H3. cbn [calc_time_loop].
  rewrite (run_ok _ _ _ _ _ (calc_time_ok_run resp s w p Hp H1)).
  cbn [fst snd]. rewrite decide_True by done.
  rewrite (run_ok _ _ _ _ _
             (calc_time_ok_run _ (set_half_rtt _ s) (after_probe w) p Hp H2)).
  cbn [fst snd]. rewrite decide_True by done.
  rewrite (run_ok _ _ _ _ _
             (calc_time_ok_run _ (set_half_rtt _ (set_half_rtt _ s))
                (after_probe (after_probe w)) p Hp H3)).
  cbn [fst snd]. by rewrite decide_True by done.
Qed.

Lemma probe_half_rtt_after (w : World) :
  probe_half_rtt (after_probe (after_probe w)) =
  f64_div (f64_sub (clock_at w 5) (clock_at w 4)) (f64_of_int 2).
Proof.
  unfold probe_half_rtt, clock_at, after_probe, after_clock, after_read, after_send.
  wsimpl. by destruct (clock w) as [|? [|? [|? [|? [|? [|? ?]]]]]].
Qed.

(** [start_stream] on an initialized session that does not stream, when
    the three clock probes are answered, the buffers are prepared, the
    start command is written in full and a frame is validated during the
    wait: the call returns [STATUS_OK] with [is_streaming] and
    [keep_alive] set; [half_rtt] is the one of the third probe; the port
    saw the three probes and then the start command, and the thread is
    spawned after the command is sent. *)
Theorem start_stream_success size streamer_params (s : Session) (w : World) (p : Serial) :
  initialized s = true -> is_streaming s = false -> serial s = Some p ->
  probe_ok w -> probe_ok (after_probe w) -> probe_ok (after_probe (after_probe w)) ->
  acquisition_res w = STATUS_OK ->
  next_send_result (after_probe (after_probe (after_probe w))) 2 = 2%Z ->
  first_frame_in_time w = true ->
  exists s',
    start_stream size streamer_params (s, w) =
      Ok STATUS_OK
         (s', log EvSpawn
                (after_send start_command
                   (log (EvPrepareForAcquisition size streamer_params)
                      (after_probe (after_probe (after_probe w)))))) /\
    is_streaming s' = true /\ keep_alive s' = true /\ state s' = STATUS_OK /\
    half_rtt s' = f64_div (f64_sub (clock_at w 5) (clock_at w 4)) (f64_of_int 2) /\
    initialized s' = true /\ serial s' = serial s /\ sink s' = sink s.
Proof.
  intros Hini Hstr Hp H1 H2 H3 Hacq Hsend Hseen. unfold start_stream.
  rewrite run_gets, Hini. cbn [negb]. rewrite run_gets, Hstr.
  rewrite (run_ok _ _ _ _ _ (calc_time_loop_success None s w p Hp H1 H2 H3)).
  cbn [fst snd]. rewrite bool_decide_eq_true_2 by done. cbn [negb].
  unfold prepare_for_acquisition. rewrite run_bind, run_act, run_asks.
  change (acquisition_res (log _ (after_probe (after_probe (after_probe w)))))
    with (acquisition_res w).
  rewrite Hacq, bool_decide_eq_true_2 by done. cbn [negb].
  rewrite (run_send _ _ _ _ _ p) by done.
  change (next_send_result (log _ (after_probe (after_probe (after_probe w)))) 2)
    with (next_send_result (after_probe (after_probe (after_probe w))) 2).
  rewrite Hsend. cbn [Z.eqb Pos.eqb negb].
  rewrite run_modify, run_act, run_asks.
  change (first_frame_in_time (log EvSpawn (set_send_results _ (log _ (log _
            (after_probe (after_probe (after_probe w)))))))) with (first_frame_in_time w).
  rewrite Hseen, run_modify, run_gets.
  cbn [state set_state]. rewrite bool_decide_eq_false_2 by done. cbn [negb].
  rewrite run_modify. unfold gets. cbn [fst snd].
  eexists. split; [reflexivity|]. wsimpl.
  repeat split; try done. apply probe_half_rtt_after.
Qed.


(** When the first clock probe fails, [start_stream] returns
    [BOARD_WRITE_ERROR] and leaves the session as it was: no buffer is
    prepared, no start command is sent and no thread is spawned; the port
    saw the write of the probe and, when that write was complete, the one
    read of the reply. *)
Theorem start_stream_probe_failure size streamer_params (s : Session) (w : World) (p : Serial) :
  initialized s = true -> is_streaming s = false -> serial s = Some p ->
  ~ probe_ok w ->
  exists w' evs,
    start_stream size streamer_params (s, w) = Ok BOARD_WRITE_ERROR (s, w') /\
    trace w' = evs ++ trace w /\
    (evs = [EvSend probe_command] \/ evs = [EvRead 4 (next_read w 4); EvSend probe_command]).
Proof.
  intros Hini Hstr Hp Hnot. unfold start_stream.
  rewrite run_gets, Hini. cbn [negb]. rewrite run_gets, Hstr.
  cbn [calc_time_loop]. rewrite run_bind.
  destruct (decide (next_send_result w 5 = 5%Z)) as [Hsend|Hsend].
  - assert (Hread : length (next_read w 4) <> 4) by (intros ?; by apply Hnot).
    rewrite (run_ok _ _ _ _ _ (proj2 (calc_time_fail_run None s w p Hp) Hsend Hread)).
    cbn [fst snd]. rewrite decide_False by done. rewrite run_ret. cbn [fst snd].
    rewrite bool_decide_eq_false_2 by done. cbn [negb].
    do 2 eexists. split; [reflexivity|]. split; [|by right]. done.
  - rewrite (run_ok _ _ _ _ _ (proj1 (calc_time_fail_run None s w p Hp) Hsend)).
    cbn [fst snd]. rewrite decide_False by done. rewrite run_ret. cbn [fst snd].
    rewrite bool_decide_eq_false_2 by done. cbn [negb].
    do 2 eexists. split; [reflexivity|]. split; [|by left]. done.
Qed.

End StartFacts.

(** ** [start_stream] before the thread, [config_board], [release_session] *)

Section MoreLifeCycleFacts.
Context `{FA : FloatArith}.

(** [start_stream] after three answered probes: when
    [prepare_for_acquisition] fails the call returns its code and sends
    nothing; when the start command is not written in full it returns
    [BOARD_WRITE_ERROR]. In both cases no thread is spawned, [keep_alive]
    and [is_streaming] stay as they were, and [half_rtt] keeps the value of
    the third probe. *)
Theorem start_stream_late_failure size streamer_params (s : Session) (w : World) (p : Serial) :
  initialized s = true -> is_streaming s = false -> serial s = Some p ->
  probe_ok w -> probe_ok (after_probe w) -> probe_ok (after_probe (after_probe w)) ->
  let w3 := after_probe (after_probe (after_probe w)) in
  let s3 := set_half_rtt (probe_half_rtt (after_probe (after_probe w)))
              (set_half_rtt (probe_half_rtt (after_probe w))
                 (set_half_rtt (probe_half_rtt w) s)) in
  (acquisition_res w <> STATUS_OK ->
   start_stream size streamer_params (s, w) =
     Ok (acquisition_res w) (s3, log (EvPrepareForAcquisition size streamer_params) w3)) /\
  (acquisition_res w = STATUS_OK -> next_send_result w3 2 <> 2%Z ->
   start_stream size streamer_params (s, w) =
     Ok BOARD_WRITE_ERROR
        (s3, after_send start_command (log (EvPrepareForAcquisition size streamer_params) w3))).
Proof.
  intros Hini Hstr Hp H1 H2 H3 w3 s3. unfold start_stream.
  rewrite run_gets, Hini. cbn [negb]. rewrite run_gets, Hstr.
  rewrite (run_ok _ _ _ _ _ (calc_time_loop_success None s w p Hp H1 H2 H3)).
  cbn [fst snd]. rewrite bool_decide_eq_true_2 by done. cbn [negb].
  unfold prepare_for_acquisition. rewrite run_bind, run_act, run_asks.
  change (acquisition_res (log _ (after_probe (after_probe (after_probe w)))))
    with (acquisition_res w).
  split.
  - intros Hacq. by rewrite bool_decide_eq_false_2 by done.
  - intros Hacq Hsend. rewrite Hacq, bool_decide_eq_true_2 by done. cbn [negb].
    rewrite (run_send _ _ _ _ _ p) by done.
    change (next_send_result (log _ (after_probe (after_probe (after_probe w)))) 2)
      with (next_send_result w3 2).
    apply Z.eqb_neq in Hsend. by rewrite Hsend.
Qed.

(** A command other than the probe: one write, of the command and a line feed. *)
Lemma config_board_run conf resp (s : Session) (w : World) (p : Serial) :
  serial s = Some p -> conf <> "calc_time" ->
  let len := String.length conf + 1 in
  config_board conf resp (s, w) =
    Ok (if bool_decide (next_send_result w len = Z.of_nat len)
        then STATUS_OK else BOARD_WRITE_ERROR, resp)
       (s, after_send (conf +:+ LF) w).
Proof.
  intros Hp Hconf len. unfold config_board. rewrite run_gets, Hp.
  rewrite decide_False by done.
  assert (Hlen : String.length (conf +:+ LF) = len).
  { unfold len. clear. induction conf as [|c conf IH]; [done|].
    change (S (String.length (conf +:+ LF)) = S (String.length conf + 1)).
    by rewrite IH. }
  rewrite Hlen, (run_send _ _ _ _ _ p Hp).
  destruct (decide (next_send_result w len = Z.of_nat len)) as [Heq|Hne].
  - rewrite bool_decide_eq_true_2 by done. rewrite Heq, Z.eqb_refl. done.
  - rewrite bool_decide_eq_false_2 by done.
    replace (Z.of_nat len =? next_send_result w len)%Z with false; [done|].
    symmetry. apply Z.eqb_neq. congruence.
Qed.

(** A command other than the clock probe is sent with a line feed
    appended, in one write of one byte more than the command;
    [config_board] returns [STATUS_OK] exactly when the write reports that
    length and [BOARD_WRITE_ERROR] otherwise; it reads nothing, takes no
    time stamp and leaves the session and the response alone, also while
    the session streams. *)
Theorem config_board_forwards conf resp (s : Session) (w : World) (p : Serial) :
  serial s = Some p -> conf <> "calc_time" ->
  let len := String.length conf + 1 in
  exists code w',
    config_board conf resp (s, w) = Ok (code, resp) (s, w') /\
    (code = STATUS_OK <-> next_send_result w len = Z.of_nat len) /\
    (code = STATUS_OK \/ code = BOARD_WRITE_ERROR) /\
    trace w' = EvSend (conf +:+ LF) :: trace w /\
    incoming w' = incoming w /\ clock w' = clock w.
Proof.
  intros Hp Hconf len.
  rewrite (config_board_run conf resp s w p Hp Hconf). fold len.
  destruct (decide (next_send_result w len = Z.of_nat len)) as [Heq|Hne].
  - rewrite bool_decide_eq_true_2 by done.
    do 2 eexists. split; [reflexivity|]. split; [done|]. split; [by left|]. done.
  - rewrite bool_decide_eq_false_2 by done.
    do 2 eexists. split; [reflexivity|]. split; [done|]. split; [by right|]. done.
Qed.

(** Nothing to release. *)
Lemma release_session_not_initialized (s : Session) (w : World) :
  initialized s = false -> release_session (s, w) = Ok STATUS_OK (s, w).
Proof. intros Hini. unfold release_session. by rewrite run_gets, Hini. Qed.

(** [release_session] on an initialized session returns [STATUS_OK] and
    leaves the session not initialized, without its [Serial] object and
    not streaming; a stream that was running is stopped first (the thread
    joined, then the stop command sent), then the packages are freed, then
    the [Serial] object is deleted; the rows pushed so far stay in the
    sink; and a second [release_session] does nothing. *)
Theorem release_session_releases (s : Session) (w : World) (p : Serial) :
  initialized s = true -> serial s = Some p ->
  exists s' w' evs,
    release_session (s, w) = Ok STATUS_OK (s', w') /\
    initialized s' = false /\ serial s' = None /\
    is_streaming s' = false /\ sink s' = sink s /\
    trace w' = EvDelete :: EvFreePackages :: evs ++ trace w /\
    (is_streaming s = false -> evs = [] /\ keep_alive s' = keep_alive s) /\
    (is_streaming s = true ->
       keep_alive s' = false /\
       exists later, evs = later ++ [EvSend stop_command; EvJoin]) /\
    release_session (s', w') = Ok STATUS_OK (s', w').
Proof.
  intros Hini Hp. unfold release_session at 1.
  rewrite run_gets, Hini, run_bind, run_gets.
  destruct (is_streaming s) eqn:Hstr.
  - destruct (stop_stream_runs s w p Hstr Hp)
      as (code & s1 & w1 & later & Heq & Hsame & Htr & _).
    rewrite !run_bind, (run_ok _ _ _ _ _ Heq).
    destruct Hsame as (_ & _ & Hser & Hstr' & Hal & Hini' & Hst & Hsink).
    cbn [stopped serial is_streaming keep_alive sink set_state set_is_streaming
         set_keep_alive] in Hser, Hstr', Hal, Hsink.
    rewrite Hp in Hser.
    repeat first [rewrite run_ret | rewrite run_bind | rewrite run_act
                 | rewrite run_modify | rewrite run_gets | progress cbv beta].
    cbn [serial set_initialized]. rewrite Hser.
    repeat first [rewrite run_ret | rewrite run_bind | rewrite run_delete | progress cbv beta].
    do 2 eexists. exists (later ++ [EvSend stop_command; EvJoin]).
    split; [reflexivity|]. wsimpl. rewrite Hstr', Hal, Hsink, Htr.
    split; [done|]. split; [done|]. split; [done|]. split; [done|].
    split; [by rewrite <- app_assoc|]. split; [done|].
    split; [split; [done|by eexists]|].
    by apply release_session_not_initialized.
  - repeat first [rewrite run_ret | rewrite run_bind | rewrite run_act
                 | rewrite run_modify | rewrite run_gets | progress cbv beta].
    cbn [serial set_initialized]. rewrite Hp.
    repeat first [rewrite run_ret | rewrite run_bind | rewrite run_delete | progress cbv beta].
    do 2 eexists. exists []. split; [reflexivity|]. wsimpl.
    split; [done|]. split; [done|]. split; [done|]. split; [done|].
    split; [done|]. split; [done|]. split; [done|].
    by apply release_session_not_initialized.
Qed.

End MoreLifeCycleFacts.

(** ** [prepare_session] *)

Section PrepareFacts.
Context `{FA : FloatArith}.

Lemma nth_send_result_0 (w : World) len : nth_send_result w 0 len = next_send_result w len.
Proof. unfold nth_send_result, next_send_result. by destruct (send_results w). Qed.

Lemma nth_send_result_1 (w v : World) data len :
  send_results v = send_results w ->
  next_send_result (after_send data v) len = nth_send_result w 1 len.
Proof.
  intros Hv. unfold nth_send_result, next_send_result, after_send. wsimpl.
  rewrite Hv. by destruct (send_results w) as [|? [|? ?]].
Qed.

(** Lines 58-64: the timeout is put right and the [Serial] object created. *)
Lemma prepare_session_create {B} (k : unit -> M B) (s : Session) (w : World) :
  bind (if (params_timeout s >? 600)%Z || (params_timeout s <? 1)%Z
        then modify (set_params_timeout 3) else ret ())
       (fun _ => bind (act (log (EvCreate (params_serial_port s))))
          (fun _ => bind (modify (set_serial (Some {| port_name := params_serial_port s |}))) k))
       (s, w)
  = k tt (if (params_timeout s >? 600)%Z || (params_timeout s <? 1)%Z
          then set_serial (Some {| port_name := params_serial_port s |}) (set_params_timeout 3 s)
          else set_serial (Some {| port_name := params_serial_port s |}) s,
          log (EvCreate (params_serial_port s)) w).
Proof. by destruct ((params_timeout s >? 600)%Z || (params_timeout s <? 1)%Z). Qed.

(** The six ways [prepare_session] goes on a session that is not
    initialized and has a port name. *)
Lemma prepare_session_steps (s : Session) (w : World) :
  initialized s = false ->
  params_serial_port s <> EmptyString ->
  exists code s' w',
    prepare_session (s, w) = Ok code (s', w') /\
    prepare_keeps s s' /\
    ((open_res w < 0)%Z /\ code = UNABLE_TO_OPEN_PORT_ERROR /\
       initialized s' = false /\ serial s' = serial (created s) /\
       trace w' = EvOpen :: EvCreate (params_serial_port s) :: trace w
     \/
     (0 <= open_res w)%Z /\ (settings_res w < 0)%Z /\ code = SET_PORT_ERROR /\
       initialized s' = false /\ serial s' = None /\
       trace w' = EvDelete :: tail (port_setup s) ++ trace w
     \/
     (0 <= open_res w)%Z /\ (0 <= settings_res w)%Z /\ (baud_res w < 0)%Z /\
       code = SET_PORT_ERROR /\ initialized s' = false /\ serial s' = None /\
       trace w' = EvDelete :: port_setup s ++ trace w
     \/
     (0 <= open_res w)%Z /\ (0 <= settings_res w)%Z /\ (0 <= baud_res w)%Z /\
       nth_send_result w 0 2 <> 2%Z /\
       code = BOARD_NOT_READY_ERROR /\ initialized s' = false /\ serial s' = None /\
       trace w' = EvDelete :: EvSend default_settings_command :: port_setup s ++ trace w
     \/
     (0 <= open_res w)%Z /\ (0 <= settings_res w)%Z /\ (0 <= baud_res w)%Z /\
       nth_send_result w 0 2 = 2%Z /\ nth_send_result w 1 3 <> 3%Z /\
       code = BOARD_NOT_READY_ERROR /\ initialized s' = false /\ serial s' = None /\
       trace w' = EvDelete :: EvSend sampl_rate_command :: EvSend default_settings_command ::
                  port_setup s ++ trace w
     \/
     (0 <= open_res w)%Z /\ (0 <= settings_res w)%Z /\ (0 <= baud_res w)%Z /\
       nth_send_result w 0 2 = 2%Z /\ nth_send_result w 1 3 = 3%Z /\
       code = STATUS_OK /\ initialized s' = true /\ serial s' = serial (created s) /\
       trace w' = EvSend sampl_rate_command :: EvSend default_settings_command ::
                  port_setup s ++ trace w).
Proof.
  intros Hini Hport. unfold prepare_session.
  rewrite run_gets, Hini, run_gets. rewrite decide_False by done.
  rewrite run_gets, prepare_session_create.
  set (p := {| port_name := params_serial_port s |}).
  set (s0 := if (params_timeout s >? 600)%Z || (params_timeout s <? 1)%Z
             then set_serial (Some p) (set_params_timeout 3 s) else set_serial (Some p) s).
  assert (Hp0 : serial s0 = Some p).
  { unfold s0. by destruct ((params_timeout s >? 600)%Z || (params_timeout s <? 1)%Z). }
  assert (Hto : params_timeout s0 = effective_timeout s).
  { unfold s0, effective_timeout.
    by destruct ((params_timeout s >? 600)%Z || (params_timeout s <? 1)%Z). }
  assert (Hk : prepare_keeps s s0).
  { unfold s0, prepare_keeps, effective_timeout.
    destruct ((params_timeout s >? 600)%Z || (params_timeout s <? 1)%Z); by repeat split. }
  assert (Hi0 : initialized s0 = false).
  { unfold s0. by destruct ((params_timeout s >? 600)%Z || (params_timeout s <? 1)%Z). }
  assert (Hc : serial (created s) = Some p) by done.
  rewrite (run_open _ _ _ p Hp0). wsimpl.
  destruct (open_res w <? 0)%Z eqn:Hopen.
  { apply Z.ltb_lt in Hopen. do 3 eexists. split; [reflexivity|].
    split; [exact Hk|]. left. by repeat split. }
  apply Z.ltb_ge in Hopen. rewrite run_gets, (run_settings _ _ _ _ p Hp0). wsimpl.
  rewrite Hto.
  destruct (settings_res w <? 0)%Z eqn:Hset.
  { apply Z.ltb_lt in Hset. rewrite run_delete.
    do 3 eexists. split; [reflexivity|]. wsimpl.
    split; [exact Hk|].
    right; left. by repeat split. }
  apply Z.ltb_ge in Hset. rewrite (run_baud _ _ _ _ p Hp0). wsimpl.
  destruct (baud_res w <? 0)%Z eqn:Hbaud.
  { apply Z.ltb_lt in Hbaud. rewrite run_delete.
    do 3 eexists. split; [reflexivity|]. wsimpl.
    split; [exact Hk|].
    right; right; left. by repeat split. }
  apply Z.ltb_ge in Hbaud.
  match goal with |- context [bind (config_board "o" None) _ (s0, ?w1)] =>
    rewrite (run_ok _ _ _ _ _ (config_board_run "o" None s0 w1 p Hp0 ltac:(done)));
    change (next_send_result w1 (String.length "o" + 1)) with (next_send_result w 2)
  end.
  cbn [fst snd]. rewrite <- nth_send_result_0.
  destruct (decide (nth_send_result w 0 2 = 2%Z)) as [H1|H1].
  2:{ rewrite (bool_decide_eq_false_2 (_ = Z.of_nat _)) by done.
      rewrite bool_decide_eq_false_2 by done. cbn [negb].
      rewrite run_delete.
      do 3 eexists. split; [reflexivity|]. unfold after_send. wsimpl.
      split; [exact Hk|].
      right; right; right; left. by repeat split. }
  rewrite (bool_decide_eq_true_2 (_ = Z.of_nat _)) by done.
  rewrite bool_decide_eq_true_2 by done. cbn [negb].
  match goal with |- context [bind (config_board "~6" None) _ (s0, ?w1)] =>
    rewrite (run_ok _ _ _ _ _ (config_board_run "~6" None s0 w1 p Hp0 ltac:(done)));
    change (String.length "~6" + 1) with 3 in *
  end.
  cbn [fst snd]. rewrite (nth_send_result_1 w) by done.
  destruct (decide (nth_send_result w 1 3 = 3%Z)) as [H2|H2].
  2:{ rewrite (bool_decide_eq_false_2 (_ = Z.of_nat _)) by done.
      rewrite bool_decide_eq_false_2 by done. cbn [negb].
      rewrite run_delete.
      do 3 eexists. split; [reflexivity|]. unfold after_send. wsimpl.
      split; [exact Hk|].
      right; right; right; right; left. by repeat split. }
  rewrite (bool_decide_eq_true_2 (_ = Z.of_nat _)) by done.
  rewrite bool_decide_eq_true_2 by done. cbn [negb].
  rewrite run_modify.
  do 3 eexists. split; [reflexivity|]. unfold after_send. wsimpl.
  split; [exact Hk|].
  right; right; right; right; right. by repeat split.
Qed.

End PrepareFacts.

Section PrepareOutcomes.
Context `{FA : FloatArith}.

(** [prepare_session] on a port that opens, takes its settings and the
    baud rate, and on which both commands are written in full: the call
    returns [STATUS_OK] with the session initialized and the [Serial]
    object kept; the port saw, in this order, the object created for the
    configured name, the open, the settings with the timeout in
    milliseconds, the baud rate 921600, the command for the default
    settings and the command for the sampling rate; no other field of the
    session changes but the timeout put right. *)
Theorem prepare_session_success (s : Session) (w : World) :
  initialized s = false ->
  params_serial_port s <> EmptyString ->
  (0 <= open_res w)%Z -> (0 <= settings_res w)%Z -> (0 <= baud_res w)%Z ->
  nth_send_result w 0 2 = 2%Z -> nth_send_result w 1 3 = 3%Z ->
  exists s' w',
    prepare_session (s, w) = Ok STATUS_OK (s', w') /\
    initialized s' = true /\
    serial s' = Some {| port_name := params_serial_port s |} /\
    prepare_keeps s s' /\
    trace w' = EvSend sampl_rate_command :: EvSend default_settings_command ::
               EvBaud 921600 :: EvSettings (effective_timeout s * 1000) :: EvOpen ::
               EvCreate (params_serial_port s) :: trace w.
Proof.
  intros Hini Hport Hopen Hset Hbaud H1 H2.
  destruct (prepare_session_steps s w Hini Hport) as (code & s' & w' & Heq & Hk & Hcases).
  exists s', w'.
  destruct Hcases as [C|[C|[C|[C|[C|C]]]]].
  - destruct C as (? & _). lia.
  - destruct C as (_ & ? & _). lia.
  - destruct C as (_ & _ & ? & _). lia.
  - destruct C as (_ & _ & _ & ? & _). done.
  - destruct C as (_ & _ & _ & _ & ? & _). done.
  - destruct C as (_ & _ & _ & _ & _ & -> & Hi & Hs & Htr).
    split; [done|]. split; [done|]. split; [done|]. split; [done|]. done.
Qed.

(** [prepare_session] returns [STATUS_OK] exactly when it leaves the
    session initialized, and once it has, it is a no-op: called again, on
    any port, it returns [STATUS_OK] and touches neither the session nor
    the port. A session without a port name is refused with
    [INVALID_ARGUMENTS_ERROR] before anything is touched. *)
Theorem prepare_session_is_idempotent (s : Session) (w : World) :
  exists code s' w',
    prepare_session (s, w) = Ok code (s', w') /\
    (code = STATUS_OK <-> initialized s' = true) /\
    (initialized s = true -> s' = s /\ w' = w) /\
    (initialized s = false -> params_serial_port s = EmptyString ->
       code = INVALID_ARGUMENTS_ERROR /\ s' = s /\ w' = w) /\
    (code = STATUS_OK -> forall w2, prepare_session (s', w2) = Ok STATUS_OK (s', w2)).
Proof.
  assert (Hagain : forall s2 w2, initialized s2 = true ->
            prepare_session (s2, w2) = Ok STATUS_OK (s2, w2)).
  { intros s2 w2 H2. unfold prepare_session. by rewrite run_gets, H2. }
  destruct (initialized s) eqn:Hini.
  { exists STATUS_OK, s, w. split; [by apply Hagain|]. split; [done|].
    split; [done|]. split; [done|]. intros _ w2. by apply Hagain. }
  destruct (decide (params_serial_port s = EmptyString)) as [Hport|Hport].
  { exists INVALID_ARGUMENTS_ERROR, s, w. split.
    { unfold prepare_session. rewrite run_gets, Hini, run_gets. by rewrite decide_True. }
    split; [by rewrite Hini|]. split; [done|]. split; [done|]. done. }
  destruct (prepare_session_steps s w Hini Hport) as (code & s' & w' & Heq & Hk & Hcases).
  exists code, s', w'. split; [done|].
  assert (Hiff : code = STATUS_OK <-> initialized s' = true).
  { destruct Hcases as [C|[C|[C|[C|[C|C]]]]].
    - destruct C as (_ & -> & -> & _). done.
    - destruct C as (_ & _ & -> & -> & _). done.
    - destruct C as (_ & _ & _ & -> & -> & _). done.
    - destruct C as (_ & _ & _ & _ & -> & -> & _). done.
    - destruct C as (_ & _ & _ & _ & _ & -> & -> & _). done.
    - destruct C as (_ & _ & _ & _ & _ & -> & -> & _). done. }
  split; [done|]. split; [done|]. split; [done|].
  intros Hc w2. apply Hagain. by apply Hiff.
Qed.

End PrepareOutcomes.

Section PrepareFailures.
Context `{FA : FloatArith}.

(** When the port opens but a later step of [prepare_session] fails, the
    [Serial] object is deleted, as the last thing the call does and only
    once, and the session is left not initialized with [serial] null. The
    code is [SET_PORT_ERROR] when the settings or the baud rate are
    refused and [BOARD_NOT_READY_ERROR] when one of the two commands is not
    written in full; the steps after the failing one are not made. *)
Theorem prepare_failure_after_open (s : Session) (w : World) :
  initialized s = false ->
  params_serial_port s <> EmptyString ->
  (0 <= open_res w)%Z ->
  ~ ((0 <= settings_res w)%Z /\ (0 <= baud_res w)%Z /\
     nth_send_result w 0 2 = 2%Z /\ nth_send_result w 1 3 = 3%Z) ->
  exists code s' w' n,
    prepare_session (s, w) = Ok code (s', w') /\
    initialized s' = false /\ serial s' = None /\ prepare_keeps s s' /\
    trace w' =
      EvDelete ::
      drop n [EvSend sampl_rate_command; EvSend default_settings_command; EvBaud 921600;
              EvSettings (effective_timeout s * 1000); EvOpen;
              EvCreate (params_serial_port s)] ++ trace w /\
    ((settings_res w < 0)%Z /\ n = 3 /\ code = SET_PORT_ERROR \/
     (0 <= settings_res w)%Z /\ (baud_res w < 0)%Z /\ n = 2 /\ code = SET_PORT_ERROR \/
     (0 <= settings_res w)%Z /\ (0 <= baud_res w)%Z /\ nth_send_result w 0 2 <> 2%Z /\
       n = 1 /\ code = BOARD_NOT_READY_ERROR \/
     (0 <= settings_res w)%Z /\ (0 <= baud_res w)%Z /\ nth_send_result w 0 2 = 2%Z /\
       nth_send_result w 1 3 <> 3%Z /\ n = 0 /\ code = BOARD_NOT_READY_ERROR).
Proof.
  intros Hini Hport Hopen Hnot.
  destruct (prepare_session_steps s w Hini Hport) as (code & s' & w' & Heq & Hk & Hcases).
  destruct Hcases as [C|[C|[C|[C|[C|C]]]]].
  - destruct C as (? & _). lia.
  - destruct C as (_ & Hs & -> & Hi & Hser & Htr).
    exists SET_PORT_ERROR, s', w', 3. repeat (split; [done|]). by left.
  - destruct C as (_ & Hs & Hb & -> & Hi & Hser & Htr).
    exists SET_PORT_ERROR, s', w', 2. repeat (split; [done|]). right; by left.
  - destruct C as (_ & Hs & Hb & H1 & -> & Hi & Hser & Htr).
    exists BOARD_NOT_READY_ERROR, s', w', 1. repeat (split; [done|]).
    right; right; by left.
  - destruct C as (_ & Hs & Hb & H1 & H2 & -> & Hi & Hser & Htr).
    exists BOARD_NOT_READY_ERROR, s', w', 0. repeat (split; [done|]).
    right; right; by right.
  - destruct C as (_ & Hs & Hb & H1 & H2 & _). by destruct Hnot.
Qed.

(** What a failed open leaves behind is not released: after
    [prepare_session] could not open the port, the session still holds the
    [Serial] object it created; [release_session] returns [STATUS_OK]
    without deleting it, because the session is not initialized; and a
    second [prepare_session] creates another [Serial] object for the same
    port without the first one having been deleted. *)
Theorem failed_open_is_not_released (s : Session) (w : World) :
  initialized s = false ->
  params_serial_port s <> EmptyString ->
  (open_res w < 0)%Z ->
  exists s' w',
    prepare_session (s, w) = Ok UNABLE_TO_OPEN_PORT_ERROR (s', w') /\
    serial s' = Some {| port_name := params_serial_port s |} /\
    trace w' = EvOpen :: EvCreate (params_serial_port s) :: trace w /\
    release_session (s', w') = Ok STATUS_OK (s', w') /\
    exists code s2 w2 evs,
      prepare_session (s', w') = Ok code (s2, w2) /\
      trace w2 = evs ++ EvCreate (params_serial_port s) :: EvOpen ::
                 EvCreate (params_serial_port s) :: trace w.
Proof.
  intros Hini Hport Hopen.
  destruct (prepare_session_steps s w Hini Hport) as (code & s' & w' & Heq & Hk & Hcases).
  destruct Hcases as [C|[C|[C|[C|[C|C]]]]];
    [|destruct C as (? & _); lia..].
  destruct C as (_ & -> & Hi & Hser & Htr).
  exists s', w'. split; [done|]. split; [done|]. split; [done|].
  split; [by apply release_session_not_initialized|].
  destruct Hk as (Hport' & _).
  assert (Hport2 : params_serial_port s' <> EmptyString) by by rewrite Hport'.
  destruct (prepare_session_steps s' w' Hi Hport2)
    as (code2 & s2 & w2 & Heq2 & _ & Hcases2).
  exists code2, s2, w2. rewrite <- Htr, <- Hport'.
  destruct Hcases2 as [C|[C|[C|[C|[C|C]]]]].
  - destruct C as (_ & _ & _ & _ & ->). by exists [EvOpen].
  - destruct C as (_ & _ & _ & _ & _ & ->). by eexists [_; _; _].
  - destruct C as (_ & _ & _ & _ & _ & _ & ->). by eexists [_; _; _; _].
  - destruct C as (_ & _ & _ & _ & _ & _ & _ & ->). by eexists [_; _; _; _; _].
  - destruct C as (_ & _ & _ & _ & _ & _ & _ & _ & ->). by eexists [_; _; _; _; _; _].
  - destruct C as (_ & _ & _ & _ & _ & _ & _ & _ & ->). by eexists [_; _; _; _; _].
Qed.

End PrepareFailures.

(** ** The reply of the clock probe *)

(** The clock probe asked for through [config_board], when the session
    does not stream and the probe is written and answered in full: the
    call returns [STATUS_OK] after one write of the probe command and one
    read of four bytes; in exact arithmetic the reported round trip is the
    time between the two host time stamps, [half_rtt] is half of it, the
    reported host time is the midpoint of the two time stamps, and the
    reported device time is the float of the reply divided by 1000. *)
Theorem calc_time_reports_midpoint (resp : option (@CalcTimeResult QArith_exact))
    (s : @Session QArith_exact) (w : @World QArith_exact) (p : Serial) :
  serial s = Some p -> is_streaming s = false -> probe_ok w ->
  exists r s' w',
    config_board "calc_time" resp (s, w) = Ok (STATUS_OK, Some r) (s', w') /\
    (rtt r == clock_at w 1 - clock_at w 0)%Q /\
    (half_rtt s' == rtt r / 2)%Q /\
    (result_pc_timestamp r == (clock_at w 0 + clock_at w 1) / 2)%Q /\
    (result_timestamp_device r == float_at (next_read w 4) 0 / 1000)%Q /\
    same_but_half_rtt s s' /\
    trace w' = EvRead 4 (next_read w 4) :: EvSend probe_command :: trace w.
Proof.
  intros Hp Hstr Hok. unfold config_board.
  rewrite run_gets, Hp. rewrite decide_True by done. rewrite run_gets, Hstr.
  rewrite (calc_time_ok_run resp s w p Hp Hok).
  do 3 eexists. split; [reflexivity|].
  cbn [rtt result_pc_timestamp result_timestamp_device probe_result probe_half_rtt
       half_rtt set_half_rtt f64_sub f64_add f64_div f64_of_int f32_div f32_of_int
       QArith_exact].
  split; [reflexivity|]. split; [reflexivity|].
  split; [field|]. split; [reflexivity|].
  split; [apply same_but_half_rtt_set|]. done.
Qed.

(** ** The session between two calls *)

Section InvariantFacts.
Context `{FA : FloatArith}.














End InvariantFacts.

(** ** Concrete runs of the further properties *)

(** The dense row of the first package of the demo frame carries the PPG
    value read at byte 56. *)
Lemma rows_carry_aux_witness :
  exists rows dense,
    (decode_frame demo_header demo_board demo_body 5%Q 1%Q (1 # 100)%Q
       (replicate 26 0%Q, [])).2 = rows /\
    rows !! 0 = Some dense /\
    dense !! (ppg_channels demo_board).1 = Some (inject_Z (int32_at demo_body 56)).
Proof.
  assert (Hok : channel_map_ok demo_board).
  { apply (bool_decide_unpack _). vm_compute. exact I. }
  destruct (rows_carry_aux demo_header demo_board demo_body 5%Q 1%Q (1 # 100)%Q Hok
              (replicate 26 0%Q) [] 0 eq_refl ltac:(cbn; lia))
    as (rows & dense & Heq & Hd & Hppg & _).
  exists rows, dense. split; [exact Heq|]. split; [exact Hd|exact Hppg].
Defined.

(** The compact row of the second package of the demo frame counts one
    more than the byte at 120. *)
Lemma compact_counter_not_wrapped_witness :
  exists rows row v,
    (decode_frame demo_header demo_board demo_body 5%Q 1%Q (1 # 100)%Q
       (replicate 26 0%Q, [])).2 = rows /\
    rows !! 3 = Some row /\
    row !! package_num_channel demo_board = Some v /\
    (v == 121)%Q.
Proof.
  assert (Hok : channel_map_ok demo_board).
  { apply (bool_decide_unpack _). vm_compute. exact I. }
  destruct (compact_counter_not_wrapped demo_header demo_board demo_body 5%Q 1%Q (1 # 100)%Q
              (replicate 26 0%Q) [] 1 0 Hok eq_refl ltac:(cbn; lia) ltac:(cbn; lia))
    as (rows & dense & row & v & Heq & _ & _ & Hrow & Hv & Hval).
  exists rows, row, v. split; [exact Heq|]. split; [exact Hrow|]. split; [exact Hv|exact Hval].
Defined.

(** One frame in two reads: the iteration decodes it and notifies the
    control thread, whose [state] was not yet [STATUS_OK]. *)
Lemma frame_is_decoded_witness :
  exists l' s' w' evs,
    read_iteration demo_header demo_board demo_locals (prepared_session, frame_world [] 300)
      = Ok (l', Continue) (s', w') /\
    b l' = demo_body /\ state s' = STATUS_OK /\ length (sink s') = 4 /\
    pending w' = [] /\ trace w' = evs ++ [] /\ EvNotify ∈ evs.
Proof.
  assert (Hnt : no_timeouts (frame_world [] 300)).
  { repeat constructor; intros Heq; vm_compute in Heq; discriminate Heq. }
  destruct (frame_is_decoded demo_header demo_board demo_locals prepared_session
              (frame_world [] 300) {| port_name := "/dev/ttyUSB0" |} demo_body []
              eq_refl ltac:(cbn; lia) eq_refl Hnt eq_refl eq_refl ltac:(cbn; lia))
    as (w' & evs & Heq & (rows & Hrows & Hn) & Hpend & _ & _ & Htr & Hnotify).
  do 2 eexists. exists w', evs. split; [exact Heq|].
  split; [reflexivity|]. split; [reflexivity|].
  split; [cbn [sink set_sink]; rewrite Hrows; exact Hn|].
  split; [exact Hpend|]. split; [exact Htr|].
  apply Hnotify. discriminate.
Defined.

(** Two stray bytes and one frame: the thread returns with the four rows
    of the frame, after three time stamps. *)
Lemma read_thread_decodes_stream_witness :
  exists l' s' w',
    read_thread demo_header demo_board 301
      (streaming_session, frame_world [["007"; "009"]%byte] 300) = Ok l' (s', w') /\
    length (sink s') = 4 /\ state s' = STATUS_OK /\ clock w' = [] /\ incoming w' = [].
Proof.
  assert (Hnt : no_timeouts (frame_world [["007"; "009"]%byte] 300)).
  { repeat constructor; intros Heq; vm_compute in Heq; discriminate Heq. }
  assert (Hjunk : Forall (fun x => x <> start_byte demo_header) ["007"; "009"]%byte).
  { repeat constructor; discriminate. }
  assert (Hall : Forall (fun body => length body = transaction_size demo_header) [demo_body]).
  { repeat constructor. }
  assert (Hpend : pending (frame_world [["007"; "009"]%byte] 300) =
                  ["007"; "009"]%byte ++ frames_bytes demo_header [demo_body]).
  { vm_compute. reflexivity. }
  destruct (read_thread_decodes_stream demo_header demo_board 301 ["007"; "009"]%byte
              [demo_body] streaming_session (frame_world [["007"; "009"]%byte] 300)
              {| port_name := "/dev/ttyUSB0" |}
              eq_refl ltac:(cbn; lia) Hnt Hpend Hjunk Hall ltac:(cbn; lia) ltac:(cbn; lia))
    as (l' & s' & w' & Heq & Hsink & Hstate & Hclk & Hin).
  exists l', s', w'. split; [exact Heq|]. split; [exact Hsink|].
  split; [exact Hstate|]. split; [exact Hclk|exact Hin].
Defined.

(** Five turns on a silent port. *)
Lemma silent_port_idles_witness :
  exists w',
    read_thread demo_header demo_board 6 (streaming_session, demo_world [] [7%Q] 5)
      = Ok (read_thread_locals demo_header demo_board) (streaming_session, w') /\
    clock w' = [7%Q] /\ trace w' = replicate 5 (EvRead 1 []).
Proof.
  destruct (silent_port_idles demo_header demo_board 6 streaming_session
              (demo_world [] [7%Q] 5) {| port_name := "/dev/ttyUSB0" |}
              eq_refl eq_refl ltac:(cbn; lia))
    as (w' & Heq & _ & Hclk & _ & Htr).
  exists w'. split; [exact Heq|]. split; [exact Hclk|].
  rewrite Htr. reflexivity.
Defined.

(** The body of the demo frame in two short reads and a timeout. *)
Lemma body_survives_short_reads_witness :
  exists w',
    read_remaining 9 (replicate 240 "000"%byte) 240 0 (streaming_session, slow_body_world)
      = Ok (demo_body, 0) (streaming_session, w') /\
    incoming w' = [["192"%byte]] /\ alive_reads w' = 5.
Proof.
  assert (Hlast : last [take 100 demo_body; []; drop 100 demo_body] <> Some []).
  { intros Heq. vm_compute in Heq. discriminate Heq. }
  destruct (body_survives_short_reads [take 100 demo_body; []; drop 100 demo_body]
              [["192"%byte]] 9 (replicate 240 "000"%byte) 240 streaming_session
              slow_body_world {| port_name := "/dev/ttyUSB0" |}
              eq_refl eq_refl Hlast eq_refl ltac:(cbn; lia) ltac:(cbn; lia))
    as (w' & evs & Heq & Hin & Hal & _).
  exists w'. split; [exact Heq|]. split; [exact Hin|exact Hal].
Defined.

(** A command sent on the demo port. *)
Lemma config_board_forwards_witness :
  exists w',
    config_board "x" None (prepared_session, demo_world [] [] 0) =
      Ok (STATUS_OK, None) (prepared_session, w') /\
    trace w' = [EvSend ("x" +:+ LF)].
Proof.
  destruct (config_board_forwards "x" None prepared_session (demo_world [] [] 0)
              {| port_name := "/dev/ttyUSB0" |} eq_refl ltac:(discriminate))
    as (code & w' & Heq & Hcode & _ & Htr & _).
  exists w'. rewrite (proj2 Hcode eq_refl) in Heq. split; [exact Heq|exact Htr].
Defined.

(** [prepare_session] on the demo port. *)
Lemma prepare_session_success_witness :
  exists s' w',
    prepare_session (GaleaSerial_new "/dev/ttyUSB0" 3, demo_world [] [] 0)
      = Ok STATUS_OK (s', w') /\
    initialized s' = true /\
    trace w' = [EvSend sampl_rate_command; EvSend default_settings_command; EvBaud 921600;
                EvSettings 3000; EvOpen; EvCreate "/dev/ttyUSB0"].
Proof.
  destruct (prepare_session_success (GaleaSerial_new "/dev/ttyUSB0" 3) (demo_world [] [] 0)
              eq_refl ltac:(discriminate) ltac:(cbn; lia) ltac:(cbn; lia) ltac:(cbn; lia)
              eq_refl eq_refl)
    as (s' & w' & Heq & Hini & _ & _ & Htr).
  exists s', w'. split; [exact Heq|]. split; [exact Hini|exact Htr].
Defined.

(** The clock probe on a port that answers after half a second. *)
Lemma calc_time_reports_midpoint_witness :
  exists r s' w',
    config_board "calc_time" None (prepared_session, probe_world)
      = Ok (STATUS_OK, Some r) (s', w') /\
    (rtt r == 1 # 2)%Q /\ (half_rtt s' == 1 # 4)%Q /\
    (result_pc_timestamp r == 41 # 4)%Q /\ (result_timestamp_device r == 1)%Q.
Proof.
  destruct (calc_time_reports_midpoint None prepared_session probe_world
              {| port_name := "/dev/ttyUSB0" |} eq_refl eq_refl (conj eq_refl eq_refl))
    as (r & s' & w' & Heq & Hrtt & Hhalf & Hpc & Hdev & _).
  exists r, s', w'. split; [exact Heq|].
  split; [rewrite Hrtt; reflexivity|].
  split; [rewrite Hhalf, Hrtt; reflexivity|].
  split; [rewrite Hpc; reflexivity|]. rewrite Hdev. reflexivity.
Defined.

(** A start on a port that answers the probes, a frame being seen in time. *)
Lemma start_stream_success_witness :
  exists s' w',
    start_stream 45000 EmptyString (prepared_session, start_world true)
      = Ok STATUS_OK (s', w') /\
    is_streaming s' = true /\ (half_rtt s' == 1 # 4)%Q /\
    head (trace w') = Some EvSpawn.
Proof.
  destruct (start_stream_success 45000 EmptyString prepared_session (start_world true)
              {| port_name := "/dev/ttyUSB0" |} eq_refl eq_refl eq_refl
              (conj eq_refl eq_refl) (conj eq_refl eq_refl) (conj eq_refl eq_refl)
              eq_refl eq_refl eq_refl)
    as (s' & Heq & Hstr & _ & _ & Hhalf & _).
  exists s'. eexists. split; [exact Heq|]. split; [exact Hstr|].
  split; [rewrite Hhalf; reflexivity|reflexivity].
Defined.


(** A start on a port that does not answer the probe. *)
Lemma start_stream_probe_failure_witness :
  exists w' evs,
    start_stream 45000 EmptyString (prepared_session, demo_world [] [] 0)
      = Ok BOARD_WRITE_ERROR (prepared_session, w') /\
    trace w' = evs ++ [] /\
    (evs = [EvSend probe_command] \/ evs = [EvRead 4 []; EvSend probe_command]).
Proof.
  assert (Hnot : ~ probe_ok (demo_world [] [] 0)).
  { intros [_ Hread]. discriminate Hread. }
  destruct (start_stream_probe_failure 45000 EmptyString prepared_session
              (demo_world [] [] 0) {| port_name := "/dev/ttyUSB0" |}
              eq_refl eq_refl eq_refl Hnot)
    as (w' & evs & Heq & Htr & Hevs).
  exists w', evs. split; [exact Heq|]. split; [exact Htr|exact Hevs].
Defined.

(** A start on a port that answers the probes and then writes one byte of
    the start command. *)
Lemma start_stream_late_failure_witness :
  exists s' w',
    start_stream 45000 EmptyString (prepared_session, late_failure_world)
      = Ok BOARD_WRITE_ERROR (s', w') /\
    is_streaming s' = false /\ keep_alive s' = false /\
    head (trace w') = Some (EvSend start_command).
Proof.
  destruct (start_stream_late_failure 45000 EmptyString prepared_session late_failure_world
              {| port_name := "/dev/ttyUSB0" |} eq_refl eq_refl eq_refl
              (conj eq_refl eq_refl) (conj eq_refl eq_refl) (conj eq_refl eq_refl))
    as [_ Hsend].
  do 2 eexists. split; [apply Hsend; [reflexivity|discriminate]|].
  split; [reflexivity|]. split; reflexivity.
Defined.

(** A stop on a port that writes one byte of the stop command. *)
Lemma stop_stream_write_failure_witness :
  stop_stream (streaming_session, short_write_world) =
    Ok BOARD_WRITE_ERROR
       (stopped streaming_session, after_send stop_command (log EvJoin short_write_world)).
Proof.
  exact (stop_stream_write_failure streaming_session short_write_world
           {| port_name := "/dev/ttyUSB0" |} eq_refl eq_refl ltac:(discriminate)).
Defined.

(** A stop on a port that is already quiet: one read, then the probes. *)
Lemma stop_stream_success_witness :
  exists s' w' probes reads,
    stop_stream (streaming_session, demo_world [] [] 0) = Ok STATUS_OK (s', w') /\
    is_streaming s' = false /\
    trace w' = probes ++ reads ++ [EvSend stop_command; EvJoin] /\
    length reads = 1.
Proof.
  assert (Hcap : steady_bytes (incoming (demo_world [] [] 0)) + 1 < max_attempt).
  { apply Nat.ltb_lt. vm_compute. reflexivity. }
  destruct (stop_stream_success streaming_session (demo_world [] [] 0)
              {| port_name := "/dev/ttyUSB0" |} eq_refl eq_refl eq_refl Hcap)
    as (s' & w' & probes & reads & Heq & Hsame & Htr & Hlen & _).
  exists s', w', probes, reads. split; [exact Heq|].
  split; [exact (proj1 (proj2 (proj2 (proj2 Hsame))))|]. split; [exact Htr|exact Hlen].
Defined.

(** Releasing a streaming session on a quiet port. *)
Lemma release_session_releases_witness :
  exists s' w',
    release_session (streaming_session, demo_world [] [] 0) = Ok STATUS_OK (s', w') /\
    initialized s' = false /\ serial s' = None /\ is_streaming s' = false /\
    release_session (s', w') = Ok STATUS_OK (s', w').
Proof.
  destruct (release_session_releases streaming_session (demo_world [] [] 0)
              {| port_name := "/dev/ttyUSB0" |} eq_refl eq_refl)
    as (s' & w' & evs & Heq & Hini & Hser & Hstr & _ & _ & _ & _ & Hagain).
  exists s', w'. split; [exact Heq|]. split; [exact Hini|]. split; [exact Hser|].
  split; [exact Hstr|exact Hagain].
Defined.

(** The rows of the demo frame do not change when the package array held
    sevens instead of zeros in the channels of the decoder. *)
Lemma rows_do_not_depend_on_previous_frame_witness :
  decode_frame demo_header demo_board demo_body 5%Q 1%Q (1 # 100)%Q (replicate 26 0%Q, []) =
  decode_frame demo_header demo_board demo_body 5%Q 1%Q (1 # 100)%Q
    (replicate 25 7%Q ++ [0%Q], []).
Proof.
  assert (Hok : channel_map_ok demo_board).
  { apply (bool_decide_unpack _). vm_compute. exact I. }
  assert (Hroles : forall c, c < 25 -> c ∈ role_channels demo_board).
  { intros c Hc.
    do 25 (destruct c as [|c]; [apply (bool_decide_unpack _); vm_compute; exact I|]).
    lia. }
  apply (rows_do_not_depend_on_previous_frame demo_header demo_board demo_body
           5%Q 1%Q (1 # 100)%Q Hok (replicate 26 0%Q) (replicate 25 7%Q ++ [0%Q]) []
           eq_refl eq_refl ltac:(cbn; lia)).
  intros c Hc. destruct (decide (c < 25)) as [Hlt|Hge]; [by destruct (Hc (Hroles c Hlt))|].
  destruct (decide (c = 25)) as [->|Hne]; [reflexivity|].
  rewrite !lookup_ge_None_2; [reflexivity|cbn; lia|cbn; lia].
Defined.

(** [prepare_session] on a port that writes one byte of the first command. *)
Lemma prepare_failure_after_open_witness :
  exists s' w',
    prepare_session (GaleaSerial_new "/dev/ttyUSB0" 3, short_write_world)
      = Ok BOARD_NOT_READY_ERROR (s', w') /\
    serial s' = None /\ initialized s' = false /\
    trace w' = [EvDelete; EvSend default_settings_command; EvBaud 921600; EvSettings 3000;
                EvOpen; EvCreate "/dev/ttyUSB0"].
Proof.
  assert (Hnot : ~ ((0 <= settings_res short_write_world)%Z /\
                    (0 <= baud_res short_write_world)%Z /\
                    nth_send_result short_write_world 0 2 = 2%Z /\
                    nth_send_result short_write_world 1 3 = 3%Z)).
  { intros (_ & _ & Hsend & _). discriminate Hsend. }
  destruct (prepare_failure_after_open (GaleaSerial_new "/dev/ttyUSB0" 3) short_write_world
              eq_refl ltac:(discriminate) ltac:(cbn; lia) Hnot)
    as (code & s' & w' & n & Heq & Hini & Hser & _ & Htr & Hcases).
  destruct Hcases as [(Hs & _)|[(_ & Hb & _)|[(_ & _ & _ & -> & ->)|(_ & _ & Hone & _)]]].
  - cbn in Hs. lia.
  - cbn in Hb. lia.
  - exists s', w'. split; [exact Heq|]. split; [exact Hser|]. split; [exact Hini|exact Htr].
  - discriminate Hone.
Defined.

(** [prepare_session] on a port that cannot be opened, then
    [release_session]. *)
Lemma failed_open_is_not_released_witness :
  exists s' w',
    prepare_session (GaleaSerial_new "/dev/ttyUSB0" 3, closed_port_world)
      = Ok UNABLE_TO_OPEN_PORT_ERROR (s', w') /\
    serial s' = Some {| port_name := "/dev/ttyUSB0" |} /\
    release_session (s', w') = Ok STATUS_OK (s', w').
Proof.
  destruct (failed_open_is_not_released (GaleaSerial_new "/dev/ttyUSB0" 3) closed_port_world
              eq_refl ltac:(discriminate) ltac:(cbn; lia))
    as (s' & w' & Heq & Hser & _ & Hrel & _).
  exists s', w'. split; [exact Heq|]. split; [exact Hser|exact Hrel].
Defined.

(** Every row of the demo frame is one second minus [half_rtt] ahead of its
    device time. *)
Lemma frame_offset_is_constant_witness :
  exists rows,
    (decode_frame demo_header demo_board demo_body 5%Q 1%Q (1 # 100)%Q
       (replicate 26 0%Q, [])).2 = rows /\
    Forall (fun row =>
              exists stamp device,
                row !! 22 = Some stamp /\ row !! 24 = Some device /\
                (stamp - device == 99 # 100)%Q) rows.
Proof.
  assert (Hst : stamp_map_ok demo_board).
  { apply (bool_decide_unpack _). vm_compute. exact I. }
  destruct (frame_offset_is_constant demo_header demo_board demo_body 5%Q 1%Q (1 # 100)%Q
              (replicate 26 0%Q) [] Hst eq_refl)
    as (rows & Heq & Hall).
  exists rows. split; [exact Heq|].
  apply (Forall_impl _ _ _ Hall).
  intros row (stamp & device & Hs & Hd & _ & Hval).
  exists stamp, device. split; [exact Hs|]. split; [exact Hd|].
  rewrite Hval. reflexivity.
Defined.
